(** * pact-js-core: the verifier argument mapper and the mock-server factory

    A shallow embedding of
    - [src/verifier/argumentMapper/arguments.ts]: the table [orderOfExecution]
      and the descriptors of [ffiFnMapping], each of which inspects the
      verifier options and the process environment and issues calls on the
      native verifier handle;
    - the server module ([server.js]): the factory function exported by the
      module, which validates its options and constructs a [Server]; the
      methods [start] and [stop]; and the two functions that poll the
      service, [waitForServerUp] and [waitForServerDown].

    Strings are Rocq strings (sequences of bytes); the code only compares,
    concatenates and splits them on ASCII characters, which acts the same on
    UTF-8 bytes as on the UTF-16 units of a JavaScript string.  Calls on the
    [ffi] object are recorded in a log, in the order they are issued; logging
    through [logger] is left out. *)

From Stdlib Require Import String Ascii List ZArith Bool Lia Sorted.
Import ListNotations.
Open Scope string_scope.
Open Scope Z_scope.

Set Implicit Arguments.

(** ** JavaScript values and built-ins used by the code *)

(** Truthiness of a [string | undefined], a [boolean | undefined] and a
    [number | undefined] ([None] is [undefined]). *)
Definition truthy_string (v : option string) : bool :=
  match v with
  | Some s => negb (s =? "")%string
  | None => false
  end.

Definition truthy_boolean (v : option bool) : bool :=
  match v with
  | Some b => b
  | None => false
  end.

(** [a || b] on [string | undefined]: the left operand when it is truthy,
    the right one otherwise. *)
Definition or_string (a b : option string) : option string :=
  if truthy_string a then a else b.

(** [a || ''] (and [a || false], [a || []]): the right operand is a default
    of the value's type. *)
Definition or_default (a : option string) (d : string) : string :=
  match a with
  | Some s => if (s =? "")%string then d else s
  | None => d
  end.

Definition or_false (a : option bool) : bool := truthy_boolean a.

Definition or_empty {A : Type} (a : option (list A)) : list A :=
  match a with
  | Some l => l
  | None => []
  end.

(** [s.split(sep)] for a one-character separator: the pieces between the
    occurrences of [sep], all of them; the result is never empty. *)
Fixpoint split (sep : ascii) (s : string) : list string :=
  match s with
  | EmptyString => [EmptyString]
  | String c t =>
      if Ascii.eqb c sep then EmptyString :: split sep t
      else match split sep t with
           | p :: ps => String c p :: ps
           | [] => [String c EmptyString]
           end
  end.

(** [parts[i]] where the code has checked, or [split] guarantees, that the
    index is in range (out of range JavaScript gives [undefined], which the
    empty string stands for here and which none of the uses below reaches). *)
Definition at_index (parts : list string) (i : nat) : string :=
  nth i parts EmptyString.

(** [messages.push(m)] *)
Definition push (messages : list string) (m : string) : list string :=
  (messages ++ [m])%list.

(** [/https?:/.test(s)]: the pattern is not anchored, so it looks for
    [http:] or [https:] anywhere in [s]. *)
Fixpoint regex_https_test (s : string) : bool :=
  String.prefix "http:" s || String.prefix "https:" s ||
  match s with
  | EmptyString => false
  | String _ t => regex_https_test t
  end.

(** A JavaScript number as far as the code needs it: an integer, a number
    that is not an integer (a fraction or an infinity), or [NaN]. *)
Inductive JsNumber : Type :=
| JsInt (z : Z)
| JsNonInteger
| NaN.

Definition truthy_number (v : option JsNumber) : bool :=
  match v with
  | Some (JsInt z) => negb (z =? 0)
  | Some JsNonInteger => true
  | Some NaN => false
  | None => false
  end.

Definition is_digit (c : ascii) : bool :=
  ((48 <=? nat_of_ascii c) && (nat_of_ascii c <=? 57))%nat.

Definition digit_value (c : ascii) : Z := Z.of_nat (nat_of_ascii c) - 48.

Definition is_whitespace (c : ascii) : bool :=
  let n := nat_of_ascii c in
  ((n =? 9) || (n =? 10) || (n =? 11) || (n =? 12) || (n =? 13) || (n =? 32))%nat.

Fixpoint skip_whitespace (s : string) : string :=
  match s with
  | String c t => if is_whitespace c then skip_whitespace t else s
  | EmptyString => s
  end.

(** The value of the longest prefix of decimal digits, [None] when the
    string does not start with a digit. *)
Fixpoint leading_digits (acc : option Z) (s : string) : option Z :=
  match s with
  | String c t =>
      if is_digit c
      then leading_digits
             (Some (10 * match acc with Some a => a | None => 0 end
                    + digit_value c)) t
      else acc
  | EmptyString => acc
  end.

(** [parseInt(s, 10)]: leading white space is skipped, a sign is read, then
    the longest run of decimal digits; [NaN] when there is no digit.  (The
    value is exact here; JavaScript rounds it beyond 2^53.) *)
Definition parseInt10 (s : string) : JsNumber :=
  let s1 := skip_whitespace s in
  let '(negative, s2) :=
    match s1 with
    | String "-" t => (true, t)
    | String "+" t => (false, t)
    | _ => (false, s1)
    end in
  match leading_digits None s2 with
  | Some v => JsInt (if negative then - v else v)
  | None => NaN
  end.

(** ** [orderOfExecution]

    The object literal, as its list of own properties in source order. *)
Definition orderOfExecution : list (string * Z) :=
  [ ("pactffiVerifierSetProviderInfo", 1);
    ("pactffiVerifierSetFilterInfo", 2);
    ("pactffiVerifierSetProviderState", 3);
    ("pactffiVerifierSetVerificationOptions", 4);
    ("pactffiVerifierSetPublishOptions", 5);
    ("pactffiVerifierSetConsumerFilters", 6);
    ("pactffiVerifierAddCustomHeader", 7);
    ("pactffiVerifierAddDirectorySource", 8);
    ("pactffiVerifierBrokerSourceWithSelectors", 9) ].

(** The keys of the type [MergedFfiSourceFunctions]. *)
Definition MergedFfiSourceFunctions : list string :=
  [ "pactffiVerifierAddFileSource"; "pactffiVerifierUrlSource" ].

(** The keys of the type [IgnoredFfiFunctions]. *)
Definition IgnoredFfiFunctions : list string :=
  [ "pactffiVerifierNewForApplication"; "pactffiVerifierExecute";
    "pactffiVerifierShutdown" ].

(** [obj[key]]: the value of the property, [undefined] when the object has
    no such property. *)
Fixpoint property {V : Type} (obj : list (string * V)) (key : string)
  : option V :=
  match obj with
  | [] => None
  | (k, v) :: rest => if (k =? key)%string then Some v else property rest key
  end.

Definition keys {V : Type} (obj : list (string * V)) : list string :=
  map fst obj.

(** [a] runs before [b]: both have an order and that of [a] is the smaller. *)
Definition runs_before (a b : string) : Prop :=
  exists i j, property orderOfExecution a = Some i /\
              property orderOfExecution b = Some j /\ i < j.

(** ** Exceptions and effects

    A computation reads and updates a state (the log of native calls for
    the descriptors, the file system for the server factory) and either
    completes normally or throws; a thrown error skips everything after it,
    there being no [catch] but the ones written out below. *)

Inductive JsError : Type :=
| TypeError (message : string)
| Error (message : string)
| CheckTypesError (assertion : string).

Inductive Completion (A : Type) : Type :=
| Normal (value : A)
| Throw (error : JsError).

Arguments Throw {A} error.

Definition Exec (S A : Type) : Type := S -> Completion A * S.

Definition ret {S A : Type} (a : A) : Exec S A := fun s => (Normal a, s).

Definition throw {S A : Type} (e : JsError) : Exec S A := fun s => (Throw e, s).

Definition bind {S A B : Type} (m : Exec S A) (k : A -> Exec S B) : Exec S B :=
  fun s =>
    match m s with
    | (Normal a, s') => k a s'
    | (Throw e, s') => (Throw e, s')
    end.

Notation "x <- m ;; k" := (bind m (fun x => k))
  (at level 61, m at next level, right associativity).
Notation "m ;;; k" := (bind m (fun _ => k))
  (at level 61, right associativity).

(** [items.forEach(callback)] where the callback updates a variable [acc] of
    the enclosing function (the array [messages]). *)
Fixpoint forEach {S A M : Type} (callback : A -> M -> Exec S M)
  (items : list A) (acc : M) : Exec S M :=
  match items with
  | [] => ret acc
  | item :: rest => acc' <- callback item acc ;; forEach callback rest acc'
  end.

(** ** The native call surface ([ffi]) *)

Definition FfiHandle : Type := Z.

Module Ffi.

Inductive Call : Type :=
| pactffiVerifierAddCustomHeader (handle : FfiHandle) (name value : string)
| pactffiVerifierAddDirectorySource (handle : FfiHandle) (file : string)
| pactffiVerifierAddFileSource (handle : FfiHandle) (file : string)
| pactffiVerifierUrlSource (handle : FfiHandle)
    (url username password token : string)
| pactffiVerifierBrokerSourceWithSelectors (handle : FfiHandle)
    (url username password token : string) (enablePending : bool)
    (includeWipPactsSince : string) (providerVersionTags : list string)
    (providerVersionBranch : string)
    (consumerVersionSelectors consumerVersionTags : list string)
| pactffiVerifierSetConsumerFilters (handle : FfiHandle)
    (consumerFilters : list string)
| pactffiVerifierSetFilterInfo (handle : FfiHandle)
    (description state : string) (noState : bool)
| pactffiVerifierSetProviderInfo (handle : FfiHandle)
    (name scheme host : string) (port : JsNumber) (path : string)
| pactffiVerifierSetProviderState (handle : FfiHandle) (url : string)
    (teardown body : bool)
| pactffiVerifierSetPublishOptions (handle : FfiHandle)
    (providerVersion buildUrl : string) (providerVersionTags : list string)
    (providerVersionBranch : string)
| pactffiVerifierSetVerificationOptions (handle : FfiHandle)
    (disableSslVerification : bool) (timeout : JsNumber).

(** The calls issued so far, oldest first. *)
Definition Log : Type := list Call.

(** A native call returns nothing the descriptors read and is taken not
    to throw; it is appended to the log. *)
Definition call (c : Call) : Exec Log unit :=
  fun log => (Normal tt, (log ++ [c])%list).

End Ffi.

(** ** What the descriptors read from the Node.js runtime *)

(** The fields of a WHATWG [URL] object that the code reads. *)
Record URL : Type := {
  protocol : string;
  hostname : string;
  port : string;
  pathname : string
}.

(** The predicates of an [fs.Stats] object that the code calls. *)
Record Stats : Type := {
  isDirectory : bool;
  isFile : bool;
  isSymbolicLink : bool
}.

Record Node : Type := {
  (** [process.env.NAME] *)
  process_env : string -> option string;
  (** [url.parse(s).protocol]: [Normal None] when it is [null], [Throw e]
      when [url.parse] throws (on a host it rejects, or on credentials
      that do not decode) *)
  url_parse_protocol : string -> Completion (option string);
  (** [new URL(s)], [None] when the constructor throws *)
  new_URL : string -> option URL;
  (** [fs.lstatSync(path)], [None] when it throws *)
  fs_lstatSync : string -> option Stats
}.

(** ** Types of the argument mapper *)

Inductive FnValidationStatus : Type := FAIL | SUCCESS | IGNORE.

(** The object a descriptor returns: [messages] is [None] when the object
    literal has no [messages] property. *)
Record FnValidationResult : Type := {
  status : FnValidationStatus;
  messages : option (list string)
}.

(** [customProviderHeaders] is an array of strings or an object, given by
    the list of pairs of strings that [Object.entries] returns for it. *)
Inductive CustomHeaders : Type :=
| HeaderArray (items : list string)
| HeaderObject (entries : list (string * string)).

Definition DEFAULT_TIMEOUT : JsNumber := JsInt 30000.

Section VerifierOptions.

(** A consumer version selector is an object that the code only hands to
    [JSON.stringify]. *)
Variable Selector : Type.

(** The fields of [InternalPactVerifierOptions] that the descriptors
    read; an optional field is [None] when it is [undefined]. *)
Record Options : Type := {
  providerBaseUrl : string;
  provider : option string;
  pactUrls : option (list string);
  pactBrokerUrl : option string;
  pactBrokerUsername : option string;
  pactBrokerPassword : option string;
  pactBrokerToken : option string;
  customProviderHeaders : option CustomHeaders;
  consumerFilters : option (list string);
  enablePending : option bool;
  includeWipPactsSince : option string;
  providerVersionTags : option (list string);
  providerVersionBranch : option string;
  providerBranch : option string;
  consumerVersionSelectors : option (list Selector);
  consumerVersionTags : option (list string);
  providerStatesSetupUrl : option string;
  publishVerificationResult : option bool;
  providerVersion : option string;
  buildUrl : option string;
  disableSslVerification : option bool;
  timeout : option JsNumber
}.

End VerifierOptions.

(** ** [ffiFnMapping]

    One definition per key of the table: the [validateAndExecute] of that
    key, with [ffi] the log of native calls. *)

Module ffiFnMapping.

Section Descriptors.

Variable Selector : Type.

(** [JSON.stringify] on a selector object. *)
Variable JSON_stringify : Selector -> string.

(** The runtime the descriptors run in. *)
Variable node : Node.

Definition objArrayToStringArray (obj : list Selector) : list string :=
  map JSON_stringify obj.

Definition result (s : FnValidationStatus) : Exec Ffi.Log FnValidationResult :=
  ret {| status := s; messages := None |}.

(** The callback of [customProviderHeaders.forEach] of the array form;
    [messages] is the array of the enclosing function. *)
Definition addCustomHeaderItem (handle : FfiHandle) (item : string)
  (messages : list string) : Exec Ffi.Log (list string) :=
  let parts := split ":" item in
  if negb (length parts =? 2)%nat then
    ret (push messages
           (item ++ " is not a valid custom header. Must be in the format 'Header-Name: Value'"))
  else
    Ffi.call (Ffi.pactffiVerifierAddCustomHeader handle
                (at_index parts 0) (at_index parts 1)) ;;;
    ret messages.

(** The callback of [Object.entries(customProviderHeaders).forEach]. *)
Definition addCustomHeaderEntry (handle : FfiHandle)
  (entry : string * string) (messages : list string)
  : Exec Ffi.Log (list string) :=
  let '(key, value) := entry in
  Ffi.call (Ffi.pactffiVerifierAddCustomHeader handle key value) ;;;
  ret messages.

(** An array and an object are truthy also when they are empty. *)
Definition pactffiVerifierAddCustomHeader (handle : FfiHandle)
  (options : Options Selector) : Exec Ffi.Log FnValidationResult :=
  match customProviderHeaders options with
  | Some headers =>
      messages <-
        match headers with
        | HeaderArray items => forEach (addCustomHeaderItem handle) items []
        | HeaderObject entries => forEach (addCustomHeaderEntry handle) entries []
        end ;;
      if (0 <? length messages)%nat then
        ret {| status := FAIL; messages := None |}
      else
        result SUCCESS
  | None => result IGNORE
  end.

(** [url.parse(file).protocol] as a step of a computation. *)
Definition url_parse (file : string) : Exec Ffi.Log (option string) :=
  fun log => (url_parse_protocol node file, log).

(** The callback of [pactUrls.forEach].  [url.parse] is called in the
    condition of the [if], outside both [try] blocks: when it throws, the
    callback throws, and with it the loop and the descriptor.  A [try]
    block holds only the [URL] constructor, respectively [lstatSync], and
    native calls, so its [catch] runs exactly when that constructor or
    probe throws. *)
Definition addPactUrl (handle : FfiHandle) (options : Options Selector)
  (file : string) (messages : list string) : Exec Ffi.Log (list string) :=
  protocol <- url_parse file ;;
  if regex_https_test (or_default protocol "") then
    match new_URL node file with
    | Some u =>
        if truthy_string (Some (hostname u)) then
          Ffi.call (Ffi.pactffiVerifierUrlSource handle file
            (or_default (or_string (pactBrokerUsername options)
                           (process_env node "PACT_BROKER_USERNAME")) "")
            (or_default (or_string (pactBrokerPassword options)
                           (process_env node "PACT_BROKER_PASSWORD")) "")
            (or_default (or_string (pactBrokerToken options)
                           (process_env node "PACT_BROKER_TOKEN")) "")) ;;;
          ret messages
        else
          ret messages
    | None => ret (push messages (file ++ " is not a valid URL"))
    end
  else
    match fs_lstatSync node file with
    | Some f =>
        if isDirectory f then
          Ffi.call (Ffi.pactffiVerifierAddDirectorySource handle file) ;;;
          ret messages
        else if isFile f || isSymbolicLink f then
          Ffi.call (Ffi.pactffiVerifierAddFileSource handle file) ;;;
          ret messages
        else
          ret messages
    | None =>
        ret (push messages
               ("'" ++ file ++ "' does not exist, or is not a file or directory"))
    end.

Definition pactffiVerifierAddDirectorySource (handle : FfiHandle)
  (options : Options Selector) : Exec Ffi.Log FnValidationResult :=
  match pactUrls options with
  | Some urls =>
      messages <- forEach (addPactUrl handle options) urls [] ;;
      if (0 <? length messages)%nat then
        ret {| status := FAIL; messages := Some messages |}
      else
        result SUCCESS
  | None => result IGNORE
  end.

Definition pactffiVerifierBrokerSourceWithSelectors (handle : FfiHandle)
  (opts : Options Selector) : Exec Ffi.Log FnValidationResult :=
  let brokerUrl :=
    or_string (pactBrokerUrl opts) (process_env node "PACT_BROKER_BASE_URL") in
  match brokerUrl with
  | Some url =>
      if truthy_string brokerUrl && truthy_string (provider opts) then
        Ffi.call (Ffi.pactffiVerifierBrokerSourceWithSelectors handle
          url
          (or_default (or_string (pactBrokerUsername opts)
                         (process_env node "PACT_BROKER_USERNAME")) "")
          (or_default (or_string (pactBrokerPassword opts)
                         (process_env node "PACT_BROKER_PASSWORD")) "")
          (or_default (or_string (pactBrokerToken opts)
                         (process_env node "PACT_BROKER_TOKEN")) "")
          (or_false (enablePending opts))
          (or_default (includeWipPactsSince opts) "")
          (or_empty (providerVersionTags opts))
          (or_default (or_string (providerVersionBranch opts)
                         (providerBranch opts)) "")
          (match consumerVersionSelectors opts with
           | Some selectors => objArrayToStringArray selectors
           | None => []
           end)
          (or_empty (consumerVersionTags opts))) ;;;
        result SUCCESS
      else
        result IGNORE
  | None => result IGNORE
  end.

Definition pactffiVerifierSetConsumerFilters (handle : FfiHandle)
  (options : Options Selector) : Exec Ffi.Log FnValidationResult :=
  match consumerFilters options with
  | Some filters =>
      if (0 <? length filters)%nat then
        Ffi.call (Ffi.pactffiVerifierSetConsumerFilters handle filters) ;;;
        result SUCCESS
      else
        result IGNORE
  | None => result IGNORE
  end.

Definition pactffiVerifierSetFilterInfo (handle : FfiHandle)
  : Exec Ffi.Log FnValidationResult :=
  if truthy_string (process_env node "PACT_DESCRIPTION")
     || truthy_string (process_env node "PACT_PROVIDER_STATE")
     || truthy_string (process_env node "PACT_PROVIDER_NO_STATE")
  then
    let filterDescription := or_default (process_env node "PACT_DESCRIPTION") "" in
    let filterState := or_default (process_env node "PACT_PROVIDER_STATE") "" in
    let filterNoState := truthy_string (process_env node "PACT_PROVIDER_NO_STATE") in
    Ffi.call (Ffi.pactffiVerifierSetFilterInfo handle
                filterDescription filterState filterNoState) ;;;
    result SUCCESS
  else
    result IGNORE.

(** [new URL] is outside any [try]: when it throws, so does the
    descriptor. *)
Definition pactffiVerifierSetProviderInfo (handle : FfiHandle)
  (options : Options Selector) : Exec Ffi.Log FnValidationResult :=
  match new_URL node (providerBaseUrl options) with
  | Some uri =>
      Ffi.call (Ffi.pactffiVerifierSetProviderInfo handle
                  (or_default (provider options) "")
                  (at_index (split ":" (protocol uri)) 0)
                  (hostname uri)
                  (parseInt10 (port uri))
                  (pathname uri)) ;;;
      result SUCCESS
  | None => throw (TypeError "Invalid URL")
  end.

Definition pactffiVerifierSetProviderState (handle : FfiHandle)
  (options : Options Selector) : Exec Ffi.Log FnValidationResult :=
  match providerStatesSetupUrl options with
  | Some url =>
      if truthy_string (Some url) then
        Ffi.call (Ffi.pactffiVerifierSetProviderState handle url true true) ;;;
        result SUCCESS
      else
        result IGNORE
  | None => result IGNORE
  end.

Definition pactffiVerifierSetPublishOptions (handle : FfiHandle)
  (options : Options Selector) : Exec Ffi.Log FnValidationResult :=
  match providerVersion options with
  | Some version =>
      if (truthy_boolean (publishVerificationResult options)
          || truthy_string
               (process_env node "PACT_BROKER_PUBLISH_VERIFICATION_RESULTS"))
         && truthy_string (Some version)
      then
        Ffi.call (Ffi.pactffiVerifierSetPublishOptions handle
                    version
                    (or_default (buildUrl options) "")
                    (or_empty (providerVersionTags options))
                    (or_default (or_string (providerVersionBranch options)
                                   (providerBranch options)) "")) ;;;
        result SUCCESS
      else
        result IGNORE
  | None => result IGNORE
  end.

Definition pactffiVerifierSetVerificationOptions (handle : FfiHandle)
  (opts : Options Selector) : Exec Ffi.Log FnValidationResult :=
  if truthy_boolean (disableSslVerification opts) || truthy_number (timeout opts)
  then
    Ffi.call (Ffi.pactffiVerifierSetVerificationOptions handle
                (or_false (disableSslVerification opts))
                (match timeout opts with
                 | Some t => if truthy_number (Some t) then t else DEFAULT_TIMEOUT
                 | None => DEFAULT_TIMEOUT
                 end)) ;;;
    result SUCCESS
  else
    result IGNORE.

End Descriptors.

End ffiFnMapping.

(** ** The server module

    The options object, the [Server] constructor and the factory function
    that the module exports.  The state of a computation is the file
    system. *)

(** [try { body } catch (e) { handler }] *)
Definition try_catch {S A : Type} (body : Exec S A)
  (handler : JsError -> Exec S A) : Exec S A :=
  fun s =>
    match body s with
    | (Normal a, s') => (Normal a, s')
    | (Throw e, s') => handler e s'
    end.

Module server.

Definition CHECKTIME : Z := 500.
Definition RETRY_AMOUNT : Z := 60.
Definition PROCESS_TIMEOUT : Z := 30000.

(** The options object; a property is [None] when it is [undefined].  The
    factory assigns to the properties of the object it is given. *)
Record ServerOptions : Type := {
  port : option JsNumber;
  host : option string;
  dir : option string;
  ssl : option bool;
  sslcert : option string;
  sslkey : option string;
  cors : option bool;
  log : option string;
  spec : option JsNumber;
  consumer : option string;
  provider : option string
}.

(** [{}] *)
Definition empty_options : ServerOptions :=
  {| port := None; host := None; dir := None; ssl := None; sslcert := None;
     sslkey := None; cors := None; log := None; spec := None;
     consumer := None; provider := None |}.

Definition set_ssl (o : ServerOptions) (v : bool) : ServerOptions :=
  {| port := port o; host := host o; dir := dir o; ssl := Some v;
     sslcert := sslcert o; sslkey := sslkey o; cors := cors o; log := log o;
     spec := spec o; consumer := consumer o; provider := provider o |}.

Definition set_cors (o : ServerOptions) (v : bool) : ServerOptions :=
  {| port := port o; host := host o; dir := dir o; ssl := ssl o;
     sslcert := sslcert o; sslkey := sslkey o; cors := Some v; log := log o;
     spec := spec o; consumer := consumer o; provider := provider o |}.

Definition set_dir (o : ServerOptions) (v : string) : ServerOptions :=
  {| port := port o; host := host o; dir := Some v; ssl := ssl o;
     sslcert := sslcert o; sslkey := sslkey o; cors := cors o; log := log o;
     spec := spec o; consumer := consumer o; provider := provider o |}.

Definition set_host (o : ServerOptions) (v : string) : ServerOptions :=
  {| port := port o; host := Some v; dir := dir o; ssl := ssl o;
     sslcert := sslcert o; sslkey := sslkey o; cors := cors o; log := log o;
     spec := spec o; consumer := consumer o; provider := provider o |}.

(** The object [new Server(...)] builds: [_options] holds the eleven
    arguments, [_running] starts [false]. *)
Record Server : Type := {
  _options : ServerOptions;
  _running : bool;
  START_EVENT : string;
  STOP_EVENT : string;
  DELETE_EVENT : string
}.

Definition new_Server (port : option JsNumber) (host dir : option string)
  (ssl : option bool) (sslcert sslkey : option string) (cors : option bool)
  (log : option string) (spec : option JsNumber)
  (consumer provider : option string) : Server :=
  {| _options :=
       {| port := port; host := host; dir := dir; ssl := ssl;
          sslcert := sslcert; sslkey := sslkey; cors := cors; log := log;
          spec := spec; consumer := consumer; provider := provider |};
     _running := false;
     START_EVENT := "start";
     STOP_EVENT := "stop";
     DELETE_EVENT := "delete" |}.

(** What [fs.statSync(path)] returns for each path, [None] when it
    throws. *)
Definition FileSystem : Type := string -> option Stats.

(** What [mkdirp.sync] ends with: the file system with the directory
    made, or an error of the file system and the file system as the call
    left it, which may hold parents that were made before the error. *)
Inductive Mkdirp : Type :=
| Made (fs : FileSystem)
| MkdirpError (message : string) (fs : FileSystem).

(** The library functions the factory calls: [path], [process.cwd()],
    the number predicates of [check-types], and [mkdirp.sync]. *)
Record Runtime : Type := {
  path_resolve : string -> string;
  path_normalize : string -> string;
  path_parse_dir : string -> string;
  process_cwd : string;
  checkTypes_number : JsNumber -> bool;
  checkTypes_integer : JsNumber -> bool;
  checkTypes_positive : JsNumber -> bool;
  checkTypes_inRange : JsNumber -> Z -> Z -> bool;
  mkdirp_sync : FileSystem -> string -> Mkdirp
}.

Section Factory.

Variable rt : Runtime.

Definition fs_statSync (path : string) : Exec FileSystem Stats :=
  fun fs =>
    match fs path with
    | Some stats => (Normal stats, fs)
    | None => (Throw (Error "ENOENT: no such file or directory"), fs)
    end.

Definition mkdirp (path : string) : Exec FileSystem unit :=
  fun fs =>
    match mkdirp_sync rt fs path with
    | Made fs' => (Normal tt, fs')
    | MkdirpError message fs' => (Throw (Error message), fs')
    end.

(** [checkTypes.assert.<name>(...)] *)
Definition assert (holds : bool) (name : string) : Exec FileSystem unit :=
  if holds then ret tt else throw (CheckTypesError name).

(** [if (c) { body }] *)
Definition when (c : bool) (body : Exec FileSystem unit) : Exec FileSystem unit :=
  if c then body else ret tt.

(** The value of a property that the enclosing [if] found truthy. *)
Definition value_of (v : option string) : string := or_default v "".

(** [module.exports = function (options) { ... }].  The options are
    typed: [ssl] and [cors] are booleans and [host], [consumer] and
    [provider] strings when they are set, so that the assertions
    [assert.boolean] and [assert.string] on them hold and are not
    written out; the assertions on numbers are. *)
Definition module_exports (options : option ServerOptions)
  : Exec FileSystem Server :=
  let options := match options with Some o => o | None => empty_options end in
  let options := set_ssl options (or_false (ssl options)) in
  let options := set_cors options (or_false (cors options)) in
  let options :=
    set_dir options
      (if truthy_string (dir options)
       then path_resolve rt (value_of (dir options))
       else process_cwd rt) in
  let options := set_host options (or_default (host options) "localhost") in
  when (truthy_number (port options))
    (match port options with
     | Some p =>
         assert (checkTypes_number rt p) "number" ;;;
         assert (checkTypes_integer rt p) "integer" ;;;
         assert (checkTypes_positive rt p) "positive" ;;;
         assert (checkTypes_inRange rt p 0 65535) "inRange"
     | None => ret tt
     end) ;;;
  when ((truthy_string (sslcert options) && negb (truthy_string (sslkey options)))
        || (negb (truthy_string (sslcert options)) && truthy_string (sslkey options)))
    (throw (Error "Custom ssl certificate and key must be specified together.")) ;;;
  when (truthy_string (sslcert options))
    (try_catch
       (stats <- fs_statSync (path_normalize rt (value_of (sslcert options))) ;;
        let _ := isFile stats in ret tt)
       (fun e =>
          throw (Error ("Custom ssl certificate not found at path: "
                        ++ value_of (sslcert options))))) ;;;
  when (truthy_string (sslkey options))
    (try_catch
       (stats <- fs_statSync (path_normalize rt (value_of (sslkey options))) ;;
        let _ := isFile stats in ret tt)
       (fun e =>
          throw (Error ("Custom ssl key not found at path: "
                        ++ value_of (sslkey options))))) ;;;
  let options :=
    if truthy_string (sslcert options) && truthy_string (sslkey options)
    then set_ssl options true else options in
  when (truthy_number (spec options))
    (match spec options with
     | Some v =>
         assert (checkTypes_number rt v) "number" ;;;
         assert (checkTypes_integer rt v) "integer" ;;;
         assert (checkTypes_positive rt v) "positive"
     | None => ret tt
     end) ;;;
  when (truthy_string (dir options))
    (try_catch
       (stats <- fs_statSync (path_normalize rt (value_of (dir options))) ;;
        let _ := isDirectory stats in ret tt)
       (fun e => mkdirp (path_normalize rt (value_of (dir options))))) ;;;
  when (truthy_string (log options))
    (let fileObj_dir :=
       path_parse_dir rt (path_normalize rt (value_of (log options))) in
     try_catch
       (stats <- fs_statSync fileObj_dir ;;
        let _ := isDirectory stats in ret tt)
       (fun e => mkdirp fileObj_dir)) ;;;
  ret (new_Server (port options) (host options) (dir options) (ssl options)
         (sslcert options) (sslkey options) (cors options) (log options)
         (spec options) (consumer options) (provider options)).

End Factory.

End server.

(** ** Vocabulary of the statements *)

(** The number of occurrences of a character in a string. *)
Fixpoint count_char (c : ascii) (s : string) : nat :=
  match s with
  | EmptyString => 0%nat
  | String d t => ((if Ascii.eqb d c then 1 else 0) + count_char c t)%nat
  end.

(** An entry of the array of custom headers is well-formed when the code
    finds two parts in it; the call it then gives, and the message it gives
    otherwise. *)
Definition well_formed_header (item : string) : bool :=
  (length (split ":" item) =? 2)%nat.

Definition header_call (handle : FfiHandle) (item : string) : Ffi.Call :=
  Ffi.pactffiVerifierAddCustomHeader handle
    (at_index (split ":" item) 0) (at_index (split ":" item) 1).

Definition header_message (item : string) : string :=
  item ++ " is not a valid custom header. Must be in the format 'Header-Name: Value'".

(** An optional string is set (supplied, present) when it is a non-empty
    string: this is what the tests [if (v)], [v || w] and [v && w] of the
    code take it to be. *)
Definition is_set (v : option string) : Prop :=
  exists s, v = Some s /\ s <> "".

(** [arg] is [primary] when that is set, else [secondary] when that is set,
    else the empty string. *)
Definition falls_back (primary secondary : option string) (arg : string) : Prop :=
  (forall s, primary = Some s -> s <> "" -> arg = s) /\
  (~ is_set primary -> forall s, secondary = Some s -> s <> "" -> arg = s) /\
  (~ is_set primary -> ~ is_set secondary -> arg = "").

(** The credentials of a call that carries them. *)
Definition credentials (c : Ffi.Call) : option (string * string * string) :=
  match c with
  | Ffi.pactffiVerifierUrlSource _ _ username password token =>
      Some (username, password, token)
  | Ffi.pactffiVerifierBrokerSourceWithSelectors _ _ username password token
      _ _ _ _ _ _ => Some (username, password, token)
  | _ => None
  end.

(** The credentials follow the precedence option, environment, empty. *)
Definition credentials_resolved {Selector : Type} (node : Node)
  (options : Options Selector) (c : Ffi.Call) : Prop :=
  forall username password token,
    credentials c = Some (username, password, token) ->
    falls_back (pactBrokerUsername options)
      (process_env node "PACT_BROKER_USERNAME") username /\
    falls_back (pactBrokerPassword options)
      (process_env node "PACT_BROKER_PASSWORD") password /\
    falls_back (pactBrokerToken options)
      (process_env node "PACT_BROKER_TOKEN") token.

(** A string of decimal digits, at least one. *)
Fixpoint all_digits (s : string) : bool :=
  match s with
  | EmptyString => true
  | String c t => is_digit c && all_digits t
  end.

Definition is_port_number (s : string) : Prop :=
  s <> "" /\ all_digits s = true.

(** The number that a string of decimal digits writes, read after [acc]. *)
Fixpoint decimal (acc : Z) (s : string) : Z :=
  match s with
  | EmptyString => acc
  | String c t => decimal (10 * acc + digit_value c) t
  end.

(** The port, when one is given, passes the four assertions on it; the
    pact specification version, when one is given, passes its three. *)
Definition port_accepted (rt : server.Runtime) (o : server.ServerOptions) : bool :=
  match server.port o with
  | Some p =>
      negb (truthy_number (Some p))
      || (server.checkTypes_number rt p && server.checkTypes_integer rt p
          && server.checkTypes_positive rt p
          && server.checkTypes_inRange rt p 0 65535)
  | None => true
  end.

Definition spec_accepted (rt : server.Runtime) (o : server.ServerOptions) : bool :=
  match server.spec o with
  | Some v =>
      negb (truthy_number (Some v))
      || (server.checkTypes_number rt v && server.checkTypes_integer rt v
          && server.checkTypes_positive rt v)
  | None => true
  end.

(** The directory the factory settles on: [options.dir] resolved, or the
    current directory. *)
Definition pact_dir (rt : server.Runtime) (o : server.ServerOptions) : string :=
  if truthy_string (server.dir o)
  then server.path_resolve rt (server.value_of (server.dir o))
  else server.process_cwd rt.

(** The server factory, step by step: the lines that fill in defaults, the
    assertions on the port, the check that certificate and key come
    together, the check that a given path exists, the lines that force
    [ssl], and the rest of the function. *)
Definition defaults (rt : server.Runtime) (options : option server.ServerOptions)
  : server.ServerOptions :=
  let options := match options with Some o => o | None => server.empty_options end in
  let options := server.set_ssl options (or_false (server.ssl options)) in
  let options := server.set_cors options (or_false (server.cors options)) in
  let options :=
    server.set_dir options
      (if truthy_string (server.dir options)
       then server.path_resolve rt (server.value_of (server.dir options))
       else server.process_cwd rt) in
  server.set_host options (or_default (server.host options) "localhost").

Definition check_port (rt : server.Runtime) (o : server.ServerOptions)
  : Exec server.FileSystem unit :=
  server.when (truthy_number (server.port o))
    (match server.port o with
     | Some p =>
         server.assert (server.checkTypes_number rt p) "number" ;;;
         server.assert (server.checkTypes_integer rt p) "integer" ;;;
         server.assert (server.checkTypes_positive rt p) "positive" ;;;
         server.assert (server.checkTypes_inRange rt p 0 65535) "inRange"
     | None => ret tt
     end).

Definition check_ssl_pair (o : server.ServerOptions) : Exec server.FileSystem unit :=
  server.when
    ((truthy_string (server.sslcert o) && negb (truthy_string (server.sslkey o)))
     || (negb (truthy_string (server.sslcert o)) && truthy_string (server.sslkey o)))
    (throw (Error "Custom ssl certificate and key must be specified together.")).

Definition check_exists (rt : server.Runtime) (path : option string)
  (message : string) : Exec server.FileSystem unit :=
  server.when (truthy_string path)
    (try_catch
       (stats <- server.fs_statSync
                   (server.path_normalize rt (server.value_of path)) ;;
        let _ := isFile stats in ret tt)
       (fun e => throw (Error (message ++ server.value_of path)))).

Definition force_ssl (o : server.ServerOptions) : server.ServerOptions :=
  if truthy_string (server.sslcert o) && truthy_string (server.sslkey o)
  then server.set_ssl o true else o.

Definition check_spec (rt : server.Runtime) (o : server.ServerOptions)
  : Exec server.FileSystem unit :=
  server.when (truthy_number (server.spec o))
    (match server.spec o with
     | Some v =>
         server.assert (server.checkTypes_number rt v) "number" ;;;
         server.assert (server.checkTypes_integer rt v) "integer" ;;;
         server.assert (server.checkTypes_positive rt v) "positive"
     | None => ret tt
     end).

Definition ensure_directory (rt : server.Runtime) (given : bool) (path : string)
  : Exec server.FileSystem unit :=
  server.when given
    (try_catch
       (stats <- server.fs_statSync path ;;
        let _ := isDirectory stats in ret tt)
       (fun e => server.mkdirp rt path)).

Definition construct (o : server.ServerOptions) : server.Server :=
  server.new_Server (server.port o) (server.host o) (server.dir o)
    (server.ssl o) (server.sslcert o) (server.sslkey o) (server.cors o)
    (server.log o) (server.spec o) (server.consumer o) (server.provider o).

(** ** Sample inputs

    Options with only [providerBaseUrl] set, and the same with one more
    field. *)

Module Sample.

Definition handle : FfiHandle := 1.

Definition JSON_stringify (selector : unit) : string := "{}".

Definition options (providerBaseUrl : string) : Options unit :=
  {| providerBaseUrl := providerBaseUrl; provider := None; pactUrls := None;
     pactBrokerUrl := None; pactBrokerUsername := None;
     pactBrokerPassword := None; pactBrokerToken := None;
     customProviderHeaders := None; consumerFilters := None;
     enablePending := None; includeWipPactsSince := None;
     providerVersionTags := None; providerVersionBranch := None;
     providerBranch := None; consumerVersionSelectors := None;
     consumerVersionTags := None; providerStatesSetupUrl := None;
     publishVerificationResult := None; providerVersion := None;
     buildUrl := None; disableSslVerification := None; timeout := None |}.

Definition with_customProviderHeaders (items : list string) : Options unit :=
  {| providerBaseUrl := "http://localhost:8080/"; provider := None;
     pactUrls := None;
     pactBrokerUrl := None; pactBrokerUsername := None;
     pactBrokerPassword := None; pactBrokerToken := None;
     customProviderHeaders := Some (HeaderArray items); consumerFilters := None;
     enablePending := None; includeWipPactsSince := None;
     providerVersionTags := None; providerVersionBranch := None;
     providerBranch := None; consumerVersionSelectors := None;
     consumerVersionTags := None; providerStatesSetupUrl := None;
     publishVerificationResult := None; providerVersion := None;
     buildUrl := None; disableSslVerification := None; timeout := None |}.

(** Pact sources, a provider name and broker credentials. *)
Definition with_sources (urls : option (list string))
  (brokerUrl username token : option string) : Options unit :=
  {| providerBaseUrl := "http://localhost:8080/"; provider := Some "P";
     pactUrls := urls;
     pactBrokerUrl := brokerUrl; pactBrokerUsername := username;
     pactBrokerPassword := None; pactBrokerToken := token;
     customProviderHeaders := None; consumerFilters := None;
     enablePending := None; includeWipPactsSince := None;
     providerVersionTags := None; providerVersionBranch := None;
     providerBranch := None; consumerVersionSelectors := None;
     consumerVersionTags := None; providerStatesSetupUrl := None;
     publishVerificationResult := None; providerVersion := None;
     buildUrl := None; disableSslVerification := None; timeout := None |}.

Definition with_publish (publish : option bool)
  (version versionBranch branch : option string) : Options unit :=
  {| providerBaseUrl := "http://localhost:8080/"; provider := Some "P";
     pactUrls := None;
     pactBrokerUrl := None; pactBrokerUsername := None;
     pactBrokerPassword := None; pactBrokerToken := None;
     customProviderHeaders := None; consumerFilters := None;
     enablePending := None; includeWipPactsSince := None;
     providerVersionTags := None; providerVersionBranch := versionBranch;
     providerBranch := branch; consumerVersionSelectors := None;
     consumerVersionTags := None; providerStatesSetupUrl := None;
     publishVerificationResult := publish; providerVersion := version;
     buildUrl := None; disableSslVerification := None; timeout := None |}.

Definition directory : Stats :=
  {| isDirectory := true; isFile := false; isSymbolicLink := false |}.
Definition regular_file : Stats :=
  {| isDirectory := false; isFile := true; isSymbolicLink := false |}.
Definition character_device : Stats :=
  {| isDirectory := false; isFile := false; isSymbolicLink := false |}.

(** What Node.js answers on the strings used below: [url.parse] gives the
    protocol of anything that starts with a scheme, lower-cased, and
    [null] for a path, and throws on [http://[::1], whose host it rejects;
    [new URL] leaves out a default port, also one that is written, gives
    an empty host to a URL whose scheme is not a special one and has no
    [//], and throws on [http://], which has no host. *)
Definition protocols : list (string * string) :=
  [ ("http://localhost:8080/", "http:");
    ("http://localhost/", "http:");
    ("http://localhost:80/", "http:");
    ("https://broker.example/pacts/latest", "https:");
    ("http://", "http:");
    ("xhttp:foo", "xhttp:") ].

Definition urls : list (string * URL) :=
  [ ("http://localhost:8080/",
     {| protocol := "http:"; hostname := "localhost"; port := "8080";
        pathname := "/" |});
    ("http://localhost/",
     {| protocol := "http:"; hostname := "localhost"; port := "";
        pathname := "/" |});
    ("http://localhost:80/",
     {| protocol := "http:"; hostname := "localhost"; port := "";
        pathname := "/" |});
    ("https://broker.example/pacts/latest",
     {| protocol := "https:"; hostname := "broker.example"; port := "";
        pathname := "/pacts/latest" |});
    ("xhttp:foo",
     {| protocol := "xhttp:"; hostname := ""; port := "";
        pathname := "foo" |}) ].

(** A file system with a directory, two regular files (one of them named
    like a URL) and a character device. *)
Definition files : list (string * Stats) :=
  [ ("./pacts", directory);
    ("./pacts/consumer-provider.json", regular_file);
    ("xhttp:foo", regular_file);
    ("/dev/null", character_device) ].

Definition node (env : list (string * string)) : Node :=
  {| process_env := property env;
     url_parse_protocol := fun s =>
       if (s =? "http://[::1")%string then Throw (TypeError "Invalid URL")
       else Normal (property protocols s);
     new_URL := property urls;
     fs_lstatSync := property files |}.

(** For the server factory: paths are already absolute and normal, the
    predicates of [check-types] are the arithmetic ones (a number that is
    not an integer being taken for a fraction), and [mkdirp] makes the
    path a directory. *)
Definition runtime : server.Runtime :=
  {| server.path_resolve := fun p => p;
     server.path_normalize := fun p => p;
     server.path_parse_dir := fun p => "/var/log";
     server.process_cwd := "/home/pact";
     server.checkTypes_number := fun n =>
       match n with NaN => false | _ => true end;
     server.checkTypes_integer := fun n =>
       match n with JsInt _ => true | _ => false end;
     server.checkTypes_positive := fun n =>
       match n with JsInt z => 0 <? z | JsNonInteger => true | NaN => false end;
     server.checkTypes_inRange := fun n lo hi =>
       match n with JsInt z => (lo <=? z) && (z <=? hi) | _ => false end;
     server.mkdirp_sync := fun fs path =>
       server.Made
         (fun p => if (p =? path)%string then Some directory else fs p) |}.

Definition file_system : server.FileSystem :=
  property [ ("/home/pact", directory);
             ("/etc/ssl/cert.pem", regular_file);
             ("/etc/ssl/key.pem", regular_file) ].

Definition server_options (ssl : option bool) (sslcert sslkey : option string)
  : server.ServerOptions :=
  {| server.port := Some (JsInt 1234); server.host := None;
     server.dir := None; server.ssl := ssl; server.sslcert := sslcert;
     server.sslkey := sslkey; server.cors := None; server.log := None;
     server.spec := None; server.consumer := None;
     server.provider := None |}.

End Sample.

(** ** Waiting for the mock service

    [waitForServerUp] and [waitForServerDown] poll the service: [check]
    runs once at the call and then each time a timer set by
    [setTimeout(check, CHECKTIME)] fires, never two at a time, so that the
    run is the sequence of its [check]s.  What a [check] sees of the world
    is whether [options.port] is set and what the request of [call] gets;
    both are given per attempt.  The state is the counter [amount], the
    deferred, and the timer that is pending, if one is. *)

Module polling.

(** What the request of [call(options)] ends with. *)
Inductive Response : Type :=
| RequestError
| StatusCode (code : Z).

(** [call] fulfils its promise when [!err && res.statusCode == 200]. *)
Definition call (response : Response) : bool :=
  match response with
  | RequestError => false
  | StatusCode code => code =? 200
  end.

Record World : Type := {
  (** [options.port] is truthy when attempt [n] runs *)
  port_known : Z -> bool;
  (** what the request of attempt [n] ends with *)
  response : Z -> Response
}.

(** The promise of a deferred; [resolve] and [reject] act on a pending one
    only. *)
Inductive Promise : Type :=
| Pending
| Fulfilled
| Rejected (reason : JsError).

Definition resolve (p : Promise) : Promise :=
  match p with
  | Pending => Fulfilled
  | _ => p
  end.

Definition reject (p : Promise) (reason : JsError) : Promise :=
  match p with
  | Pending => Rejected reason
  | _ => p
  end.

Record Poll : Type := {
  amount : Z;
  deferred : Promise;
  (** the delay of the pending [setTimeout(check, delay)] *)
  timer : option Z
}.

(** [var amount = 0, deferred = q.defer();] *)
Definition initial : Poll :=
  {| amount := 0; deferred := Pending; timer := None |}.

Section Checks.

Variable world : World.

(** [retry] of [waitForServerUp]: there is no [return] after the
    rejection. *)
Definition up_retry (st : Poll) : Poll :=
  let d :=
    if server.RETRY_AMOUNT <=? amount st
    then reject (deferred st)
           (Error "Pact startup failed; tried calling service 10 times with no result.")
    else deferred st in
  {| amount := amount st; deferred := d; timer := Some server.CHECKTIME |}.

(** [check] of [waitForServerUp]; the timer that called it is spent. *)
Definition up_check (st : Poll) : Poll :=
  let st := {| amount := amount st + 1; deferred := deferred st; timer := None |} in
  if port_known world (amount st) then
    if call (response world (amount st))
    then {| amount := amount st; deferred := resolve (deferred st); timer := None |}
    else up_retry st
  else up_retry st.

(** [check] of [waitForServerDown]. *)
Definition down_check (st : Poll) : Poll :=
  let st := {| amount := amount st + 1; deferred := deferred st; timer := None |} in
  if port_known world (amount st) then
    if call (response world (amount st)) then
      if server.RETRY_AMOUNT <=? amount st then
        {| amount := amount st;
           deferred :=
             reject (deferred st)
               (Error "Pact stop failed; tried calling service 10 times with no result.");
           timer := None |}
      else
        {| amount := amount st; deferred := deferred st;
           timer := Some server.CHECKTIME |}
    else
      {| amount := amount st; deferred := resolve (deferred st); timer := None |}
  else
    {| amount := amount st; deferred := resolve (deferred st); timer := None |}.

(** The timers that fire, at most [fired] of them: each calls [check]. *)
Fixpoint fire (check : Poll -> Poll) (fired : nat) (st : Poll) : Poll :=
  match fired with
  | O => st
  | S n =>
      match timer st with
      | Some _ => fire check n (check st)
      | None => st
      end
  end.

(** The state after the call and [fired] timers. *)
Definition waitForServerUp (fired : nat) : Poll :=
  fire up_check fired (up_check initial).

Definition waitForServerDown (fired : nat) : Poll :=
  fire down_check fired (down_check initial).

End Checks.

End polling.

(** ** Starting and stopping the mock service

    [Server.prototype.start] and [Server.prototype.stop], as far as they
    act at once: the calls on [child_process] and [process], in order, the
    child kept in [this._instance], and the promise they return, which is
    that of the wait with a timeout and a [tap] on it.  The listeners that
    [start] puts on the child run later, on its events, and are left out;
    [cp.spawn] is taken to return a child. *)

Module lifecycle.

(** The child process, as far as the methods read it. *)
Record ChildProcess : Type := {
  pid : Z;
  connected : bool
}.

(** The calls on the operating system.  [execSync command pid] runs the
    text [command] followed by [pid]. *)
Inductive SysCall : Type :=
| spawn (file : string) (args : list string) (cwd : string) (detached : bool)
    (env : list (string * string)) (windowsVerbatimArguments : bool)
| removeAllListeners (child : Z)
| execSync (command : string) (pid : Z)
| kill (pid : Z) (signal : string).

Inductive Wait : Type := waitForServerUp | waitForServerDown.

(** [wait(this._options).timeout(ms, message + pid).tap(...)]: the [tap]
    assigns [tap_running] to [this._running] and emits [tap_event] when
    the promise is fulfilled. *)
Record Promise : Type := {
  wait : Wait;
  timeout_ms : Z;
  timeout_message : string;
  timeout_pid : Z;
  tap_running : bool;
  tap_event : string
}.

(** What the methods read from the platform.  [createArguments] is
    [pactUtil.createArguments(this._options, names)], which is not among
    these sources and is taken as it comes; [cp_execSync] and
    [process_kill] give the error when the call throws. *)
Record Platform : Type := {
  isWindows : bool;
  process_env : list (string * string);
  pactPath_cwd : string;
  pactPath_file : string;
  createArguments : server.ServerOptions -> list string;
  cp_spawn : string -> list string -> ChildProcess;
  cp_execSync : string -> Z -> option JsError;
  process_kill : Z -> string -> option JsError
}.

(** The server object with its property [_instance], which the
    constructor does not set. *)
Record Instance : Type := {
  self : server.Server;
  _instance : option ChildProcess
}.

(** [start] returns nothing when a connected child is there; otherwise it
    spawns the service through the shell, detached except on Windows, and
    returns the promise of [waitForServerUp] under [PROCESS_TIMEOUT]. *)
Definition start (pf : Platform) (this : Instance)
  : option Promise * Instance * list SysCall :=
  if match _instance this with
     | Some child => connected child
     | None => false
     end
  then (None, this, [])
  else
    let envVars :=
      filter (fun variable => negb (fst variable =? "RUBYGEMS_GEMDEPS")%string)
        (process_env pf) in
    let args := createArguments pf (server._options (self this)) in
    let cmd := String.concat " " (pactPath_file pf :: args) in
    let '(file, args, verbatim) :=
      if isWindows pf then ("cmd.exe", ["/s"; "/c"; cmd], true)
      else ("/bin/sh", ["-c"; "./" ++ cmd], false) in
    let child := cp_spawn pf file args in
    (Some {| wait := waitForServerUp;
             timeout_ms := server.PROCESS_TIMEOUT;
             timeout_message := "Couldn't start Pact with PID: ";
             timeout_pid := pid child;
             tap_running := true;
             tap_event := server.START_EVENT (self this) |},
     {| self := self this; _instance := Some child |},
     [spawn file args (pactPath_cwd pf) (negb (isWindows pf)) envVars verbatim]).

(** [stop] signals the child when there is one: on Windows with
    [taskkill /f /t /pid], elsewhere with [process.kill(-pid, 'SIGINT')],
    the negative number naming the process group.  When that call throws,
    so does [stop], before it forgets the child.  Otherwise it returns the
    promise of [waitForServerDown] under [PROCESS_TIMEOUT]. *)
Definition stop (pf : Platform) (this : Instance)
  : Completion Promise * Instance * list SysCall :=
  let down (pid : Z) :=
    {| wait := waitForServerDown;
       timeout_ms := server.PROCESS_TIMEOUT;
       timeout_message := "Couldn't stop Pact with PID: ";
       timeout_pid := pid;
       tap_running := false;
       tap_event := server.STOP_EVENT (self this) |} in
  match _instance this with
  | Some child =>
      let pid := pid child in
      let '(signal, thrown) :=
        if isWindows pf
        then (execSync "taskkill /f /t /pid " pid,
              cp_execSync pf "taskkill /f /t /pid " pid)
        else (kill (- pid) "SIGINT", process_kill pf (- pid) "SIGINT") in
      match thrown with
      | Some e => (Throw e, this, [removeAllListeners pid; signal])
      | None =>
          (Normal (down pid),
           {| self := self this; _instance := None |},
           [removeAllListeners pid; signal])
      end
  | None => (Normal (down (-1)), this, [])
  end.

End lifecycle.

(** ** Vocabulary of the further statements *)

(** The session a native call is made on. *)
Definition handle_of (c : Ffi.Call) : FfiHandle :=
  match c with
  | Ffi.pactffiVerifierAddCustomHeader h _ _
  | Ffi.pactffiVerifierAddDirectorySource h _
  | Ffi.pactffiVerifierAddFileSource h _
  | Ffi.pactffiVerifierUrlSource h _ _ _ _
  | Ffi.pactffiVerifierBrokerSourceWithSelectors h _ _ _ _ _ _ _ _ _ _
  | Ffi.pactffiVerifierSetConsumerFilters h _
  | Ffi.pactffiVerifierSetFilterInfo h _ _ _
  | Ffi.pactffiVerifierSetProviderInfo h _ _ _ _ _
  | Ffi.pactffiVerifierSetProviderState h _ _ _
  | Ffi.pactffiVerifierSetPublishOptions h _ _ _ _
  | Ffi.pactffiVerifierSetVerificationOptions h _ _ => h
  end.

(** The location of a call that adds a pact source. *)
Definition source_location (c : Ffi.Call) : option string :=
  match c with
  | Ffi.pactffiVerifierAddDirectorySource _ file
  | Ffi.pactffiVerifierAddFileSource _ file
  | Ffi.pactffiVerifierUrlSource _ file _ _ _ => Some file
  | _ => None
  end.

(** [url.parse] returns on the location. *)
Definition parses (node : Node) (file : string) : Prop :=
  exists parsed, url_parse_protocol node file = Normal parsed.

(** What one pact location alone gives: its native calls and its
    messages; nothing when [url.parse] throws on it. *)
Definition location_calls {Selector : Type} (node : Node) (handle : FfiHandle)
  (options : Options Selector) (file : string) : list Ffi.Call :=
  snd (ffiFnMapping.addPactUrl node handle options file [] []).

Definition location_messages {Selector : Type} (node : Node)
  (handle : FfiHandle) (options : Options Selector) (file : string)
  : list string :=
  match fst (ffiFnMapping.addPactUrl node handle options file [] []) with
  | Normal messages => messages
  | Throw _ => []
  end.

(** Attempt [n] of a poll finds the service: [options.port] is known and
    the request is answered with status 200. *)
Definition answers (world : polling.World) (n : Z) : bool :=
  polling.port_known world n && polling.call (polling.response world n).

(** [waitForServerUp] after [j] attempts that did not find the service. *)
Definition up_failed (j : nat) : polling.Poll :=
  {| polling.amount := Z.of_nat j;
     polling.deferred :=
       if server.RETRY_AMOUNT <=? Z.of_nat j
       then polling.Rejected
              (Error "Pact startup failed; tried calling service 10 times with no result.")
       else polling.Pending;
     polling.timer := Some server.CHECKTIME |}.

(** [waitForServerDown] after [j] attempts that all found the service,
    [j < 60]. *)
Definition down_waiting (j : nat) : polling.Poll :=
  {| polling.amount := Z.of_nat j; polling.deferred := polling.Pending;
     polling.timer := Some server.CHECKTIME |}.

(** What holds of [waitForServerDown] between two attempts. *)
Definition down_invariant (checks : Z) (st : polling.Poll) : Prop :=
  1 <= polling.amount st <= 60 /\
  match polling.timer st with
  | Some delay =>
      delay = 500 /\ polling.amount st = checks /\ polling.amount st < 60 /\
      polling.deferred st = polling.Pending
  | None => polling.deferred st <> polling.Pending
  end.

(** The nine descriptors, by the name of their key. *)
Definition descriptor {Selector : Type} (JSON_stringify : Selector -> string)
  (node : Node) (name : string) (handle : FfiHandle)
  (options : Options Selector) : option (Exec Ffi.Log FnValidationResult) :=
  if (name =? "pactffiVerifierAddCustomHeader")%string then
    Some (ffiFnMapping.pactffiVerifierAddCustomHeader handle options)
  else if (name =? "pactffiVerifierAddDirectorySource")%string then
    Some (ffiFnMapping.pactffiVerifierAddDirectorySource node handle options)
  else if (name =? "pactffiVerifierBrokerSourceWithSelectors")%string then
    Some (ffiFnMapping.pactffiVerifierBrokerSourceWithSelectors
            JSON_stringify node handle options)
  else if (name =? "pactffiVerifierSetConsumerFilters")%string then
    Some (ffiFnMapping.pactffiVerifierSetConsumerFilters handle options)
  else if (name =? "pactffiVerifierSetFilterInfo")%string then
    Some (ffiFnMapping.pactffiVerifierSetFilterInfo node handle)
  else if (name =? "pactffiVerifierSetProviderInfo")%string then
    Some (ffiFnMapping.pactffiVerifierSetProviderInfo node handle options)
  else if (name =? "pactffiVerifierSetProviderState")%string then
    Some (ffiFnMapping.pactffiVerifierSetProviderState handle options)
  else if (name =? "pactffiVerifierSetPublishOptions")%string then
    Some (ffiFnMapping.pactffiVerifierSetPublishOptions node handle options)
  else if (name =? "pactffiVerifierSetVerificationOptions")%string then
    Some (ffiFnMapping.pactffiVerifierSetVerificationOptions handle options)
  else None.

(** More sample inputs. *)
Module Sample2.

Definition with_filters_and_timeout (filters : option (list string))
  (disableSsl : option bool) (timeout : option JsNumber) : Options unit :=
  {| providerBaseUrl := "http://localhost:8080/"; provider := Some "P";
     pactUrls := None;
     pactBrokerUrl := None; pactBrokerUsername := None;
     pactBrokerPassword := None; pactBrokerToken := None;
     customProviderHeaders := None; consumerFilters := filters;
     enablePending := None; includeWipPactsSince := None;
     providerVersionTags := None; providerVersionBranch := None;
     providerBranch := None; consumerVersionSelectors := None;
     consumerVersionTags := None; providerStatesSetupUrl := None;
     publishVerificationResult := None; providerVersion := None;
     buildUrl := None; disableSslVerification := disableSsl;
     timeout := timeout |}.

Definition with_header_object (entries : list (string * string)) : Options unit :=
  {| providerBaseUrl := "http://localhost:8080/"; provider := None;
     pactUrls := None;
     pactBrokerUrl := None; pactBrokerUsername := None;
     pactBrokerPassword := None; pactBrokerToken := None;
     customProviderHeaders := Some (HeaderObject entries);
     consumerFilters := None;
     enablePending := None; includeWipPactsSince := None;
     providerVersionTags := None; providerVersionBranch := None;
     providerBranch := None; consumerVersionSelectors := None;
     consumerVersionTags := None; providerStatesSetupUrl := None;
     publishVerificationResult := None; providerVersion := None;
     buildUrl := None; disableSslVerification := None; timeout := None |}.

(** A broker, a provider version to publish, tags and a legacy branch. *)
Definition with_broker_and_publish : Options unit :=
  {| providerBaseUrl := "http://localhost:8080/"; provider := Some "P";
     pactUrls := None;
     pactBrokerUrl := Some "https://broker.example"; pactBrokerUsername := None;
     pactBrokerPassword := None; pactBrokerToken := None;
     customProviderHeaders := None; consumerFilters := None;
     enablePending := None; includeWipPactsSince := None;
     providerVersionTags := Some ["prod"]; providerVersionBranch := None;
     providerBranch := Some "main"; consumerVersionSelectors := Some [tt; tt];
     consumerVersionTags := None; providerStatesSetupUrl := None;
     publishVerificationResult := Some true; providerVersion := Some "1.0.0";
     buildUrl := None; disableSslVerification := None; timeout := None |}.

(** A service that answers 200 from the third attempt on, one that never
    answers, and one that always does. *)
Definition up_at_third : polling.World :=
  {| polling.port_known := fun _ => true;
     polling.response := fun n =>
       if n <? 3 then polling.RequestError else polling.StatusCode 200 |}.

Definition never_up : polling.World :=
  {| polling.port_known := fun _ => true;
     polling.response := fun _ => polling.StatusCode 503 |}.

Definition always_up : polling.World :=
  {| polling.port_known := fun _ => true;
     polling.response := fun _ => polling.StatusCode 200 |}.

(** A runtime whose [mkdirp.sync] makes the parent [/tmp/pacts] and then
    fails, as it does on a last component that is too long a name. *)
Definition runtime_failing : server.Runtime :=
  {| server.path_resolve := fun p => p;
     server.path_normalize := fun p => p;
     server.path_parse_dir := fun p => "/var/log";
     server.process_cwd := "/home/pact";
     server.checkTypes_number := server.checkTypes_number Sample.runtime;
     server.checkTypes_integer := server.checkTypes_integer Sample.runtime;
     server.checkTypes_positive := server.checkTypes_positive Sample.runtime;
     server.checkTypes_inRange := server.checkTypes_inRange Sample.runtime;
     server.mkdirp_sync := fun fs path =>
       server.MkdirpError "ENAMETOOLONG: name too long"
         (fun p => if (p =? "/tmp/pacts")%string then Some Sample.directory
                   else fs p) |}.

(** Options with a certificate, a key, a directory and a log file, and a
    file system that holds them and the directory of the log file. *)
Definition logging_options : server.ServerOptions :=
  {| server.port := Some (JsInt 1234); server.host := None;
     server.dir := Some "/home/pact"; server.ssl := None;
     server.sslcert := Some "/etc/ssl/cert.pem";
     server.sslkey := Some "/etc/ssl/key.pem"; server.cors := None;
     server.log := Some "/var/log/pact.log";
     server.spec := None; server.consumer := None;
     server.provider := None |}.

Definition file_system_with_log : server.FileSystem :=
  property [ ("/home/pact", Sample.directory);
             ("/var/log", Sample.directory);
             ("/etc/ssl/cert.pem", Sample.regular_file);
             ("/etc/ssl/key.pem", Sample.regular_file) ].

(** A platform that is not Windows, and a server whose child runs. *)
Definition platform : lifecycle.Platform :=
  {| lifecycle.isWindows := false;
     lifecycle.process_env :=
       [ ("PATH", "/usr/bin"); ("RUBYGEMS_GEMDEPS", "-") ];
     lifecycle.pactPath_cwd := "/opt/pact";
     lifecycle.pactPath_file := "bin/pact-mock-service";
     lifecycle.createArguments := fun _ => ["--port"; "1234"];
     lifecycle.cp_spawn := fun _ _ =>
       {| lifecycle.pid := 4321; lifecycle.connected := false |};
     lifecycle.cp_execSync := fun _ _ => None;
     lifecycle.process_kill := fun _ _ => None |}.

Definition constructed : lifecycle.Instance :=
  {| lifecycle.self := construct (Sample.server_options None None None);
     lifecycle._instance := None |}.

Definition started : lifecycle.Instance :=
  {| lifecycle.self := construct (Sample.server_options None None None);
     lifecycle._instance :=
       Some {| lifecycle.pid := 4321; lifecycle.connected := false |} |}.

(** Server options with a host and a directory. *)
Definition server_options_in (host dir : option string) (port : option JsNumber)
  : server.ServerOptions :=
  {| server.port := port; server.host := host;
     server.dir := dir; server.ssl := None; server.sslcert := None;
     server.sslkey := None; server.cors := None; server.log := None;
     server.spec := None; server.consumer := None;
     server.provider := None |}.

End Sample2.

(** * Properties *)

Unset Implicit Arguments.

(** ** The order of execution *)

Lemma runs_before_irreflexive (a : string) : ~ runs_before a a.
Proof.
  intros (i & j & Hi & Hj & Hlt).
  rewrite Hi in Hj. injection Hj as ->. lia.
Qed.

Lemma runs_before_transitive (a b c : string) :
  runs_before a b -> runs_before b c -> runs_before a c.
Proof.
  intros (i & j & Hi & Hj & Hij) (j' & k & Hj' & Hk & Hjk).
  rewrite Hj in Hj'. injection Hj' as <-.
  exists i, k. repeat split; trivial. lia.
Qed.

Ltac pick_key H :=
  simpl in H;
  repeat (destruct H as [H | H]; [symmetry in H | ]);
  try contradiction.

Lemma runs_before_total (a b : string) :
  In a (keys orderOfExecution) -> In b (keys orderOfExecution) ->
  a <> b -> runs_before a b \/ runs_before b a.
Proof.
  intros Ha Hb Hab.
  assert (Hord : forall k, In k (keys orderOfExecution) ->
                   exists i, property orderOfExecution k = Some i /\
                             nth_error (keys orderOfExecution) (Z.to_nat (i - 1)) = Some k).
  { intros k Hk. pick_key Hk; subst k; eexists; split; reflexivity. }
  destruct (Hord a Ha) as (i & Hi & Hia), (Hord b Hb) as (j & Hj & Hjb).
  destruct (Z.lt_trichotomy i j) as [Hlt | [Heq | Hgt]].
  - left. exists i, j. auto.
  - subst j. rewrite Hia in Hjb. congruence.
  - right. exists j, i. auto.
Qed.

(** C1. The nine descriptor names carry the numbers 1 to 9 in the sequence
    provider info, filter info, provider state, verification options,
    publish options, consumer filters, custom header, directory source,
    broker source with selectors: the numbers are positive and strictly
    increasing along that sequence, so no two names tie; "runs before" is a
    strict total order on the nine names; and the two merged calls (file
    source, URL source) have no order of their own. *)
Theorem orderOfExecution_strict_total :
  keys orderOfExecution =
    [ "pactffiVerifierSetProviderInfo"; "pactffiVerifierSetFilterInfo";
      "pactffiVerifierSetProviderState"; "pactffiVerifierSetVerificationOptions";
      "pactffiVerifierSetPublishOptions"; "pactffiVerifierSetConsumerFilters";
      "pactffiVerifierAddCustomHeader"; "pactffiVerifierAddDirectorySource";
      "pactffiVerifierBrokerSourceWithSelectors" ] /\
  StronglySorted Z.lt (map snd orderOfExecution) /\
  Forall (fun order => 0 < order) (map snd orderOfExecution) /\
  NoDup (map snd orderOfExecution) /\
  NoDup (keys orderOfExecution) /\
  (forall a, ~ runs_before a a) /\
  (forall a b c, runs_before a b -> runs_before b c -> runs_before a c) /\
  (forall a b, In a (keys orderOfExecution) -> In b (keys orderOfExecution) ->
               a <> b -> runs_before a b \/ runs_before b a) /\
  (forall m, In m MergedFfiSourceFunctions ->
             property orderOfExecution m = None /\
             ~ In m (keys orderOfExecution)).
Proof.
  assert (Hsorted : StronglySorted Z.lt (map snd orderOfExecution)).
  { simpl. repeat (constructor; [ | repeat (constructor; try reflexivity) ]).
    constructor. }
  assert (Hnodup : forall l, StronglySorted Z.lt l -> NoDup l).
  { induction 1 as [ | x l Hl IH Hx]; constructor; trivial.
    intros Hin. rewrite Forall_forall in Hx. specialize (Hx x Hin). lia. }
  split; [reflexivity | ].
  split; [exact Hsorted | ].
  split; [simpl; repeat constructor | ].
  split; [apply Hnodup, Hsorted | ].
  split.
  { simpl. repeat (constructor; [simpl; intuition discriminate | ]). constructor. }
  split; [exact runs_before_irreflexive | ].
  split; [exact runs_before_transitive | ].
  split; [exact runs_before_total | ].
  intros m Hm. simpl in Hm.
  destruct Hm as [<- | [<- | []]]; (split; [reflexivity | simpl; intuition discriminate]).
Qed.

Lemma orderOfExecution_strict_total_witness :
  runs_before "pactffiVerifierSetProviderInfo" "pactffiVerifierAddCustomHeader" \/
  runs_before "pactffiVerifierAddCustomHeader" "pactffiVerifierSetProviderInfo".
Proof.
  destruct orderOfExecution_strict_total
    as (_ & _ & _ & _ & _ & _ & _ & Htotal & _).
  apply Htotal.
  - simpl. tauto.
  - simpl. tauto.
  - discriminate.
Defined.

(** ** Splitting a string *)

Lemma split_length (c : ascii) (s : string) :
  length (split c s) = S (count_char c s).
Proof.
  induction s as [ | d t IH]; simpl; trivial.
  destruct (Ascii.eqb d c); simpl.
  - now rewrite IH.
  - destruct (split c t); simpl in *; congruence.
Qed.

Lemma split_without (c : ascii) (s : string) :
  count_char c s = 0%nat -> split c s = [s].
Proof.
  induction s as [ | d t IH]; simpl; trivial.
  destruct (Ascii.eqb d c); simpl; [discriminate | ].
  intros H. now rewrite (IH H).
Qed.

Lemma split_app (c : ascii) (a b : string) :
  count_char c a = 0%nat -> split c (a ++ String c b) = a :: split c b.
Proof.
  induction a as [ | d t IH]; simpl.
  - intros _. now rewrite Ascii.eqb_refl.
  - destruct (Ascii.eqb d c); simpl; [discriminate | ].
    intros H. now rewrite (IH H).
Qed.

Lemma count_char_one (c : ascii) (s : string) :
  count_char c s = 1%nat ->
  exists a b, s = a ++ String c b /\
              count_char c a = 0%nat /\ count_char c b = 0%nat.
Proof.
  induction s as [ | d t IH]; simpl; [discriminate | ].
  destruct (Ascii.eqb d c) eqn:E; simpl.
  - apply Ascii.eqb_eq in E. subst d. intros H.
    exists "", t. repeat split; trivial. congruence.
  - intros H. destruct (IH H) as (a & b & -> & Ha & Hb).
    exists (String d a), b. simpl. rewrite E. auto.
Qed.

(** ** Loops over the log of native calls *)

(** A loop whose callback completes normally and only appends calls that
    satisfy [P] does the same. *)
Lemma forEach_appends {A M : Type} (P : Ffi.Call -> Prop)
  (callback : A -> M -> Exec Ffi.Log M) :
  (forall item acc log, exists acc' added,
      callback item acc log = (Normal acc', (log ++ added)%list) /\
      Forall P added) ->
  forall items acc log, exists acc' added,
    forEach callback items acc log = (Normal acc', (log ++ added)%list) /\
    Forall P added.
Proof.
  intros Hcb items.
  induction items as [ | item rest IH]; intros acc log; simpl.
  - exists acc, []. rewrite app_nil_r. split; [reflexivity | constructor].
  - unfold bind.
    destruct (Hcb item acc log) as (acc1 & added1 & -> & H1).
    destruct (IH acc1 (log ++ added1)%list) as (acc2 & added2 & -> & H2).
    exists acc2, (added1 ++ added2)%list.
    rewrite app_assoc. split; [reflexivity | ].
    apply Forall_app; auto.
Qed.

(** ** Custom headers *)

Lemma addCustomHeaderItem_appends (handle : FfiHandle) (item : string)
  (messages : list string) (log : Ffi.Log) :
  exists messages' added,
    ffiFnMapping.addCustomHeaderItem handle item messages log =
      (Normal messages', (log ++ added)%list) /\
    Forall (fun _ => True) added.
Proof.
  unfold ffiFnMapping.addCustomHeaderItem.
  destruct (negb _).
  - eexists _, []. rewrite app_nil_r. split; [reflexivity | constructor].
  - eexists _, [_]. split; [reflexivity | repeat constructor].
Qed.

Lemma addCustomHeaderEntry_appends (handle : FfiHandle)
  (entry : string * string) (messages : list string) (log : Ffi.Log) :
  exists messages' added,
    ffiFnMapping.addCustomHeaderEntry handle entry messages log =
      (Normal messages', (log ++ added)%list) /\
    Forall (fun _ => True) added.
Proof.
  destruct entry as [key value].
  eexists _, [_]. split; [reflexivity | repeat constructor].
Qed.

(** The loop over an array of headers issues the calls of the well-formed
    entries, in order, and collects the messages of the others, in order:
    an entry that is malformed does not keep the later ones from being
    handled. *)
Lemma forEach_addCustomHeaderItem (handle : FfiHandle) (items : list string) :
  forall (messages : list string) (log : Ffi.Log),
    forEach (ffiFnMapping.addCustomHeaderItem handle) items messages log =
      (Normal
         (messages ++
          map header_message
            (filter (fun item => negb (well_formed_header item)) items))%list,
       (log ++ map (header_call handle) (filter well_formed_header items))%list).
Proof.
  induction items as [ | item rest IH]; intros messages log; simpl.
  - now rewrite !app_nil_r.
  - unfold bind, ffiFnMapping.addCustomHeaderItem at 1.
    fold (well_formed_header item).
    destruct (well_formed_header item); simpl.
    + rewrite IH. now rewrite <- app_assoc.
    + rewrite IH. unfold push. now rewrite <- app_assoc.
Qed.

(** The array form fails exactly when some entry is malformed. *)
Lemma addCustomHeader_array_status {Selector : Type} (handle : FfiHandle)
  (options : Options Selector) (items : list string) (log : Ffi.Log) :
  customProviderHeaders options = Some (HeaderArray items) ->
  ffiFnMapping.pactffiVerifierAddCustomHeader handle options log =
    (Normal
       {| status := if forallb well_formed_header items then SUCCESS else FAIL;
          messages := None |},
     (log ++ map (header_call handle) (filter well_formed_header items))%list).
Proof.
  intros Hheaders. unfold ffiFnMapping.pactffiVerifierAddCustomHeader.
  rewrite Hheaders. unfold bind. rewrite forEach_addCustomHeaderItem.
  rewrite app_nil_l, length_map.
  replace (0 <? length (filter (fun item => negb (well_formed_header item)) items))%nat
    with (negb (forallb well_formed_header items)).
  - now destruct (forallb well_formed_header items).
  - clear Hheaders.
    induction items as [ | item rest IH]; simpl; trivial.
    destruct (well_formed_header item); simpl; trivial.
Qed.

(** Whatever the headers, the object the descriptor returns has no
    [messages]. *)
Lemma addCustomHeader_returns_no_messages {Selector : Type}
  (handle : FfiHandle) (options : Options Selector) (log : Ffi.Log) :
  exists r log',
    ffiFnMapping.pactffiVerifierAddCustomHeader handle options log =
      (Normal r, log') /\
    messages r = None.
Proof.
  unfold ffiFnMapping.pactffiVerifierAddCustomHeader.
  destruct (customProviderHeaders options) as [[items | entries] | ].
  - unfold bind.
    destruct (@forEach_appends _ _ (fun _ => True) _
                (addCustomHeaderItem_appends handle) items [] log)
      as (msgs & added & -> & _).
    destruct (0 <? length msgs)%nat; eexists _, _; split; reflexivity.
  - unfold bind.
    destruct (@forEach_appends _ _ (fun _ => True) _
                (addCustomHeaderEntry_appends handle) entries [] log)
      as (msgs & added & -> & _).
    destruct (0 <? length msgs)%nat; eexists _, _; split; reflexivity.
  - eexists _, _; split; reflexivity.
Qed.

(** C2. On [customProviderHeaders: ["X-Test: 1", "BadHeader"]] the loop
    collects one message, which names the malformed entry, and issues the
    native call of the well-formed entry only; but the object the
    descriptor returns is [{ status: FAIL }], without the message: the
    outcome carries no message for the malformed entry. *)
Theorem addCustomHeader_fail_drops_messages :
  forEach (ffiFnMapping.addCustomHeaderItem Sample.handle)
    ["X-Test: 1"; "BadHeader"] [] [] =
    (Normal ["BadHeader is not a valid custom header. Must be in the format 'Header-Name: Value'"],
     [Ffi.pactffiVerifierAddCustomHeader Sample.handle "X-Test" " 1"]) /\
  ffiFnMapping.pactffiVerifierAddCustomHeader Sample.handle
    (Sample.with_customProviderHeaders ["X-Test: 1"; "BadHeader"]) [] =
    (Normal {| status := FAIL; messages := None |},
     [Ffi.pactffiVerifierAddCustomHeader Sample.handle "X-Test" " 1"]).
Proof.
  split; reflexivity.
Qed.

(** C3, as the code has it.  An entry is split on every colon.  With
    exactly one colon, [name:value], it is well-formed and gives exactly one
    native call, with the text before the colon as the name and the text
    after it, untrimmed, as the value.  With no colon, or with more than
    one, it is malformed: no call is issued and one message is collected. *)
Theorem custom_header_entry_one_colon (handle : FfiHandle) (item : string)
  (messages : list string) (log : Ffi.Log) :
  (forall name value,
      item = name ++ ":" ++ value ->
      count_char ":" name = 0%nat -> count_char ":" value = 0%nat ->
      ffiFnMapping.addCustomHeaderItem handle item messages log =
        (Normal messages,
         (log ++ [Ffi.pactffiVerifierAddCustomHeader handle name value])%list)) /\
  (count_char ":" item = 1%nat ->
      exists name value,
        item = name ++ ":" ++ value /\
        count_char ":" name = 0%nat /\ count_char ":" value = 0%nat) /\
  (count_char ":" item <> 1%nat ->
      ffiFnMapping.addCustomHeaderItem handle item messages log =
        (Normal
           (push messages
              (item ++ " is not a valid custom header. Must be in the format 'Header-Name: Value'")),
         log)).
Proof.
  split; [ | split].
  - intros name value -> Hname Hvalue.
    unfold ffiFnMapping.addCustomHeaderItem.
    change (":" ++ value) with (String ":" value).
    rewrite (split_app _ _ _ Hname), (split_without _ _ Hvalue).
    reflexivity.
  - intros H. destruct (count_char_one _ _ H) as (a & b & -> & Ha & Hb).
    exists a, b. auto.
  - intros H. unfold ffiFnMapping.addCustomHeaderItem.
    rewrite split_length.
    destruct (S (count_char ":" item) =? 2)%nat eqn:E.
    + apply Nat.eqb_eq in E. lia.
    + reflexivity.
Qed.

Lemma custom_header_entry_one_colon_witness :
  ffiFnMapping.addCustomHeaderItem Sample.handle "X-Test: 1" [] [] =
    (Normal [], [Ffi.pactffiVerifierAddCustomHeader Sample.handle "X-Test" " 1"]) /\
  ffiFnMapping.addCustomHeaderItem Sample.handle "BadHeader" [] [] =
    (Normal ["BadHeader is not a valid custom header. Must be in the format 'Header-Name: Value'"],
     []).
Proof.
  destruct (custom_header_entry_one_colon Sample.handle "X-Test: 1" [] [])
    as (Hone & _ & _).
  destruct (custom_header_entry_one_colon Sample.handle "BadHeader" [] [])
    as (_ & _ & Hnone).
  split.
  - apply (Hone "X-Test" " 1"); reflexivity.
  - apply Hnone. simpl. discriminate.
Defined.

(** C3, as stated, fails: the value of ["X-Link: http://x"] contains a
    colon, the entry has three parts, and instead of the native call with
    name [X-Link] and value [ http://x] the descriptor issues no call and
    fails. *)
Lemma custom_header_colon_in_value_rejected :
  split ":" "X-Link: http://x" = ["X-Link"; " http"; "//x"] /\
  ffiFnMapping.pactffiVerifierAddCustomHeader Sample.handle
    (Sample.with_customProviderHeaders ["X-Link: http://x"]) [] =
    (Normal {| status := FAIL; messages := None |}, []) /\
  snd (ffiFnMapping.pactffiVerifierAddCustomHeader Sample.handle
         (Sample.with_customProviderHeaders ["X-Link: http://x"]) []) <>
    [Ffi.pactffiVerifierAddCustomHeader Sample.handle "X-Link" " http://x"].
Proof.
  repeat split; try reflexivity. discriminate.
Qed.

(** ** Truthiness and fall-back *)

Lemma truthy_string_is_set (v : option string) :
  truthy_string v = true <-> is_set v.
Proof.
  destruct v as [s | ]; simpl.
  - destruct (String.eqb_spec s ""); simpl; split.
    + discriminate.
    + intros (s' & [= <-] & Hs). contradiction.
    + intros _. exists s. auto.
    + trivial.
  - split; [discriminate | ]. intros (s & [=] & _).
Qed.

Lemma not_truthy_string (v : option string) :
  truthy_string v = false <-> ~ is_set v.
Proof.
  rewrite <- truthy_string_is_set. destruct (truthy_string v); intuition congruence.
Qed.

(** [a || b || ''] follows the precedence [a], [b], empty. *)
Lemma or_chain_falls_back (a b : option string) :
  falls_back a b (or_default (or_string a b) "").
Proof.
  unfold falls_back, or_string. repeat split.
  - intros s -> Hs. simpl. destruct (String.eqb_spec s ""); [contradiction | ].
    simpl. destruct (String.eqb_spec s ""); [contradiction | reflexivity].
  - intros Ha s -> Hs. apply not_truthy_string in Ha. rewrite Ha. simpl.
    destruct (String.eqb_spec s ""); [contradiction | reflexivity].
  - intros Ha Hb. apply not_truthy_string in Ha. rewrite Ha.
    apply not_truthy_string in Hb.
    destruct b as [s | ]; simpl in *; trivial.
    destruct (s =? "")%string; [trivial | discriminate].
Qed.

(** ** Pact sources *)

(** The pattern [/https?:/] finds [http:] or [https:] somewhere. *)
Lemma prefix_app (p s : string) :
  String.prefix p s = true <-> exists rest, s = p ++ rest.
Proof.
  revert s. induction p as [ | c p IH]; intros s; simpl.
  - split; [intros _; now exists s | intros _; now destruct s].
  - destruct s as [ | d s]; simpl;
      [split; [discriminate | intros (r & [=])] | ].
    destruct (ascii_dec c d) as [<- | Hcd].
    + rewrite IH. split; intros (r & Hr); exists r; congruence.
    + split; [discriminate | ]. intros (r & [= -> _]). contradiction.
Qed.

Lemma regex_https_test_finds (s : string) :
  regex_https_test s = true <->
  exists before after,
    s = before ++ "http:" ++ after \/ s = before ++ "https:" ++ after.
Proof.
  induction s as [ | c s IH].
  - simpl. split; [discriminate | ].
    intros (before & after & [H | H]); destruct before; discriminate.
  - change (regex_https_test (String c s))
      with (String.prefix "http:" (String c s)
            || String.prefix "https:" (String c s) || regex_https_test s).
    rewrite !orb_true_iff, !prefix_app, IH. split.
    + intros [[(r & Hr) | (r & Hr)] | (b & a & H)].
      * exists "", r. left. exact Hr.
      * exists "", r. right. exact Hr.
      * exists (String c b), a. simpl. destruct H as [-> | ->]; auto.
    + intros (b & a & H). destruct b as [ | d b].
      * left. destruct H as [H | H]; [left | right]; exists a; exact H.
      * right. exists b, a. simpl in H.
        destruct H as [[= _ ->] | [= _ ->]]; auto.
Qed.

(** C4, as the code has it.  [url.parse] reads the location first, outside
    both [try] blocks: when it throws, the callback throws its error, and
    nothing is issued or reported for the location.  Otherwise the protocol
    it finds is put to the test [/https?:/].  When the test succeeds the
    location is handled as a URL only, whatever the file system holds under
    that name: with a host that is not empty it becomes a URL source, with
    an empty host nothing is issued, and when [new URL] rejects it, it is
    reported as not a valid URL.  When the test fails the location is
    classified by [lstatSync]: a directory becomes a directory source, a
    regular file or a symbolic link a file source, anything else that
    exists gives nothing, and a path that cannot be probed is reported. *)
Theorem pact_url_scheme_test_first {Selector : Type} (node : Node)
  (handle : FfiHandle) (options : Options Selector) (file : string)
  (messages : list string) (log : Ffi.Log) :
  (forall e, url_parse_protocol node file = Throw e ->
     ffiFnMapping.addPactUrl node handle options file messages log =
       (Throw e, log)) /\
  (forall parsed, url_parse_protocol node file = Normal parsed ->
     (regex_https_test (or_default parsed "") = true ->
        (forall lstat,
           ffiFnMapping.addPactUrl
             {| process_env := process_env node;
                url_parse_protocol := url_parse_protocol node;
                new_URL := new_URL node;
                fs_lstatSync := lstat |} handle options file messages log =
           ffiFnMapping.addPactUrl node handle options file messages log) /\
        (forall u, new_URL node file = Some u -> hostname u <> "" ->
           exists username password token,
             ffiFnMapping.addPactUrl node handle options file messages log =
               (Normal messages,
                (log ++ [Ffi.pactffiVerifierUrlSource handle file
                           username password token])%list)) /\
        (forall u, new_URL node file = Some u -> hostname u = "" ->
           ffiFnMapping.addPactUrl node handle options file messages log =
             (Normal messages, log)) /\
        (new_URL node file = None ->
           ffiFnMapping.addPactUrl node handle options file messages log =
             (Normal (push messages (file ++ " is not a valid URL")), log))) /\
     (regex_https_test (or_default parsed "") = false ->
        (forall f, fs_lstatSync node file = Some f -> isDirectory f = true ->
           ffiFnMapping.addPactUrl node handle options file messages log =
             (Normal messages,
              (log ++ [Ffi.pactffiVerifierAddDirectorySource handle file])%list)) /\
        (forall f, fs_lstatSync node file = Some f -> isDirectory f = false ->
           isFile f = true \/ isSymbolicLink f = true ->
           ffiFnMapping.addPactUrl node handle options file messages log =
             (Normal messages,
              (log ++ [Ffi.pactffiVerifierAddFileSource handle file])%list)) /\
        (forall f, fs_lstatSync node file = Some f -> isDirectory f = false ->
           isFile f = false -> isSymbolicLink f = false ->
           ffiFnMapping.addPactUrl node handle options file messages log =
             (Normal messages, log)) /\
        (fs_lstatSync node file = None ->
           ffiFnMapping.addPactUrl node handle options file messages log =
             (Normal
                (push messages
                   ("'" ++ file ++ "' does not exist, or is not a file or directory")),
              log)))).
Proof.
  unfold ffiFnMapping.addPactUrl, ffiFnMapping.url_parse, bind.
  cbn [url_parse_protocol new_URL fs_lstatSync process_env].
  split.
  - now intros e ->.
  - intros parsed ->. split; intros Htest; rewrite Htest.
    + split; [ | split; [ | split]].
      * reflexivity.
      * intros u -> Hhost. simpl.
        destruct (String.eqb_spec (hostname u) ""); [contradiction | ].
        simpl. eexists _, _, _. reflexivity.
      * now intros u -> ->.
      * now intros ->.
    + split; [ | split; [ | split]].
      * now intros f -> ->.
      * intros f -> -> Hfile.
        replace (isFile f || isSymbolicLink f) with true; [reflexivity | ].
        symmetry. apply orb_true_iff. exact Hfile.
      * now intros f -> -> -> ->.
      * now intros ->.
Qed.

Lemma pact_url_scheme_test_first_witness :
  (exists username password token,
     ffiFnMapping.addPactUrl (Sample.node []) Sample.handle
       (Sample.with_sources None None None None)
       "https://broker.example/pacts/latest" [] [] =
     (Normal [],
      [Ffi.pactffiVerifierUrlSource Sample.handle
         "https://broker.example/pacts/latest" username password token])) /\
  ffiFnMapping.addPactUrl (Sample.node []) Sample.handle
    (Sample.with_sources None None None None) "xhttp:foo" [] [] =
    (Normal [], []) /\
  ffiFnMapping.addPactUrl (Sample.node []) Sample.handle
    (Sample.with_sources None None None None) "./pacts" [] [] =
    (Normal [], [Ffi.pactffiVerifierAddDirectorySource Sample.handle "./pacts"]) /\
  ffiFnMapping.addPactUrl (Sample.node []) Sample.handle
    (Sample.with_sources None None None None) "http://[::1" [] [] =
    (Throw (TypeError "Invalid URL"), []).
Proof.
  split; [ | split; [ | split]].
  - destruct (pact_url_scheme_test_first (Sample.node []) Sample.handle
                (Sample.with_sources None None None None)
                "https://broker.example/pacts/latest" [] [])
      as (_ & Hparsed).
    destruct (Hparsed (Some "https:") eq_refl) as (Hurl & _).
    destruct (Hurl eq_refl) as (_ & Hsource & _).
    apply (Hsource {| protocol := "https:"; hostname := "broker.example";
                      port := ""; pathname := "/pacts/latest" |}).
    + reflexivity.
    + discriminate.
  - destruct (pact_url_scheme_test_first (Sample.node []) Sample.handle
                (Sample.with_sources None None None None) "xhttp:foo" [] [])
      as (_ & Hparsed).
    destruct (Hparsed (Some "xhttp:") eq_refl) as (Hurl & _).
    destruct (Hurl eq_refl) as (_ & _ & Hnohost & _).
    apply (Hnohost {| protocol := "xhttp:"; hostname := ""; port := "";
                      pathname := "foo" |}); reflexivity.
  - destruct (pact_url_scheme_test_first (Sample.node []) Sample.handle
                (Sample.with_sources None None None None) "./pacts" [] [])
      as (_ & Hparsed).
    destruct (Hparsed None eq_refl) as (_ & Hpath).
    destruct (Hpath eq_refl) as (Hdir & _).
    apply (Hdir Sample.directory); reflexivity.
  - destruct (pact_url_scheme_test_first (Sample.node []) Sample.handle
                (Sample.with_sources None None None None) "http://[::1" [] [])
      as (Hthrows & _).
    apply Hthrows. reflexivity.
Defined.

(** C4, as stated, fails.  The protocol of [xhttp:foo] passes the scheme
    test, its URL has an empty host, and a regular file of that name
    exists; yet the location is not classified by the file system: no file
    source is added (nor anything else). *)
Lemma empty_host_does_not_fall_through :
  url_parse_protocol (Sample.node []) "xhttp:foo" = Normal (Some "xhttp:") /\
  regex_https_test "xhttp:" = true /\
  option_map hostname (new_URL (Sample.node []) "xhttp:foo") = Some "" /\
  fs_lstatSync (Sample.node []) "xhttp:foo" = Some Sample.regular_file /\
  ffiFnMapping.addPactUrl (Sample.node []) Sample.handle
    (Sample.with_sources None None None None) "xhttp:foo" [] [] =
    (Normal [], []) /\
  snd (ffiFnMapping.addPactUrl (Sample.node []) Sample.handle
         (Sample.with_sources None None None None) "xhttp:foo" [] []) <>
    [Ffi.pactffiVerifierAddFileSource Sample.handle "xhttp:foo"].
Proof.
  repeat split; try reflexivity. discriminate.
Qed.

(** C5.  [/dev/null] is neither a URL, nor a directory, a regular file or
    a symbolic link, and [lstatSync] does not throw on it: the descriptor
    issues no call for it, collects no message and returns SUCCESS.  The
    same holds for [xhttp:foo], whose URL has no host.  A path that does not
    exist is reported, as the claim says. *)
Theorem unresolved_location_without_message :
  fs_lstatSync (Sample.node []) "/dev/null" = Some Sample.character_device /\
  ffiFnMapping.pactffiVerifierAddDirectorySource (Sample.node []) Sample.handle
    (Sample.with_sources (Some ["/dev/null"]) None None None) [] =
    (Normal {| status := SUCCESS; messages := None |}, []) /\
  ffiFnMapping.pactffiVerifierAddDirectorySource (Sample.node []) Sample.handle
    (Sample.with_sources (Some ["xhttp:foo"]) None None None) [] =
    (Normal {| status := SUCCESS; messages := None |}, []) /\
  ffiFnMapping.pactffiVerifierAddDirectorySource (Sample.node []) Sample.handle
    (Sample.with_sources (Some ["./missing"; "./pacts"]) None None None) [] =
    (Normal {| status := FAIL;
               messages :=
                 Some ["'./missing' does not exist, or is not a file or directory"] |},
     [Ffi.pactffiVerifierAddDirectorySource Sample.handle "./pacts"]).
Proof.
  repeat split; reflexivity.
Qed.

(** ** Provider info *)

Lemma split_first_part (c : ascii) (a : string) :
  count_char c a = 0%nat ->
  at_index (split c (a ++ String c "")) 0 = a.
Proof.
  intros H. now rewrite (split_app _ _ _ H).
Qed.

Lemma digit_value_nonneg (c : ascii) : is_digit c = true -> 0 <= digit_value c.
Proof.
  unfold is_digit, digit_value. intros H.
  apply andb_true_iff in H. destruct H as [H _].
  apply Nat.leb_le in H. lia.
Qed.

(** On a string that starts with a digit [parseInt] reads neither white
    space nor a sign. *)
Lemma parseInt10_digit_first (c : ascii) (t : string) :
  is_digit c = true ->
  parseInt10 (String c t) =
    match leading_digits (Some (digit_value c)) t with
    | Some v => JsInt v
    | None => NaN
    end.
Proof.
  destruct c as [b0 b1 b2 b3 b4 b5 b6 b7].
  destruct b0, b1, b2, b3, b4, b5, b6, b7;
    try (intros H; discriminate H); intros _; reflexivity.
Qed.

Lemma leading_digits_decimal (s : string) :
  all_digits s = true ->
  forall a, 0 <= a ->
  leading_digits (Some a) s = Some (decimal a s) /\ 0 <= decimal a s.
Proof.
  induction s as [ | c t IH]; intros Hdigits a Ha; cbn [leading_digits decimal].
  - auto.
  - simpl in Hdigits. apply andb_true_iff in Hdigits.
    destruct Hdigits as [Hc Ht]. rewrite Hc.
    apply IH; [exact Ht | ]. pose proof (digit_value_nonneg c Hc). lia.
Qed.

Lemma parseInt10_port_number (s : string) :
  is_port_number s ->
  parseInt10 s = JsInt (decimal 0 s) /\ 0 <= decimal 0 s.
Proof.
  intros [Hne Hdigits]. destruct s as [ | c t]; [contradiction | ].
  simpl in Hdigits. apply andb_true_iff in Hdigits. destruct Hdigits as [Hc Ht].
  rewrite (parseInt10_digit_first c t Hc).
  change (decimal 0 (String c t)) with (decimal (digit_value c) t).
  destruct (leading_digits_decimal t Ht (digit_value c) (digit_value_nonneg c Hc))
    as [-> Hpos].
  auto.
Qed.

(** C6, as the code has it.  The descriptor has no IGNORE and no FAIL
    outcome.  When [providerBaseUrl] parses as a URL it issues exactly one
    SetProviderInfo call and returns SUCCESS; the call carries the scheme
    (the protocol without its colon), the host, the path, and as port
    [parseInt(uri.port, 10)]: the number that the [port] of the URL object
    writes when that is a string of digits, and [NaN] when it is the empty
    string.  When [providerBaseUrl] does not parse, the descriptor throws,
    no call is issued, and whatever was to run after the descriptor is
    skipped. *)
Theorem provider_info_always_applicable {Selector : Type} (node : Node)
  (handle : FfiHandle) (options : Options Selector) (log : Ffi.Log) :
  (forall uri, new_URL node (providerBaseUrl options) = Some uri ->
     ffiFnMapping.pactffiVerifierSetProviderInfo node handle options log =
       (Normal {| status := SUCCESS; messages := None |},
        (log ++ [Ffi.pactffiVerifierSetProviderInfo handle
                   (or_default (provider options) "")
                   (at_index (split ":" (protocol uri)) 0) (hostname uri)
                   (parseInt10 (port uri)) (pathname uri)])%list) /\
     (forall s, protocol uri = s ++ ":" -> count_char ":" s = 0%nat ->
                at_index (split ":" (protocol uri)) 0 = s) /\
     (is_port_number (port uri) ->
        parseInt10 (port uri) = JsInt (decimal 0 (port uri)) /\
        0 <= decimal 0 (port uri)) /\
     (port uri = "" -> parseInt10 (port uri) = NaN)) /\
  (new_URL node (providerBaseUrl options) = None ->
     ffiFnMapping.pactffiVerifierSetProviderInfo node handle options log =
       (Throw (TypeError "Invalid URL"), log) /\
     forall (B : Type) (rest : FnValidationResult -> Exec Ffi.Log B),
       bind (ffiFnMapping.pactffiVerifierSetProviderInfo node handle options)
            rest log =
         (Throw (TypeError "Invalid URL"), log)) /\
  (forall r log',
     ffiFnMapping.pactffiVerifierSetProviderInfo node handle options log =
       (Normal r, log') ->
     status r = SUCCESS).
Proof.
  unfold bind, ffiFnMapping.pactffiVerifierSetProviderInfo.
  split; [ | split].
  - intros uri ->.
    split; [reflexivity | split; [ | split]].
    + intros s -> Hs. apply split_first_part, Hs.
    + apply parseInt10_port_number.
    + intros ->. reflexivity.
  - intros ->. split; [reflexivity | ]. intros B rest. reflexivity.
  - intros r log'. destruct (new_URL node (providerBaseUrl options)).
    + intros [= <- _]. reflexivity.
    + discriminate.
Qed.

Lemma provider_info_always_applicable_witness :
  ffiFnMapping.pactffiVerifierSetProviderInfo (Sample.node []) Sample.handle
    (Sample.options "http://localhost:8080/") [] =
    (Normal {| status := SUCCESS; messages := None |},
     [Ffi.pactffiVerifierSetProviderInfo Sample.handle "" "http" "localhost"
        (JsInt 8080) "/"]) /\
  ffiFnMapping.pactffiVerifierSetProviderInfo (Sample.node []) Sample.handle
    (Sample.options "not a url") [] =
    (Throw (TypeError "Invalid URL"), []).
Proof.
  split.
  - destruct (provider_info_always_applicable (Sample.node []) Sample.handle
                (Sample.options "http://localhost:8080/") [])
      as (Hparsed & _ & _).
    destruct (Hparsed {| protocol := "http:"; hostname := "localhost";
                         port := "8080"; pathname := "/" |} eq_refl)
      as (Hcall & Hscheme & Hport & _).
    rewrite Hcall.
    rewrite (Hscheme "http" eq_refl eq_refl).
    destruct Hport as [-> _]; [split; [discriminate | reflexivity] | ].
    reflexivity.
  - destruct (provider_info_always_applicable (Sample.node []) Sample.handle
                (Sample.options "not a url") [])
      as (_ & Hthrows & _).
    apply Hthrows. reflexivity.
Defined.

(** C6, as stated, fails: [http://localhost/] parses as a URL and has no
    port, and [http://localhost:80/] names the default port of its scheme,
    which the URL object leaves out; for both the port passed to
    SetProviderInfo is [NaN], which is not an integer. *)
Lemma provider_info_port_not_an_integer :
  ffiFnMapping.pactffiVerifierSetProviderInfo (Sample.node []) Sample.handle
    (Sample.options "http://localhost/") [] =
    (Normal {| status := SUCCESS; messages := None |},
     [Ffi.pactffiVerifierSetProviderInfo Sample.handle "" "http" "localhost"
        NaN "/"]) /\
  ffiFnMapping.pactffiVerifierSetProviderInfo (Sample.node []) Sample.handle
    (Sample.options "http://localhost:80/") [] =
    (Normal {| status := SUCCESS; messages := None |},
     [Ffi.pactffiVerifierSetProviderInfo Sample.handle "" "http" "localhost"
        NaN "/"]) /\
  (forall z, NaN <> JsInt z).
Proof.
  split; [reflexivity | split; [reflexivity | discriminate]].
Qed.

(** ** Publish options *)

(** C7.  The descriptor returns SUCCESS exactly when the publish flag or
    the variable PACT_BROKER_PUBLISH_VERIFICATION_RESULTS is set and a
    provider version is present, and IGNORE otherwise.  With SUCCESS it
    issues exactly one SetPublishOptions call, for that version, whose
    branch is [providerVersionBranch], else [providerBranch], else the
    empty string; with IGNORE it issues none. *)
Theorem publish_options_applicability {Selector : Type} (node : Node)
  (handle : FfiHandle) (options : Options Selector) (log : Ffi.Log) :
  exists r added,
    ffiFnMapping.pactffiVerifierSetPublishOptions node handle options log =
      (Normal r, (log ++ added)%list) /\
    (status r = SUCCESS <->
       (publishVerificationResult options = Some true \/
        is_set (process_env node "PACT_BROKER_PUBLISH_VERIFICATION_RESULTS")) /\
       is_set (providerVersion options)) /\
    (status r = IGNORE <->
       ~ ((publishVerificationResult options = Some true \/
           is_set (process_env node "PACT_BROKER_PUBLISH_VERIFICATION_RESULTS")) /\
          is_set (providerVersion options))) /\
    (status r = SUCCESS ->
       exists version buildUrl tags branch,
         added = [Ffi.pactffiVerifierSetPublishOptions handle version buildUrl
                    tags branch] /\
         providerVersion options = Some version /\
         falls_back (providerVersionBranch options) (providerBranch options)
           branch) /\
    (status r = IGNORE -> added = []).
Proof.
  assert (Happ :
    (truthy_boolean (publishVerificationResult options)
     || truthy_string (process_env node "PACT_BROKER_PUBLISH_VERIFICATION_RESULTS"))
    && truthy_string (providerVersion options) = true <->
    (publishVerificationResult options = Some true \/
     is_set (process_env node "PACT_BROKER_PUBLISH_VERIFICATION_RESULTS")) /\
    is_set (providerVersion options)).
  { rewrite andb_true_iff, orb_true_iff, !truthy_string_is_set.
    destruct (publishVerificationResult options) as [[ | ] | ]; simpl;
      intuition congruence. }
  unfold ffiFnMapping.pactffiVerifierSetPublishOptions.
  destruct (providerVersion options) as [version | ] eqn:Hversion.
  - destruct ((truthy_boolean (publishVerificationResult options)
               || truthy_string
                    (process_env node "PACT_BROKER_PUBLISH_VERIFICATION_RESULTS"))
              && truthy_string (Some version)) eqn:E.
    + assert (Hyes := proj1 Happ eq_refl).
      eexists _, [_]. split; [reflexivity | ]. simpl.
      split; [tauto | ]. split; [ | split].
      * split; [discriminate | tauto].
      * intros _. eexists _, _, _, _. split; [reflexivity | ].
        split; [reflexivity | apply or_chain_falls_back].
      * discriminate.
    + assert (Hno : ~ ((publishVerificationResult options = Some true \/
                        is_set (process_env node
                                  "PACT_BROKER_PUBLISH_VERIFICATION_RESULTS")) /\
                       is_set (Some version))).
      { intros H. apply Happ in H. discriminate. }
      eexists _, []. rewrite app_nil_r. split; [reflexivity | ]. simpl.
      split; [ | split; [tauto | split; [discriminate | reflexivity]]].
      split; [discriminate | tauto].
  - assert (Hno : ~ is_set (@None string)) by (intros (s & [=] & _)).
    eexists _, []. rewrite app_nil_r. split; [reflexivity | ]. simpl.
    split; [ | split; [tauto | split; [discriminate | reflexivity]]].
    split; [discriminate | tauto].
Qed.

Lemma publish_options_applicability_witness :
  exists r added,
    ffiFnMapping.pactffiVerifierSetPublishOptions (Sample.node []) Sample.handle
      (Sample.with_publish (Some true) (Some "1.0.0") None (Some "main")) [] =
      (Normal r, added) /\
    exists version buildUrl tags branch,
      added = [Ffi.pactffiVerifierSetPublishOptions Sample.handle version
                 buildUrl tags branch] /\
      version = "1.0.0" /\ branch = "main".
Proof.
  destruct (publish_options_applicability (Sample.node []) Sample.handle
              (Sample.with_publish (Some true) (Some "1.0.0") None (Some "main")) [])
    as (r & added & Hrun & Hsuccess & _ & Hcall & _).
  exists r, added. split; [exact Hrun | ].
  assert (Hs : status r = SUCCESS).
  { apply Hsuccess. split.
    - left. reflexivity.
    - exists "1.0.0". split; [reflexivity | discriminate]. }
  destruct (Hcall Hs) as (version & buildUrl & tags & branch & Hadded & Hversion & Hbranch).
  exists version, buildUrl, tags, branch. split; [exact Hadded | split].
  - simpl in Hversion. congruence.
  - destruct Hbranch as (_ & Hsecond & _).
    apply Hsecond.
    + intros (s & [=] & _).
    + reflexivity.
    + discriminate.
Defined.

(** ** Pact locations, one by one *)

Lemma url_source_credentials_resolved {Selector : Type} (node : Node)
  (options : Options Selector) (handle : FfiHandle) (url : string) :
  credentials_resolved node options
    (Ffi.pactffiVerifierUrlSource handle url
       (or_default (or_string (pactBrokerUsername options)
                      (process_env node "PACT_BROKER_USERNAME")) "")
       (or_default (or_string (pactBrokerPassword options)
                      (process_env node "PACT_BROKER_PASSWORD")) "")
       (or_default (or_string (pactBrokerToken options)
                      (process_env node "PACT_BROKER_TOKEN")) "")).
Proof.
  intros username password token [= <- <- <-].
  repeat split; apply or_chain_falls_back.
Qed.

(** When [url.parse] throws on a location, the callback throws and leaves
    the log as it is. *)
Lemma addPactUrl_throws {Selector : Type} (node : Node) (handle : FfiHandle)
  (options : Options Selector) (file : string) (messages : list string)
  (log : Ffi.Log) (e : JsError) :
  url_parse_protocol node file = Throw e ->
  ffiFnMapping.addPactUrl node handle options file messages log = (Throw e, log).
Proof.
  intros H. unfold ffiFnMapping.addPactUrl, ffiFnMapping.url_parse, bind.
  now rewrite H.
Qed.

(** Otherwise the callback adds to the messages and to the log what the
    location gives alone. *)
Lemma addPactUrl_alone {Selector : Type} (node : Node) (handle : FfiHandle)
  (options : Options Selector) (file : string) (messages : list string)
  (log : Ffi.Log) :
  parses node file ->
  ffiFnMapping.addPactUrl node handle options file messages log =
    (Normal (messages ++ location_messages node handle options file)%list,
     (log ++ location_calls node handle options file)%list).
Proof.
  intros (parsed & Hparsed).
  unfold location_messages, location_calls, ffiFnMapping.addPactUrl,
    ffiFnMapping.url_parse, bind, push.
  rewrite Hparsed.
  destruct (regex_https_test _).
  - destruct (new_URL node file) as [u | ]; simpl;
      [destruct (negb (hostname u =? "")%string); simpl | ];
      now rewrite ?app_nil_r.
  - destruct (fs_lstatSync node file) as [f | ]; simpl;
      [destruct (isDirectory f); simpl;
       [ | destruct (isFile f || isSymbolicLink f); simpl] | ];
      now rewrite ?app_nil_r.
Qed.

Lemma forEach_addPactUrl {Selector : Type} (node : Node) (handle : FfiHandle)
  (options : Options Selector) (urls : list string) :
  Forall (parses node) urls ->
  forall (messages : list string) (log : Ffi.Log),
    forEach (ffiFnMapping.addPactUrl node handle options) urls messages log =
      (Normal
         (messages ++ flat_map (location_messages node handle options) urls)%list,
       (log ++ flat_map (location_calls node handle options) urls)%list).
Proof.
  induction 1 as [ | file rest Hfile _ IH]; intros messages log; simpl.
  - now rewrite !app_nil_r.
  - unfold bind. rewrite (addPactUrl_alone _ _ _ _ _ _ Hfile), IH.
    now rewrite <- !app_assoc.
Qed.

(** The loop stops at the first location on which [url.parse] throws: the
    calls of the locations before it have been issued, the messages are
    lost, and the locations after it are not looked at. *)
Lemma forEach_addPactUrl_throws {Selector : Type} (node : Node)
  (handle : FfiHandle) (options : Options Selector)
  (before : list string) (file : string) (after : list string) (e : JsError) :
  Forall (parses node) before ->
  url_parse_protocol node file = Throw e ->
  forall (messages : list string) (log : Ffi.Log),
    forEach (ffiFnMapping.addPactUrl node handle options)
      (before ++ file :: after) messages log =
      (Throw e,
       (log ++ flat_map (location_calls node handle options) before)%list).
Proof.
  intros Hbefore Hthrow.
  induction Hbefore as [ | first rest Hfirst _ IH]; intros messages log; simpl.
  - unfold bind. rewrite (addPactUrl_throws _ _ _ _ _ _ _ Hthrow).
    now rewrite app_nil_r.
  - unfold bind. rewrite (addPactUrl_alone _ _ _ _ _ _ Hfirst), IH.
    now rewrite <- app_assoc.
Qed.

(** [url.parse] returns on all the locations, or there is a first one on
    which it throws. *)
Lemma first_throw (node : Node) (urls : list string) :
  Forall (parses node) urls \/
  exists before file after e,
    urls = (before ++ file :: after)%list /\ Forall (parses node) before /\
    url_parse_protocol node file = Throw e.
Proof.
  induction urls as [ | file rest IH].
  - left. constructor.
  - destruct (url_parse_protocol node file) as [parsed | e] eqn:Hfile.
    + assert (Hparses : parses node file) by (now exists parsed).
      destruct IH as [Hall | (before & file' & after & e & -> & Hbefore & Hthrow)].
      * left. now constructor.
      * right. exists (file :: before), file', after, e.
        repeat split; trivial. now constructor.
    + right. exists [], file, rest, e. repeat split; trivial.
Qed.

(** A location gives one native call, or one message, or nothing, and
    what it gives is about that location. *)
Lemma location_cases {Selector : Type} (node : Node) (handle : FfiHandle)
  (options : Options Selector) (file : string) :
  (exists c, location_calls node handle options file = [c] /\
             location_messages node handle options file = [] /\
             handle_of c = handle /\ source_location c = Some file /\
             credentials_resolved node options c) \/
  (exists m, location_calls node handle options file = [] /\
             location_messages node handle options file = [m] /\
             (m = file ++ " is not a valid URL" \/
              m = "'" ++ file ++ "' does not exist, or is not a file or directory")) \/
  (location_calls node handle options file = [] /\
   location_messages node handle options file = []).
Proof.
  unfold location_messages, location_calls, ffiFnMapping.addPactUrl,
    ffiFnMapping.url_parse, bind, push.
  destruct (url_parse_protocol node file) as [parsed | e];
    [ | right; right; split; reflexivity].
  destruct (regex_https_test _).
  - destruct (new_URL node file) as [u | ]; simpl;
      [destruct (negb (hostname u =? "")%string); simpl | ].
    + left. eexists. do 4 (split; [reflexivity | ]).
      apply url_source_credentials_resolved.
    + right. right. split; reflexivity.
    + right. left. eexists. repeat split. left. reflexivity.
  - destruct (fs_lstatSync node file) as [f | ]; simpl;
      [destruct (isDirectory f); simpl;
       [ | destruct (isFile f || isSymbolicLink f); simpl] | ].
    + left. eexists. do 4 (split; [reflexivity | ]). intros u p t [=].
    + left. eexists. do 4 (split; [reflexivity | ]). intros u p t [=].
    + right. right. split; reflexivity.
    + right. left. eexists. repeat split. right. reflexivity.
Qed.

(** A location that passes the scheme test and has a host gives its URL
    source call, with the credentials of the options or the environment. *)
Lemma location_calls_url {Selector : Type} (node : Node) (handle : FfiHandle)
  (options : Options Selector) (file : string) (parsed : option string)
  (u : URL) :
  url_parse_protocol node file = Normal parsed ->
  regex_https_test (or_default parsed "") = true ->
  new_URL node file = Some u -> hostname u <> "" ->
  location_calls node handle options file =
    [Ffi.pactffiVerifierUrlSource handle file
       (or_default (or_string (pactBrokerUsername options)
                      (process_env node "PACT_BROKER_USERNAME")) "")
       (or_default (or_string (pactBrokerPassword options)
                      (process_env node "PACT_BROKER_PASSWORD")) "")
       (or_default (or_string (pactBrokerToken options)
                      (process_env node "PACT_BROKER_TOKEN")) "")].
Proof.
  intros Hparsed Htest Hurl Hhost.
  unfold location_calls, ffiFnMapping.addPactUrl, ffiFnMapping.url_parse, bind.
  rewrite Hparsed, Htest, Hurl. simpl.
  destruct (String.eqb_spec (hostname u) ""); [contradiction | reflexivity].
Qed.

(** The descriptor, location by location. *)
Lemma addDirectorySource_by_location {Selector : Type} (node : Node)
  (handle : FfiHandle) (options : Options Selector) (urls : list string)
  (log : Ffi.Log) :
  pactUrls options = Some urls ->
  Forall (parses node) urls ->
  exists r,
    ffiFnMapping.pactffiVerifierAddDirectorySource node handle options log =
      (Normal r,
       (log ++ flat_map (location_calls node handle options) urls)%list) /\
    ((status r = FAIL /\
      messages r = Some (flat_map (location_messages node handle options) urls) /\
      flat_map (location_messages node handle options) urls <> []) \/
     (status r = SUCCESS /\ messages r = None /\
      flat_map (location_messages node handle options) urls = [])).
Proof.
  intros Hurls Hparse. unfold ffiFnMapping.pactffiVerifierAddDirectorySource.
  rewrite Hurls. unfold bind. rewrite (forEach_addPactUrl _ _ _ _ Hparse).
  rewrite app_nil_l.
  destruct (flat_map (location_messages node handle options) urls) as [ | m ms];
    simpl; eexists; (split; [reflexivity | ]).
  - right. repeat split.
  - left. repeat split. discriminate.
Qed.

Lemma addDirectorySource_throws {Selector : Type} (node : Node)
  (handle : FfiHandle) (options : Options Selector)
  (before : list string) (file : string) (after : list string) (e : JsError)
  (log : Ffi.Log) :
  pactUrls options = Some (before ++ file :: after)%list ->
  Forall (parses node) before ->
  url_parse_protocol node file = Throw e ->
  ffiFnMapping.pactffiVerifierAddDirectorySource node handle options log =
    (Throw e, (log ++ flat_map (location_calls node handle options) before)%list).
Proof.
  intros Hurls Hbefore Hthrow.
  unfold ffiFnMapping.pactffiVerifierAddDirectorySource.
  rewrite Hurls. unfold bind.
  now rewrite (forEach_addPactUrl_throws _ _ _ _ _ after _ Hbefore Hthrow).
Qed.

Lemma location_calls_resolved {Selector : Type} (node : Node)
  (handle : FfiHandle) (options : Options Selector) (urls : list string) :
  Forall (credentials_resolved node options)
    (flat_map (location_calls node handle options) urls).
Proof.
  apply Forall_forall. intros c Hc. apply in_flat_map in Hc.
  destruct Hc as (file & _ & Hc).
  destruct (location_cases node handle options file)
    as [(c' & Hcalls & _ & _ & _ & Hcreds) | [(m & Hcalls & _) | (Hcalls & _)]];
    rewrite Hcalls in Hc; simpl in Hc; try contradiction.
  destruct Hc as [<- | []]. exact Hcreds.
Qed.

(** ** Options and the environment *)

(** C8.  In every call that the broker-source and the directory-source
    descriptors issue, the user name, the password and the token are the
    option when it is set, else the environment variable when that is set,
    else the empty string.  The broker URL of the broker-source call is the
    option [pactBrokerUrl] when it is set and PACT_BROKER_BASE_URL
    otherwise; when neither is set no call is issued, so that no broker URL
    is passed at all.  The directory-source descriptor issues such a call
    for each location that passes the scheme test and has a host, when
    [url.parse] returns on all the locations. *)
Theorem explicit_options_win_over_environment {Selector : Type}
  (JSON_stringify : Selector -> string) (node : Node) (handle : FfiHandle)
  (options : Options Selector) (log : Ffi.Log) :
  (exists r added,
     ffiFnMapping.pactffiVerifierBrokerSourceWithSelectors JSON_stringify node
       handle options log = (Normal r, (log ++ added)%list) /\
     Forall (credentials_resolved node options) added /\
     ((is_set (pactBrokerUrl options) \/
       is_set (process_env node "PACT_BROKER_BASE_URL")) ->
      is_set (provider options) ->
      exists url username password token pending wip tags branch selectors
             consumerTags,
        added = [Ffi.pactffiVerifierBrokerSourceWithSelectors handle url
                   username password token pending wip tags branch selectors
                   consumerTags] /\
        (forall s, pactBrokerUrl options = Some s -> s <> "" -> url = s) /\
        (~ is_set (pactBrokerUrl options) ->
         forall s, process_env node "PACT_BROKER_BASE_URL" = Some s ->
                   s <> "" -> url = s)) /\
     (~ is_set (pactBrokerUrl options) ->
      ~ is_set (process_env node "PACT_BROKER_BASE_URL") ->
      status r = IGNORE /\ added = [])) /\
  (exists added,
     snd (ffiFnMapping.pactffiVerifierAddDirectorySource node handle options
            log) = (log ++ added)%list /\
     Forall (credentials_resolved node options) added /\
     forall urls file parsed u,
       pactUrls options = Some urls -> Forall (parses node) urls ->
       In file urls ->
       url_parse_protocol node file = Normal parsed ->
       regex_https_test (or_default parsed "") = true ->
       new_URL node file = Some u -> hostname u <> "" ->
       exists username password token,
         In (Ffi.pactffiVerifierUrlSource handle file username password token)
           added /\
         falls_back (pactBrokerUsername options)
           (process_env node "PACT_BROKER_USERNAME") username /\
         falls_back (pactBrokerPassword options)
           (process_env node "PACT_BROKER_PASSWORD") password /\
         falls_back (pactBrokerToken options)
           (process_env node "PACT_BROKER_TOKEN") token).
Proof.
  split.
  - unfold ffiFnMapping.pactffiVerifierBrokerSourceWithSelectors.
    pose proof (truthy_string_is_set (pactBrokerUrl options)) as Hopt.
    pose proof (truthy_string_is_set (process_env node "PACT_BROKER_BASE_URL"))
      as Henv.
    pose proof (truthy_string_is_set (provider options)) as Hprov.
    pose proof (truthy_string_is_set
                  (or_string (pactBrokerUrl options)
                     (process_env node "PACT_BROKER_BASE_URL"))) as Hurl.
    assert (Hor : or_string (pactBrokerUrl options)
                    (process_env node "PACT_BROKER_BASE_URL") =
                  if truthy_string (pactBrokerUrl options)
                  then pactBrokerUrl options
                  else process_env node "PACT_BROKER_BASE_URL") by reflexivity.
    destruct (or_string (pactBrokerUrl options)
                (process_env node "PACT_BROKER_BASE_URL")) as [url | ] eqn:Hbroker.
    + destruct (truthy_string (Some url)) eqn:Eurl;
        [destruct (truthy_string (provider options)) eqn:Eprov | ]; simpl.
      * eexists _, [_]. split; [reflexivity | ]. split; [ | split].
        -- constructor; [ | constructor].
           intros username password token [= <- <- <-].
           repeat split; apply or_chain_falls_back.
        -- intros _ _. eexists _, _, _, _, _, _, _, _, _, _.
           split; [reflexivity | ]. split.
           ++ intros s Hs Hne. rewrite Hs in Hor. simpl in Hor.
              destruct (String.eqb_spec s ""); [contradiction | ].
              simpl in Hor. congruence.
           ++ intros Hnot s Hs Hne. apply not_truthy_string in Hnot.
              rewrite Hnot in Hor. congruence.
        -- intros Hnot Hnot'. exfalso.
           apply not_truthy_string in Hnot. rewrite Hnot in Hor.
           apply Hnot', Henv. rewrite <- Hor. exact Eurl.
      * eexists _, []. rewrite app_nil_r. split; [reflexivity | ].
        split; [constructor | split].
        -- intros _ Hp. apply Hprov in Hp. discriminate.
        -- intros _ _. split; reflexivity.
      * eexists _, []. rewrite app_nil_r. split; [reflexivity | ].
        split; [constructor | split].
        -- intros [Hset | Hset] _.
           ++ apply Hopt in Hset. rewrite Hset in Hor.
              rewrite <- Hor in Hset. congruence.
           ++ destruct (truthy_string (pactBrokerUrl options)) eqn:E.
              ** rewrite <- Hor in E. congruence.
              ** apply Henv in Hset. rewrite <- Hor in Hset. congruence.
        -- intros _ _. split; reflexivity.
    + eexists _, []. rewrite app_nil_r. split; [reflexivity | ].
      split; [constructor | split].
      * intros [Hset | Hset] _.
        -- apply Hopt in Hset. rewrite Hset in Hor.
           rewrite <- Hor in Hset. discriminate.
        -- destruct (truthy_string (pactBrokerUrl options)) eqn:E.
           ++ rewrite <- Hor in E. discriminate.
           ++ apply Henv in Hset. rewrite <- Hor in Hset. discriminate.
      * intros _ _. split; reflexivity.
  - destruct (pactUrls options) as [urls | ] eqn:Hurls.
    + destruct (first_throw node urls)
        as [Hparse | (before & file & after & e & -> & Hbefore & Hthrow)].
      * destruct (addDirectorySource_by_location node handle options urls log
                    Hurls Hparse) as (r & -> & _).
        eexists. split; [reflexivity | ].
        split; [apply location_calls_resolved | ].
        intros urls' file parsed u [= <-] _ Hin Hparsed Htest Hurl Hhost.
        eexists _, _, _. split.
        -- apply in_flat_map. exists file. split; [exact Hin | ].
           rewrite (location_calls_url node handle options file parsed u
                      Hparsed Htest Hurl Hhost).
           left. reflexivity.
        -- repeat split; apply or_chain_falls_back.
      * rewrite (addDirectorySource_throws node handle options before file
                   after e log Hurls Hbefore Hthrow).
        eexists. split; [reflexivity | ].
        split; [apply location_calls_resolved | ].
        intros urls' file' parsed u [= <-] Hparse. exfalso.
        apply Forall_app in Hparse. destruct Hparse as [_ Hparse].
        apply Forall_inv in Hparse. destruct Hparse as (p & Hp). congruence.
    + unfold ffiFnMapping.pactffiVerifierAddDirectorySource. rewrite Hurls.
      exists []. rewrite app_nil_r. split; [reflexivity | ].
      split; [constructor | ]. intros urls file parsed u [=].
Qed.

Lemma explicit_options_win_over_environment_witness :
  (exists r added,
     ffiFnMapping.pactffiVerifierBrokerSourceWithSelectors Sample.JSON_stringify
       (Sample.node [ ("PACT_BROKER_BASE_URL", "https://env-broker.example");
                      ("PACT_BROKER_USERNAME", "env-user");
                      ("PACT_BROKER_TOKEN", "env-token") ])
       Sample.handle
       (Sample.with_sources (Some ["https://broker.example/pacts/latest"])
          (Some "https://broker.example") (Some "option-user") None) [] =
       (Normal r, added) /\
     exists url username password token pending wip tags branch selectors
            consumerTags,
       added = [Ffi.pactffiVerifierBrokerSourceWithSelectors Sample.handle url
                  username password token pending wip tags branch selectors
                  consumerTags] /\
       url = "https://broker.example" /\ username = "option-user" /\
       password = "" /\ token = "env-token") /\
  In (Ffi.pactffiVerifierUrlSource Sample.handle
        "https://broker.example/pacts/latest" "option-user" "" "env-token")
    (snd (ffiFnMapping.pactffiVerifierAddDirectorySource
            (Sample.node [ ("PACT_BROKER_BASE_URL", "https://env-broker.example");
                           ("PACT_BROKER_USERNAME", "env-user");
                           ("PACT_BROKER_TOKEN", "env-token") ])
            Sample.handle
            (Sample.with_sources (Some ["https://broker.example/pacts/latest"])
               (Some "https://broker.example") (Some "option-user") None) [])).
Proof.
  assert (Hset : forall s, s <> "" -> is_set (Some s))
    by (intros s Hs; exists s; split; [reflexivity | exact Hs]).
  assert (Hunset : ~ is_set (@None string)) by (intros (s & [=] & _)).
  destruct (explicit_options_win_over_environment Sample.JSON_stringify
              (Sample.node [ ("PACT_BROKER_BASE_URL", "https://env-broker.example");
                             ("PACT_BROKER_USERNAME", "env-user");
                             ("PACT_BROKER_TOKEN", "env-token") ])
              Sample.handle
              (Sample.with_sources (Some ["https://broker.example/pacts/latest"])
                 (Some "https://broker.example") (Some "option-user") None) [])
    as ((r & added & Hrun & Hcreds & Hcall & _) & (added' & Hrun' & _ & Hsource)).
  split.
  - exists r, added. split; [exact Hrun | ].
    destruct Hcall
      as (url & username & password & token & pending & wip & tags & branch
          & selectors & consumerTags & Hadded & Hurl & _).
    { left. apply Hset. discriminate. }
    { apply Hset. discriminate. }
    exists url, username, password, token, pending, wip, tags, branch, selectors,
      consumerTags.
    split; [exact Hadded | ].
    rewrite Hadded in Hcreds.
    apply Forall_inv in Hcreds.
    destruct (Hcreds username password token eq_refl)
      as ((Huser & _ & _) & (_ & _ & Hpassword) & (_ & Htoken & _)).
    split; [apply Hurl; [reflexivity | discriminate] | split; [ | split]].
    + apply Huser; [reflexivity | discriminate].
    + apply Hpassword; [exact Hunset | exact Hunset].
    + apply Htoken; [exact Hunset | reflexivity | discriminate].
  - rewrite Hrun'.
    destruct (Hsource ["https://broker.example/pacts/latest"]
                "https://broker.example/pacts/latest" (Some "https:")
                {| protocol := "https:"; hostname := "broker.example";
                   port := ""; pathname := "/pacts/latest" |})
      as (username & password & token & Hin & (Huser & _ & _)
          & (_ & _ & Hpassword) & (_ & Htoken & _));
      try reflexivity.
    { constructor; [ | constructor]. now exists (Some "https:"). }
    { left. reflexivity. }
    { discriminate. }
    assert (Eu := Huser "option-user" eq_refl ltac:(discriminate)).
    assert (Ep := Hpassword Hunset Hunset).
    assert (Et := Htoken Hunset "env-token" eq_refl ltac:(discriminate)).
    subst username password token. exact Hin.
Defined.

(** ** The server factory *)

Lemma module_exports_steps (rt : server.Runtime)
  (options : option server.ServerOptions) :
  server.module_exports rt options =
    (let o := defaults rt options in
     check_port rt o ;;;
     check_ssl_pair o ;;;
     check_exists rt (server.sslcert o) "Custom ssl certificate not found at path: " ;;;
     check_exists rt (server.sslkey o) "Custom ssl key not found at path: " ;;;
     check_spec rt (force_ssl o) ;;;
     ensure_directory rt (truthy_string (server.dir (force_ssl o)))
       (server.path_normalize rt (server.value_of (server.dir (force_ssl o)))) ;;;
     ensure_directory rt (truthy_string (server.log (force_ssl o)))
       (server.path_parse_dir rt
          (server.path_normalize rt (server.value_of (server.log (force_ssl o))))) ;;;
     ret (construct (force_ssl o))).
Proof.
  reflexivity.
Qed.

Lemma bind_normal {S A B : Type} (m : Exec S A) (k : A -> Exec S B)
  (s s' : S) (a : A) :
  m s = (Normal a, s') -> bind m k s = k a s'.
Proof.
  unfold bind. now intros ->.
Qed.

Lemma bind_throw {S A B : Type} (m : Exec S A) (k : A -> Exec S B)
  (s s' : S) (e : JsError) :
  m s = (Throw e, s') -> bind m k s = (Throw e, s').
Proof.
  unfold bind. now intros ->.
Qed.

Lemma bind_returns {S A B : Type} (m : Exec S A) (k : A -> Exec S B)
  (s s' : S) (b : B) :
  bind m k s = (Normal b, s') ->
  exists a s1, m s = (Normal a, s1) /\ k a s1 = (Normal b, s').
Proof.
  unfold bind. destruct (m s) as [[a | e] s1]; [eauto | discriminate].
Qed.

Lemma check_port_cases (rt : server.Runtime) (o : server.ServerOptions)
  (fs : server.FileSystem) :
  (port_accepted rt o = true /\ check_port rt o fs = (Normal tt, fs)) \/
  (port_accepted rt o = false /\ exists e, check_port rt o fs = (Throw e, fs)).
Proof.
  unfold check_port, port_accepted, server.when.
  destruct (server.port o) as [p | ]; [ | left; split; reflexivity].
  destruct (truthy_number (Some p)); [ | left; split; reflexivity].
  unfold bind, server.assert. cbn [negb orb].
  destruct (server.checkTypes_number rt p); [ | right; split; [reflexivity | eexists; reflexivity]].
  destruct (server.checkTypes_integer rt p); [ | right; split; [reflexivity | eexists; reflexivity]].
  destruct (server.checkTypes_positive rt p); [ | right; split; [reflexivity | eexists; reflexivity]].
  destruct (server.checkTypes_inRange rt p 0 65535); [ | right; split; [reflexivity | eexists; reflexivity]].
  left. split; reflexivity.
Qed.

Lemma check_spec_cases (rt : server.Runtime) (o : server.ServerOptions)
  (fs : server.FileSystem) :
  (spec_accepted rt o = true /\ check_spec rt o fs = (Normal tt, fs)) \/
  (spec_accepted rt o = false /\ exists e, check_spec rt o fs = (Throw e, fs)).
Proof.
  unfold check_spec, spec_accepted, server.when.
  destruct (server.spec o) as [v | ]; [ | left; split; reflexivity].
  destruct (truthy_number (Some v)); [ | left; split; reflexivity].
  unfold bind, server.assert. cbn [negb orb].
  destruct (server.checkTypes_number rt v); [ | right; split; [reflexivity | eexists; reflexivity]].
  destruct (server.checkTypes_integer rt v); [ | right; split; [reflexivity | eexists; reflexivity]].
  destruct (server.checkTypes_positive rt v); [ | right; split; [reflexivity | eexists; reflexivity]].
  left. split; reflexivity.
Qed.

Lemma check_ssl_pair_cases (o : server.ServerOptions) (fs : server.FileSystem) :
  (((is_set (server.sslcert o) /\ ~ is_set (server.sslkey o)) \/
    (~ is_set (server.sslcert o) /\ is_set (server.sslkey o))) /\
   check_ssl_pair o fs =
     (Throw (Error "Custom ssl certificate and key must be specified together."),
      fs)) \/
  ((is_set (server.sslcert o) <-> is_set (server.sslkey o)) /\
   check_ssl_pair o fs = (Normal tt, fs)).
Proof.
  unfold check_ssl_pair, server.when.
  rewrite <- !truthy_string_is_set.
  destruct (truthy_string (server.sslcert o)), (truthy_string (server.sslkey o));
    simpl; intuition congruence.
Qed.

Lemma check_exists_cases (rt : server.Runtime) (path : option string)
  (message : string) (fs : server.FileSystem) :
  (~ is_set path /\ check_exists rt path message fs = (Normal tt, fs)) \/
  (exists p, path = Some p /\ p <> "" /\
     ((fs (server.path_normalize rt p) <> None /\
       check_exists rt path message fs = (Normal tt, fs)) \/
      (fs (server.path_normalize rt p) = None /\
       check_exists rt path message fs = (Throw (Error (message ++ p)), fs)))).
Proof.
  unfold check_exists, server.when.
  destruct (truthy_string path) eqn:E.
  - right. apply truthy_string_is_set in E. destruct E as (p & -> & Hp).
    exists p. split; [reflexivity | split; [exact Hp | ]].
    unfold try_catch, bind, server.fs_statSync, server.value_of. simpl.
    destruct (String.eqb_spec p ""); [contradiction | ].
    destruct (fs (server.path_normalize rt p)) as [stats | ].
    + left. split; [discriminate | reflexivity].
    + right. split; reflexivity.
  - left. split; [now apply not_truthy_string | reflexivity].
Qed.

(** What follows the lines on [ssl] leaves the options as they are. *)
Lemma construct_after_checks (rt : server.Runtime) (o : server.ServerOptions)
  (given1 given2 : bool) (path1 path2 : string) (fs fs' : server.FileSystem)
  (srv : server.Server) :
  (check_spec rt o ;;;
   ensure_directory rt given1 path1 ;;;
   ensure_directory rt given2 path2 ;;;
   ret (construct o)) fs = (Normal srv, fs') ->
  srv = construct o.
Proof.
  intros H.
  apply bind_returns in H. destruct H as (_ & fs1 & _ & H).
  apply bind_returns in H. destruct H as (_ & fs2 & _ & H).
  apply bind_returns in H. destruct H as (_ & fs3 & _ & H).
  unfold ret in H. congruence.
Qed.

Lemma ensure_directory_found (rt : server.Runtime) (given : bool)
  (path : string) (fs : server.FileSystem) :
  (given = true -> fs path <> None) ->
  ensure_directory rt given path fs = (Normal tt, fs).
Proof.
  unfold ensure_directory, server.when, try_catch, bind, server.fs_statSync.
  destruct given; [ | reflexivity].
  intros H. destruct (fs path); [reflexivity | ]. now destruct H.
Qed.

Lemma force_ssl_both (o : server.ServerOptions) :
  is_set (server.sslcert o) -> is_set (server.sslkey o) ->
  force_ssl o = server.set_ssl o true.
Proof.
  intros Hc Hk. unfold force_ssl.
  apply truthy_string_is_set in Hc, Hk. now rewrite Hc, Hk.
Qed.

Ltac step_normal H := rewrite (bind_normal _ _ _ _ _ H).
Ltac step_throw H := rewrite (bind_throw _ _ _ _ _ H).

(** A value that is not set is not a non-empty string. *)
Ltac contra_set :=
  exfalso;
  match goal with
  | Hn : ~ is_set ?v, Hs : ?v = Some ?p |- _ =>
      apply Hn; exists p; split; [exact Hs | assumption]
  end.

(** C10.  Before it constructs a [Server] the factory checks the ssl
    options.  With exactly one of [sslcert] and [sslkey] supplied it
    throws (the error that they must be specified together, when the port
    passes its own assertions).  With a supplied [sslcert] or [sslkey]
    whose path [statSync] does not find it throws (the error that names the
    path, when nothing before it throws).  With both supplied, every
    server that it returns has [ssl] true, whatever [ssl] the caller
    passed, and it does return one when both paths exist and the other
    options are in order. *)
Theorem server_factory_validates_ssl (rt : server.Runtime)
  (options : option server.ServerOptions) (fs : server.FileSystem) :
  let o := match options with Some o => o | None => server.empty_options end in
  ((is_set (server.sslcert o) /\ ~ is_set (server.sslkey o)) \/
   (~ is_set (server.sslcert o) /\ is_set (server.sslkey o)) ->
   (exists e, server.module_exports rt options fs = (Throw e, fs)) /\
   (port_accepted rt o = true ->
    server.module_exports rt options fs =
      (Throw (Error "Custom ssl certificate and key must be specified together."),
       fs))) /\
  (forall cert,
     server.sslcert o = Some cert -> cert <> "" ->
     fs (server.path_normalize rt cert) = None ->
     (exists e, server.module_exports rt options fs = (Throw e, fs)) /\
     (port_accepted rt o = true -> is_set (server.sslkey o) ->
      server.module_exports rt options fs =
        (Throw (Error ("Custom ssl certificate not found at path: " ++ cert)),
         fs))) /\
  (forall key,
     server.sslkey o = Some key -> key <> "" ->
     fs (server.path_normalize rt key) = None ->
     (exists e, server.module_exports rt options fs = (Throw e, fs)) /\
     (port_accepted rt o = true ->
      forall cert, server.sslcert o = Some cert -> cert <> "" ->
      fs (server.path_normalize rt cert) <> None ->
      server.module_exports rt options fs =
        (Throw (Error ("Custom ssl key not found at path: " ++ key)), fs))) /\
  (is_set (server.sslcert o) -> is_set (server.sslkey o) ->
   (forall srv fs',
      server.module_exports rt options fs = (Normal srv, fs') ->
      server.ssl (server._options srv) = Some true) /\
   (forall cert key,
      server.sslcert o = Some cert -> server.sslkey o = Some key ->
      fs (server.path_normalize rt cert) <> None ->
      fs (server.path_normalize rt key) <> None ->
      port_accepted rt o = true -> spec_accepted rt o = true ->
      fs (server.path_normalize rt (pact_dir rt o)) <> None ->
      ~ is_set (server.log o) ->
      exists srv,
        server.module_exports rt options fs = (Normal srv, fs) /\
        server.ssl (server._options srv) = Some true /\
        server.sslcert (server._options srv) = Some cert /\
        server.sslkey (server._options srv) = Some key)).
Proof.
  intros o. rewrite module_exports_steps. cbv zeta.
  set (d := defaults rt options).
  assert (Hcert : server.sslcert d = server.sslcert o) by reflexivity.
  assert (Hkey : server.sslkey d = server.sslkey o) by reflexivity.
  assert (Hport : port_accepted rt d = port_accepted rt o) by reflexivity.
  destruct (check_port_cases rt d fs) as [[Hacc Hp] | [Hacc (e & Hp)]];
    rewrite Hport in Hacc.
  2: { step_throw Hp.
       repeat split; intros; try (eexists; reflexivity); congruence. }
  step_normal Hp.
  destruct (check_ssl_pair_cases d fs) as [[Hone Hpair] | [Hiff Hpair]];
    rewrite Hcert, Hkey in *.
  { step_throw Hpair.
    repeat split; intros; try (eexists; reflexivity); try tauto;
      destruct Hone as [[_ Hn] | [Hn _]]; first [contra_set | tauto]. }
  step_normal Hpair.
  split; [tauto | ].
  destruct (check_exists_cases rt (server.sslcert d)
              "Custom ssl certificate not found at path: " fs)
    as [[Hnocert Hc] | (cert & Hsome & Hne & [[Hfound Hc] | [Hmissing Hc]])];
    rewrite Hcert in *.
  - (* no certificate, hence no key *)
    step_normal Hc.
    assert (Hnokey : ~ is_set (server.sslkey o)) by tauto.
    repeat split; intros; try tauto; contra_set.
  - (* the certificate exists *)
    step_normal Hc.
    split; [intros c Hc' _ Hnone; congruence | ].
    destruct (check_exists_cases rt (server.sslkey d)
                "Custom ssl key not found at path: " fs)
      as [[Hnokey Hk] | (key & Hksome & Hkne & [[Hkfound Hk] | [Hkmissing Hk]])];
      rewrite Hkey in *.
    + exfalso. apply Hnokey, Hiff. exists cert. auto.
    + step_normal Hk. split; [intros k Hk' _ Hnone; congruence | ].
      intros Hc_set Hk_set.
      assert (Hforce : force_ssl d = server.set_ssl d true).
      { apply force_ssl_both; [rewrite Hcert | rewrite Hkey]; assumption. }
      split.
      * intros srv fs' Hrun. apply construct_after_checks in Hrun.
        subst srv. rewrite Hforce. reflexivity.
      * intros c k Hc' Hk' _ _ _ Hspec Hdir Hlog.
        destruct (check_spec_cases rt (force_ssl d) fs)
          as [[_ Hs] | [Hrej _]].
        2: { rewrite Hforce in Hrej.
             change (spec_accepted rt (server.set_ssl d true))
               with (spec_accepted rt o) in Hrej. congruence. }
        step_normal Hs.
        assert (Hd : truthy_string (server.dir (force_ssl d)) = true ->
                     fs (server.path_normalize rt
                           (server.value_of (server.dir (force_ssl d)))) <> None).
        { rewrite Hforce. intros Hgiven.
          change (server.dir (server.set_ssl d true))
            with (Some (pact_dir rt o)) in *.
          unfold server.value_of. simpl in *.
          destruct (pact_dir rt o =? "")%string; [discriminate | exact Hdir]. }
        assert (Hl : truthy_string (server.log (force_ssl d)) = true ->
                     fs (server.path_parse_dir rt
                           (server.path_normalize rt
                              (server.value_of (server.log (force_ssl d)))))
                     <> None).
        { rewrite Hforce. intros Hgiven.
          change (server.log (server.set_ssl d true)) with (server.log o) in Hgiven.
          apply truthy_string_is_set in Hgiven. contradiction. }
        step_normal (ensure_directory_found rt _ _ fs Hd).
        step_normal (ensure_directory_found rt _ _ fs Hl).
        exists (construct (force_ssl d)). split; [reflexivity | ].
        rewrite Hforce. repeat split; [exact Hc' | exact Hk'].
    + step_throw Hk. split.
      * intros k Hk' _ _. split; [eexists; reflexivity | ].
        intros _ c _ _ _. congruence.
      * intros _ _. split.
        -- intros srv fs' [=].
        -- intros c k _ Hk' _ Hkf. congruence.
  - (* the certificate is missing *)
    step_throw Hc. split; [ | split].
    + intros c Hc' _ _. split; [eexists; reflexivity | ].
      intros _ _. congruence.
    + intros k _ _ _. split; [eexists; reflexivity | ].
      intros _ c Hc' _ Hcf. congruence.
    + intros _ _. split.
      * intros srv fs' [=].
      * intros c k Hc' _ Hcf. congruence.
Qed.

Lemma server_factory_validates_ssl_witness :
  server.module_exports Sample.runtime
    (Some (Sample.server_options (Some false) (Some "/etc/ssl/cert.pem") None))
    Sample.file_system =
    (Throw (Error "Custom ssl certificate and key must be specified together."),
     Sample.file_system) /\
  server.module_exports Sample.runtime
    (Some (Sample.server_options None (Some "/etc/ssl/cert.pem")
             (Some "/etc/ssl/missing.pem")))
    Sample.file_system =
    (Throw (Error "Custom ssl key not found at path: /etc/ssl/missing.pem"),
     Sample.file_system) /\
  (exists srv,
     server.module_exports Sample.runtime
       (Some (Sample.server_options (Some false) (Some "/etc/ssl/cert.pem")
                (Some "/etc/ssl/key.pem")))
       Sample.file_system = (Normal srv, Sample.file_system) /\
     server.ssl (server._options srv) = Some true /\
     server.sslcert (server._options srv) = Some "/etc/ssl/cert.pem" /\
     server.sslkey (server._options srv) = Some "/etc/ssl/key.pem").
Proof.
  assert (Hset : forall s, s <> "" -> is_set (Some s))
    by (intros s Hs; exists s; split; [reflexivity | exact Hs]).
  assert (Hunset : ~ is_set (@None string)) by (intros (s & [=] & _)).
  split; [ | split].
  - destruct (server_factory_validates_ssl Sample.runtime
                (Some (Sample.server_options (Some false)
                         (Some "/etc/ssl/cert.pem") None))
                Sample.file_system) as (Hone & _).
    apply Hone.
    + left. split; [apply Hset; discriminate | exact Hunset].
    + reflexivity.
  - destruct (server_factory_validates_ssl Sample.runtime
                (Some (Sample.server_options None (Some "/etc/ssl/cert.pem")
                         (Some "/etc/ssl/missing.pem")))
                Sample.file_system) as (_ & _ & Hkey & _).
    destruct (Hkey "/etc/ssl/missing.pem" eq_refl) as (_ & Hmessage).
    + discriminate.
    + reflexivity.
    + apply (Hmessage eq_refl "/etc/ssl/cert.pem" eq_refl); discriminate.
  - destruct (server_factory_validates_ssl Sample.runtime
                (Some (Sample.server_options (Some false)
                         (Some "/etc/ssl/cert.pem") (Some "/etc/ssl/key.pem")))
                Sample.file_system) as (_ & _ & _ & Hboth).
    apply Hboth; try (apply Hset; discriminate); try reflexivity;
      try exact Hunset; discriminate.
Defined.

(** * Further properties *)

(** ** Custom headers, both forms *)

Lemma well_formed_header_one_colon (item : string) :
  well_formed_header item = (count_char ":" item =? 1)%nat.
Proof.
  unfold well_formed_header. now rewrite split_length.
Qed.

Lemma forEach_addCustomHeaderEntry (handle : FfiHandle)
  (entries : list (string * string)) :
  forall (messages : list string) (log : Ffi.Log),
    forEach (ffiFnMapping.addCustomHeaderEntry handle) entries messages log =
      (Normal messages,
       (log ++ map (fun entry =>
                      Ffi.pactffiVerifierAddCustomHeader handle
                        (fst entry) (snd entry)) entries)%list).
Proof.
  induction entries as [ | [key value] rest IH]; intros messages log; simpl.
  - now rewrite app_nil_r.
  - unfold bind. simpl. rewrite IH. now rewrite <- app_assoc.
Qed.

(** X1.  For the array form of [customProviderHeaders] the native calls are
    those of the entries with exactly one colon, in the order of the
    array, whatever the other entries are; the outcome is FAIL when some
    entry has no colon or several, SUCCESS when none has (also for an empty
    array), and never IGNORE. *)
Theorem custom_header_array_outcome {Selector : Type} (handle : FfiHandle)
  (options : Options Selector) (items : list string) (log : Ffi.Log) :
  customProviderHeaders options = Some (HeaderArray items) ->
  exists r,
    ffiFnMapping.pactffiVerifierAddCustomHeader handle options log =
      (Normal r,
       (log ++ map (header_call handle)
                 (filter (fun item => (count_char ":" item =? 1)%nat) items))%list) /\
    (status r = FAIL <->
       exists item, In item items /\ count_char ":" item <> 1%nat) /\
    (status r = SUCCESS <->
       forall item, In item items -> count_char ":" item = 1%nat) /\
    status r <> IGNORE.
Proof.
  intros Hheaders.
  rewrite (addCustomHeader_array_status handle options items log Hheaders).
  eexists. split.
  - f_equal. f_equal. f_equal. apply filter_ext.
    intros item. apply well_formed_header_one_colon.
  - assert (Hall : forallb well_formed_header items = true <->
                   forall item, In item items -> count_char ":" item = 1%nat).
    { rewrite forallb_forall. split; intros H item Hin.
      - specialize (H item Hin). rewrite well_formed_header_one_colon in H.
        now apply Nat.eqb_eq.
      - rewrite well_formed_header_one_colon. apply Nat.eqb_eq. now apply H. }
    simpl. destruct (forallb well_formed_header items) eqn:E.
    + split; [ | split; [ | discriminate]].
      * split; [discriminate | ]. intros (item & Hin & Hne).
        exfalso. apply Hne. now apply Hall.
      * split; [intros _; now apply Hall | reflexivity].
    + split; [ | split; [ | discriminate]].
      * split; [intros _ | reflexivity].
        assert (Hex : existsb (fun item => negb (well_formed_header item)) items = true).
        { clear Hall Hheaders. induction items as [ | item rest IH]; simpl in *.
          - discriminate.
          - destruct (well_formed_header item); simpl in *; auto. }
        apply existsb_exists in Hex. destruct Hex as (item & Hin & Hbad).
        exists item. split; [exact Hin | ].
        rewrite well_formed_header_one_colon in Hbad.
        intros Heq. rewrite Heq in Hbad. discriminate.
      * split; [discriminate | ]. intros H. apply Hall in H. discriminate.
Qed.

Lemma custom_header_array_outcome_witness :
  exists r,
    ffiFnMapping.pactffiVerifierAddCustomHeader Sample.handle
      (Sample.with_customProviderHeaders ["A: 1"; "bad"; "a:b:c"; "B: 2"]) [] =
      (Normal r,
       [Ffi.pactffiVerifierAddCustomHeader Sample.handle "A" " 1";
        Ffi.pactffiVerifierAddCustomHeader Sample.handle "B" " 2"]) /\
    status r = FAIL.
Proof.
  destruct (custom_header_array_outcome Sample.handle
              (Sample.with_customProviderHeaders ["A: 1"; "bad"; "a:b:c"; "B: 2"])
              ["A: 1"; "bad"; "a:b:c"; "B: 2"] [] eq_refl)
    as (r & Hrun & Hfail & _).
  exists r. split; [exact Hrun | ].
  apply Hfail. exists "bad". split; [simpl; tauto | discriminate].
Defined.

(** The object form runs every entry and succeeds. *)
Lemma addCustomHeader_object_status {Selector : Type} (handle : FfiHandle)
  (options : Options Selector) (entries : list (string * string))
  (log : Ffi.Log) :
  customProviderHeaders options = Some (HeaderObject entries) ->
  ffiFnMapping.pactffiVerifierAddCustomHeader handle options log =
    (Normal {| status := SUCCESS; messages := None |},
     (log ++ map (fun entry =>
                    Ffi.pactffiVerifierAddCustomHeader handle
                      (fst entry) (snd entry)) entries)%list).
Proof.
  intros Hheaders. unfold ffiFnMapping.pactffiVerifierAddCustomHeader.
  rewrite Hheaders. unfold bind.
  now rewrite forEach_addCustomHeaderEntry.
Qed.

(** X2.  For the object form of [customProviderHeaders] every entry gives
    one native call with its key and its value as they are, in the order of
    the entries, and the outcome is SUCCESS, also for an object with no
    entry: nothing is validated. *)
Theorem custom_header_object_outcome {Selector : Type} (handle : FfiHandle)
  (options : Options Selector) (entries : list (string * string))
  (log : Ffi.Log) :
  customProviderHeaders options = Some (HeaderObject entries) ->
  ffiFnMapping.pactffiVerifierAddCustomHeader handle options log =
    (Normal {| status := SUCCESS; messages := None |},
     (log ++ map (fun entry =>
                    Ffi.pactffiVerifierAddCustomHeader handle
                      (fst entry) (snd entry)) entries)%list).
Proof.
  exact (addCustomHeader_object_status handle options entries log).
Qed.

Lemma custom_header_object_outcome_witness :
  ffiFnMapping.pactffiVerifierAddCustomHeader Sample.handle
    (Sample2.with_header_object [("X-Link", "http://x"); ("no colon needed", "")])
    [] =
    (Normal {| status := SUCCESS; messages := None |},
     [Ffi.pactffiVerifierAddCustomHeader Sample.handle "X-Link" "http://x";
      Ffi.pactffiVerifierAddCustomHeader Sample.handle "no colon needed" ""]).
Proof.
  apply (custom_header_object_outcome Sample.handle
           (Sample2.with_header_object
              [("X-Link", "http://x"); ("no colon needed", "")])
           [("X-Link", "http://x"); ("no colon needed", "")] []).
  reflexivity.
Defined.

(** ** Pact locations, one by one *)

(** X3.  The directory-source descriptor handles the locations of
    [pactUrls] one by one and in order.  When [url.parse] returns on all of
    them, its native calls are the calls that each location gives alone,
    one after the other, and so are its messages; the outcome is FAIL with
    these messages when there is one, SUCCESS without [messages] when there
    is none (also for an empty list).  When [url.parse] throws on a
    location, the descriptor throws that error: the calls of the locations
    before it have been issued, no message is returned, and the locations
    after it are not handled. *)
Theorem directory_source_by_location {Selector : Type} (node : Node)
  (handle : FfiHandle) (options : Options Selector) (urls : list string)
  (log : Ffi.Log) :
  pactUrls options = Some urls ->
  (Forall (parses node) urls ->
   exists r,
     ffiFnMapping.pactffiVerifierAddDirectorySource node handle options log =
       (Normal r,
        (log ++ flat_map (location_calls node handle options) urls)%list) /\
     ((status r = FAIL /\
       messages r = Some (flat_map (location_messages node handle options) urls) /\
       flat_map (location_messages node handle options) urls <> []) \/
      (status r = SUCCESS /\ messages r = None /\
       flat_map (location_messages node handle options) urls = []))) /\
  (forall before file after e,
     urls = (before ++ file :: after)%list ->
     Forall (parses node) before ->
     url_parse_protocol node file = Throw e ->
     ffiFnMapping.pactffiVerifierAddDirectorySource node handle options log =
       (Throw e,
        (log ++ flat_map (location_calls node handle options) before)%list)).
Proof.
  intros Hurls. split.
  - exact (addDirectorySource_by_location node handle options urls log Hurls).
  - intros before file after e ->.
    exact (addDirectorySource_throws node handle options before file after e
             log Hurls).
Qed.

Lemma directory_source_by_location_witness :
  (exists r,
     ffiFnMapping.pactffiVerifierAddDirectorySource (Sample.node []) Sample.handle
       (Sample.with_sources
          (Some ["./missing"; "./pacts"; "http://"; "./pacts/consumer-provider.json"])
          None None None) [] =
       (Normal r,
        [Ffi.pactffiVerifierAddDirectorySource Sample.handle "./pacts";
         Ffi.pactffiVerifierAddFileSource Sample.handle
           "./pacts/consumer-provider.json"]) /\
     status r = FAIL /\
     messages r =
       Some ["'./missing' does not exist, or is not a file or directory";
             "http:// is not a valid URL"]) /\
  ffiFnMapping.pactffiVerifierAddDirectorySource (Sample.node []) Sample.handle
    (Sample.with_sources
       (Some ["./missing"; "./pacts"; "http://[::1";
              "./pacts/consumer-provider.json"])
       None None None) [] =
    (Throw (TypeError "Invalid URL"),
     [Ffi.pactffiVerifierAddDirectorySource Sample.handle "./pacts"]).
Proof.
  split.
  - destruct (directory_source_by_location (Sample.node []) Sample.handle
                (Sample.with_sources
                   (Some ["./missing"; "./pacts"; "http://";
                          "./pacts/consumer-provider.json"])
                   None None None)
                ["./missing"; "./pacts"; "http://";
                 "./pacts/consumer-provider.json"]
                [] eq_refl) as (Hreturns & _).
    destruct Hreturns
      as (r & Hrun & [(Hstatus & Hmessages & _) | (_ & _ & Hnone)]).
    + repeat constructor; eexists; reflexivity.
    + exists r. split; [exact Hrun | split; [exact Hstatus | exact Hmessages]].
    + discriminate Hnone.
  - destruct (directory_source_by_location (Sample.node []) Sample.handle
                (Sample.with_sources
                   (Some ["./missing"; "./pacts"; "http://[::1";
                          "./pacts/consumer-provider.json"])
                   None None None)
                ["./missing"; "./pacts"; "http://[::1";
                 "./pacts/consumer-provider.json"]
                [] eq_refl) as (_ & Hthrows).
    apply (Hthrows ["./missing"; "./pacts"] "http://[::1"
             ["./pacts/consumer-provider.json"] (TypeError "Invalid URL")).
    + reflexivity.
    + repeat constructor; eexists; reflexivity.
    + reflexivity.
Defined.

Lemma flat_map_length_le {A B : Type} (f : A -> list B) (g : A -> list string)
  (l : list A) :
  (forall a, length (f a) + length (g a) <= 1)%nat ->
  (length (flat_map f l) + length (flat_map g l) <= length l)%nat.
Proof.
  intros H. induction l as [ | a l IH]; simpl; trivial.
  rewrite !length_app. specialize (H a). lia.
Qed.

Lemma location_gives_one {Selector : Type} (node : Node) (handle : FfiHandle)
  (options : Options Selector) (file : string) :
  (length (location_calls node handle options file) +
   length (location_messages node handle options file) <= 1)%nat.
Proof.
  destruct (location_cases node handle options file)
    as [(c & -> & -> & _) | [(m & -> & -> & _) | (-> & ->)]]; simpl; lia.
Qed.

(** X4.  The directory-source descriptor gives each location at most one
    native call or one message, never both: when it returns, the calls it
    has issued and the messages it returns are together no more than the
    locations; when it throws, which it does when [url.parse] throws on a
    location, the calls it has issued are fewer than the locations. *)
Theorem directory_source_one_per_location {Selector : Type} (node : Node)
  (handle : FfiHandle) (options : Options Selector) (urls : list string)
  (log : Ffi.Log) :
  pactUrls options = Some urls ->
  exists c added,
    ffiFnMapping.pactffiVerifierAddDirectorySource node handle options log =
      (c, (log ++ added)%list) /\
    match c with
    | Normal r =>
        (length added + length (or_empty (messages r)) <= length urls)%nat
    | Throw _ => (length added < length urls)%nat
    end.
Proof.
  intros Hurls.
  destruct (first_throw node urls)
    as [Hparse | (before & file & after & e & -> & Hbefore & Hthrow)].
  - destruct (addDirectorySource_by_location node handle options urls log
                Hurls Hparse) as (r & Hrun & Hstatus).
    exists (Normal r), (flat_map (location_calls node handle options) urls).
    split; [exact Hrun | ].
    assert (Hle := flat_map_length_le (location_calls node handle options)
                     (location_messages node handle options) urls
                     (location_gives_one node handle options)).
    destruct Hstatus as [(_ & -> & _) | (_ & -> & Hnone)]; simpl.
    + exact Hle.
    + lia.
  - exists (Throw e), (flat_map (location_calls node handle options) before).
    split.
    + exact (addDirectorySource_throws node handle options before file after e
               log Hurls Hbefore Hthrow).
    + assert (Hle := flat_map_length_le (location_calls node handle options)
                       (location_messages node handle options) before
                       (location_gives_one node handle options)).
      rewrite length_app. simpl. lia.
Qed.

Lemma directory_source_one_per_location_witness :
  (exists r added,
     ffiFnMapping.pactffiVerifierAddDirectorySource (Sample.node []) Sample.handle
       (Sample.with_sources (Some ["./missing"; "./pacts"; "/dev/null"])
          None None None) [] = (Normal r, added) /\
     (length added + length (or_empty (messages r)) <= 3)%nat) /\
  (exists e added,
     ffiFnMapping.pactffiVerifierAddDirectorySource (Sample.node []) Sample.handle
       (Sample.with_sources (Some ["./pacts"; "http://[::1"; "./missing"])
          None None None) [] = (Throw e, added) /\
     (length added < 3)%nat).
Proof.
  split.
  - destruct (directory_source_one_per_location (Sample.node []) Sample.handle
                (Sample.with_sources (Some ["./missing"; "./pacts"; "/dev/null"])
                   None None None)
                ["./missing"; "./pacts"; "/dev/null"] [] eq_refl)
      as ([r | e] & added & Hrun & Hle); [ | discriminate Hrun].
    exists r, added. split; [exact Hrun | exact Hle].
  - destruct (directory_source_one_per_location (Sample.node []) Sample.handle
                (Sample.with_sources (Some ["./pacts"; "http://[::1"; "./missing"])
                   None None None)
                ["./pacts"; "http://[::1"; "./missing"] [] eq_refl)
      as ([r | e] & added & Hrun & Hle); [discriminate Hrun | ].
    exists e, added. split; [exact Hrun | exact Hle].
Defined.

Lemma location_calls_named {Selector : Type} (node : Node) (handle : FfiHandle)
  (options : Options Selector) (reached urls : list string) :
  incl reached urls ->
  Forall (fun c => exists file, In file urls /\ source_location c = Some file)
    (flat_map (location_calls node handle options) reached).
Proof.
  intros Hincl. apply Forall_forall. intros c Hc. apply in_flat_map in Hc.
  destruct Hc as (file & Hfile & Hc). exists file. split; [auto | ].
  destruct (location_cases node handle options file)
    as [(c' & Hcalls & _ & _ & Hloc & _) | [(m & Hcalls & _) | (Hcalls & _)]];
    rewrite Hcalls in Hc; simpl in Hc; try contradiction.
  destruct Hc as [<- | []]. exact Hloc.
Qed.

(** X5.  Every native call of the directory-source descriptor, whether it
    returns or throws, adds a source (URL, directory or file) whose
    location is one of [pactUrls], as it was given; every message it
    returns is one of the two texts of the code, about one of
    [pactUrls]. *)
Theorem directory_source_names_locations {Selector : Type} (node : Node)
  (handle : FfiHandle) (options : Options Selector) (urls : list string)
  (log : Ffi.Log) :
  pactUrls options = Some urls ->
  exists c added,
    ffiFnMapping.pactffiVerifierAddDirectorySource node handle options log =
      (c, (log ++ added)%list) /\
    Forall (fun c => exists file, In file urls /\ source_location c = Some file)
      added /\
    forall r, c = Normal r ->
      Forall (fun m => exists file, In file urls /\
                (m = file ++ " is not a valid URL" \/
                 m = "'" ++ file ++ "' does not exist, or is not a file or directory"))
        (or_empty (messages r)).
Proof.
  intros Hurls.
  destruct (first_throw node urls)
    as [Hparse | (before & file & after & e & -> & Hbefore & Hthrow)].
  - destruct (addDirectorySource_by_location node handle options urls log
                Hurls Hparse) as (r & Hrun & Hstatus).
    exists (Normal r), (flat_map (location_calls node handle options) urls).
    split; [exact Hrun | split].
    + apply location_calls_named, incl_refl.
    + intros r' [= <-].
      destruct Hstatus as [(_ & -> & _) | (_ & -> & _)]; simpl; [ | constructor].
      apply Forall_forall. intros m Hm. apply in_flat_map in Hm.
      destruct Hm as (file & Hfile & Hm). exists file. split; [exact Hfile | ].
      destruct (location_cases node handle options file)
        as [(c' & _ & Hmsgs & _) | [(m' & _ & Hmsgs & Htext) | (_ & Hmsgs)]];
        rewrite Hmsgs in Hm; simpl in Hm; try contradiction.
      destruct Hm as [<- | []]. exact Htext.
  - exists (Throw e), (flat_map (location_calls node handle options) before).
    split; [ | split].
    + exact (addDirectorySource_throws node handle options before file after e
               log Hurls Hbefore Hthrow).
    + apply location_calls_named. apply incl_appl, incl_refl.
    + intros r [=].
Qed.

Lemma directory_source_names_locations_witness :
  exists c added,
    ffiFnMapping.pactffiVerifierAddDirectorySource (Sample.node []) Sample.handle
      (Sample.with_sources (Some ["./missing"; "./pacts"]) None None None) [] =
      (c, added) /\
    Forall (fun c => exists file, In file ["./missing"; "./pacts"] /\
                                  source_location c = Some file) added /\
    forall r, c = Normal r ->
      Forall (fun m => exists file, In file ["./missing"; "./pacts"] /\
                (m = file ++ " is not a valid URL" \/
                 m = "'" ++ file ++ "' does not exist, or is not a file or directory"))
        (or_empty (messages r)).
Proof.
  destruct (directory_source_names_locations (Sample.node []) Sample.handle
              (Sample.with_sources (Some ["./missing"; "./pacts"]) None None None)
              ["./missing"; "./pacts"] [] eq_refl)
    as (c & added & Hrun & Hcalls & Hmessages).
  exists c, added. split; [exact Hrun | split; [exact Hcalls | exact Hmessages]].
Defined.

(** ** All the descriptors *)

Ltac issued_one :=
  eexists _, [_];
  split; [reflexivity
         | split; [repeat constructor
                  | intros ? [= <-] Hignore; discriminate Hignore]].

Ltac issued_none :=
  eexists _, [];
  rewrite app_nil_r;
  split; [reflexivity | split; [constructor | intros; reflexivity]].

(** Each descriptor appends to the log calls on its handle only, and none
    when it returns IGNORE. *)
Lemma descriptor_appends {Selector : Type} (JSON_stringify : Selector -> string)
  (node : Node) (name : string) (handle : FfiHandle)
  (options : Options Selector) (exec : Exec Ffi.Log FnValidationResult)
  (log : Ffi.Log) :
  descriptor JSON_stringify node name handle options = Some exec ->
  exists c added,
    exec log = (c, (log ++ added)%list) /\
    Forall (fun call => handle_of call = handle) added /\
    (forall r, c = Normal r -> status r = IGNORE -> added = []).
Proof.
  unfold descriptor.
  repeat match goal with
         | |- (if ?b then _ else _) = _ -> _ => destruct b
         end;
    try discriminate; intros [= <-].
  - (* custom header *)
    destruct (customProviderHeaders options) as [[items | entries] | ] eqn:Hh.
    + rewrite (addCustomHeader_array_status handle options items log Hh).
      eexists _, _. split; [reflexivity | split].
      * apply Forall_forall. intros c Hc. apply in_map_iff in Hc.
        destruct Hc as (item & <- & _). reflexivity.
      * intros r [= <-]. simpl.
        destruct (forallb well_formed_header items); discriminate.
    + rewrite (addCustomHeader_object_status handle options entries log Hh).
      eexists _, _. split; [reflexivity | split].
      * apply Forall_forall. intros c Hc. apply in_map_iff in Hc.
        destruct Hc as (entry & <- & _). reflexivity.
      * intros r [= <-]. discriminate.
    + unfold ffiFnMapping.pactffiVerifierAddCustomHeader. rewrite Hh.
      issued_none.
  - (* directory source *)
    destruct (pactUrls options) as [urls | ] eqn:Hurls.
    + assert (Hhandle : forall reached,
                Forall (fun call => handle_of call = handle)
                  (flat_map (location_calls node handle options) reached)).
      { intros reached. apply Forall_forall. intros c Hc.
        apply in_flat_map in Hc. destruct Hc as (file & _ & Hc).
        destruct (location_cases node handle options file)
          as [(c' & Hcalls & _ & Hh & _) | [(m & Hcalls & _) | (Hcalls & _)]];
          rewrite Hcalls in Hc; simpl in Hc; try contradiction.
        destruct Hc as [<- | []]. exact Hh. }
      destruct (first_throw node urls)
        as [Hparse | (before & file & after & e & -> & Hbefore & Hthrow)].
      * destruct (addDirectorySource_by_location node handle options urls log
                    Hurls Hparse) as (r & -> & Hstatus).
        eexists _, _. split; [reflexivity | split; [apply Hhandle | ]].
        intros r' [= <-] Hignore.
        destruct Hstatus as [(Hs & _) | (Hs & _)]; congruence.
      * rewrite (addDirectorySource_throws node handle options before file
                   after e log Hurls Hbefore Hthrow).
        eexists _, _. split; [reflexivity | split; [apply Hhandle | ]].
        intros r [=].
    + unfold ffiFnMapping.pactffiVerifierAddDirectorySource. rewrite Hurls.
      issued_none.
  - (* broker source *)
    unfold ffiFnMapping.pactffiVerifierBrokerSourceWithSelectors.
    destruct (or_string _ _) as [url | ]; [ | issued_none].
    destruct (truthy_string (Some url) && truthy_string (provider options));
      [issued_one | issued_none].
  - (* consumer filters *)
    unfold ffiFnMapping.pactffiVerifierSetConsumerFilters.
    destruct (consumerFilters options) as [filters | ]; [ | issued_none].
    destruct (0 <? length filters)%nat; [issued_one | issued_none].
  - (* filter info *)
    unfold ffiFnMapping.pactffiVerifierSetFilterInfo.
    destruct (_ || _); [issued_one | issued_none].
  - (* provider info *)
    unfold ffiFnMapping.pactffiVerifierSetProviderInfo.
    destruct (new_URL node (providerBaseUrl options)); [issued_one | ].
    eexists _, []. rewrite app_nil_r.
    split; [reflexivity | split; [constructor | intros r [=]]].
  - (* provider state *)
    unfold ffiFnMapping.pactffiVerifierSetProviderState.
    destruct (providerStatesSetupUrl options) as [url | ]; [ | issued_none].
    destruct (truthy_string (Some url)); [issued_one | issued_none].
  - (* publish options *)
    unfold ffiFnMapping.pactffiVerifierSetPublishOptions.
    destruct (providerVersion options) as [version | ]; [ | issued_none].
    destruct (_ && _); [issued_one | issued_none].
  - (* verification options *)
    unfold ffiFnMapping.pactffiVerifierSetVerificationOptions.
    destruct (_ || _); [issued_one | issued_none].
Qed.

(** X6.  Whichever of the nine descriptors runs, an IGNORE outcome comes
    with no native call: the log of calls is as it was before. *)
Theorem ignore_issues_no_call {Selector : Type}
  (JSON_stringify : Selector -> string) (node : Node) (name : string)
  (handle : FfiHandle) (options : Options Selector)
  (exec : Exec Ffi.Log FnValidationResult) (log log' : Ffi.Log)
  (r : FnValidationResult) :
  descriptor JSON_stringify node name handle options = Some exec ->
  exec log = (Normal r, log') ->
  status r = IGNORE ->
  log' = log.
Proof.
  intros Hname Hrun Hignore.
  destruct (descriptor_appends JSON_stringify node name handle options exec log
              Hname) as (c & added & Hexec & _ & Hnone).
  rewrite Hexec in Hrun. injection Hrun as -> <-.
  rewrite (Hnone r eq_refl Hignore). apply app_nil_r.
Qed.

Lemma ignore_issues_no_call_witness :
  snd (ffiFnMapping.pactffiVerifierSetPublishOptions (Sample.node []) Sample.handle
         (Sample.with_publish (Some true) None None None)
         [Ffi.pactffiVerifierSetProviderInfo Sample.handle "P" "http" "localhost"
            (JsInt 8080) "/"]) =
    [Ffi.pactffiVerifierSetProviderInfo Sample.handle "P" "http" "localhost"
       (JsInt 8080) "/"].
Proof.
  apply (ignore_issues_no_call Sample.JSON_stringify (Sample.node [])
           "pactffiVerifierSetPublishOptions" Sample.handle
           (Sample.with_publish (Some true) None None None)
           (ffiFnMapping.pactffiVerifierSetPublishOptions (Sample.node [])
              Sample.handle (Sample.with_publish (Some true) None None None))
           _ _ {| status := IGNORE; messages := None |});
    reflexivity.
Defined.

(** X7.  Whichever of the nine descriptors runs, and whether it returns or
    throws, it keeps the calls issued before it and appends only calls on
    the handle it was given. *)
Theorem descriptors_keep_log_and_handle {Selector : Type}
  (JSON_stringify : Selector -> string) (node : Node) (name : string)
  (handle : FfiHandle) (options : Options Selector)
  (exec : Exec Ffi.Log FnValidationResult) (log : Ffi.Log) :
  descriptor JSON_stringify node name handle options = Some exec ->
  exists added,
    snd (exec log) = (log ++ added)%list /\
    Forall (fun call => handle_of call = handle) added.
Proof.
  intros Hname.
  destruct (descriptor_appends JSON_stringify node name handle options exec log
              Hname) as (c & added & Hexec & Hhandle & _).
  exists added. rewrite Hexec. split; [reflexivity | exact Hhandle].
Qed.

Lemma descriptors_keep_log_and_handle_witness :
  exists added,
    snd (ffiFnMapping.pactffiVerifierAddDirectorySource (Sample.node [])
           Sample.handle
           (Sample.with_sources (Some ["./pacts"; "./missing"]) None None None)
           [Ffi.pactffiVerifierSetProviderInfo Sample.handle "P" "http"
              "localhost" (JsInt 8080) "/"]) =
      ([Ffi.pactffiVerifierSetProviderInfo Sample.handle "P" "http" "localhost"
          (JsInt 8080) "/"] ++ added)%list /\
    Forall (fun call => handle_of call = Sample.handle) added.
Proof.
  apply (descriptors_keep_log_and_handle Sample.JSON_stringify (Sample.node [])
           "pactffiVerifierAddDirectorySource" Sample.handle
           (Sample.with_sources (Some ["./pacts"; "./missing"]) None None None)).
  reflexivity.
Defined.

(** ** The descriptors without a loop *)

Lemma nothing_appended {A : Type} (log added : list A) :
  log = (log ++ added)%list -> added = [].
Proof.
  intros H. rewrite <- (app_nil_r log) in H at 1.
  apply app_inv_head in H. now symmetry.
Qed.

(** X8.  The consumer-filters descriptor issues one SetConsumerFilters
    call, with the list as it is, when [consumerFilters] has at least one
    element; for an empty list, as for no list, it returns IGNORE and
    issues nothing. *)
Theorem consumer_filters_applicability {Selector : Type} (handle : FfiHandle)
  (options : Options Selector) (log : Ffi.Log) :
  exists r added,
    ffiFnMapping.pactffiVerifierSetConsumerFilters handle options log =
      (Normal r, (log ++ added)%list) /\
    (forall filters, consumerFilters options = Some filters -> filters <> [] ->
       status r = SUCCESS /\
       added = [Ffi.pactffiVerifierSetConsumerFilters handle filters]) /\
    (consumerFilters options = Some [] \/ consumerFilters options = None ->
       status r = IGNORE /\ added = []).
Proof.
  unfold ffiFnMapping.pactffiVerifierSetConsumerFilters.
  destruct (consumerFilters options) as [[ | f filters] | ].
  - eexists _, []. rewrite app_nil_r. split; [reflexivity | split].
    + intros filters [= <-] H. contradiction.
    + intros _. split; reflexivity.
  - eexists _, [_]. split; [reflexivity | split].
    + intros filters' [= <-] _. split; reflexivity.
    + intros [[=] | [=]].
  - eexists _, []. rewrite app_nil_r. split; [reflexivity | split].
    + intros filters [=].
    + intros _. split; reflexivity.
Qed.

Lemma consumer_filters_applicability_witness :
  exists r added,
    ffiFnMapping.pactffiVerifierSetConsumerFilters Sample.handle
      (Sample2.with_filters_and_timeout (Some []) None None) [] =
      (Normal r, added) /\
    status r = IGNORE /\ added = [].
Proof.
  destruct (consumer_filters_applicability Sample.handle
              (Sample2.with_filters_and_timeout (Some []) None None) [])
    as (r & added & Hrun & _ & Hempty).
  exists r, added. split; [exact Hrun | ].
  apply Hempty. left. reflexivity.
Defined.

(** X9.  The filter-info descriptor reads the environment only.  It issues
    one SetFilterInfo call when one of PACT_DESCRIPTION,
    PACT_PROVIDER_STATE and PACT_PROVIDER_NO_STATE is a non-empty string,
    and returns IGNORE with no call otherwise.  The call carries the first
    two as they are (the empty string when unset) and a flag that is true
    when PACT_PROVIDER_NO_STATE is any non-empty string, [false] and [0]
    included. *)
Theorem filter_info_from_environment (node : Node) (handle : FfiHandle)
  (log : Ffi.Log) :
  exists r added,
    ffiFnMapping.pactffiVerifierSetFilterInfo node handle log =
      (Normal r, (log ++ added)%list) /\
    (status r = SUCCESS <->
       is_set (process_env node "PACT_DESCRIPTION") \/
       is_set (process_env node "PACT_PROVIDER_STATE") \/
       is_set (process_env node "PACT_PROVIDER_NO_STATE")) /\
    (status r = SUCCESS ->
       exists description state noState,
         added = [Ffi.pactffiVerifierSetFilterInfo handle description state
                    noState] /\
         description =
           match process_env node "PACT_DESCRIPTION" with
           | Some s => s
           | None => ""
           end /\
         state =
           match process_env node "PACT_PROVIDER_STATE" with
           | Some s => s
           | None => ""
           end /\
         (noState = true <-> is_set (process_env node "PACT_PROVIDER_NO_STATE"))) /\
    (status r <> SUCCESS -> status r = IGNORE /\ added = []).
Proof.
  assert (Hdefault : forall v, or_default v "" =
                               match v with Some s => s | None => "" end).
  { intros [s | ]; simpl; trivial.
    destruct (String.eqb_spec s ""); congruence. }
  pose proof (truthy_string_is_set (process_env node "PACT_DESCRIPTION")) as H1.
  pose proof (truthy_string_is_set (process_env node "PACT_PROVIDER_STATE")) as H2.
  pose proof (truthy_string_is_set (process_env node "PACT_PROVIDER_NO_STATE"))
    as H3.
  unfold ffiFnMapping.pactffiVerifierSetFilterInfo.
  destruct (truthy_string (process_env node "PACT_DESCRIPTION")
            || truthy_string (process_env node "PACT_PROVIDER_STATE")
            || truthy_string (process_env node "PACT_PROVIDER_NO_STATE")) eqn:E.
  - eexists _, [_]. split; [reflexivity | ]. simpl.
    split; [ | split].
    + split; [intros _ | reflexivity].
      apply orb_true_iff in E. destruct E as [E | E]; [ | tauto].
      apply orb_true_iff in E. tauto.
    + intros _. eexists _, _, _. split; [reflexivity | ].
      rewrite !Hdefault. repeat split; trivial; apply H3.
    + intros H. now destruct H.
  - eexists _, []. rewrite app_nil_r. split; [reflexivity | ]. simpl.
    apply orb_false_iff in E. destruct E as [E E3].
    apply orb_false_iff in E. destruct E as [E1 E2].
    split; [ | split].
    + split; [discriminate | ]. rewrite E1 in H1. rewrite E2 in H2.
      rewrite E3 in H3. intuition discriminate.
    + discriminate.
    + intros _. split; reflexivity.
Qed.

Lemma filter_info_from_environment_witness :
  exists r added,
    ffiFnMapping.pactffiVerifierSetFilterInfo
      (Sample.node [("PACT_PROVIDER_NO_STATE", "false")]) Sample.handle [] =
      (Normal r, added) /\
    exists description state noState,
      added = [Ffi.pactffiVerifierSetFilterInfo Sample.handle description state
                 noState] /\
      description = "" /\ state = "" /\ noState = true.
Proof.
  destruct (filter_info_from_environment
              (Sample.node [("PACT_PROVIDER_NO_STATE", "false")]) Sample.handle [])
    as (r & added & Hrun & Hsuccess & Hcall & _).
  exists r, added. split; [exact Hrun | ].
  assert (Hset : is_set (Some "false"))
    by (exists "false"; split; [reflexivity | discriminate]).
  assert (Hs : status r = SUCCESS).
  { apply Hsuccess. right. right. exact Hset. }
  destruct (Hcall Hs) as (description & state & noState & Hadded & Hd & Hst & Hn).
  exists description, state, noState.
  split; [exact Hadded | split; [exact Hd | split; [exact Hst | ]]].
  apply Hn. exact Hset.
Defined.

(** X10.  The verification-options descriptor issues one call when
    [disableSslVerification] is true or [timeout] is a number other than 0
    and NaN, and returns IGNORE with no call otherwise.  The timeout of the
    call is the one given, and 30000 when none is given or it is 0 or NaN:
    a timeout of 0 cannot be asked for. *)
Theorem verification_options_timeout {Selector : Type} (handle : FfiHandle)
  (options : Options Selector) (log : Ffi.Log) :
  exists r added,
    ffiFnMapping.pactffiVerifierSetVerificationOptions handle options log =
      (Normal r, (log ++ added)%list) /\
    (status r = SUCCESS <->
       disableSslVerification options = Some true \/
       exists t, timeout options = Some t /\ t <> JsInt 0 /\ t <> NaN) /\
    (status r = SUCCESS ->
       exists disableSsl t,
         added = [Ffi.pactffiVerifierSetVerificationOptions handle disableSsl t] /\
         (disableSsl = true <-> disableSslVerification options = Some true) /\
         (forall t', timeout options = Some t' -> t' <> JsInt 0 -> t' <> NaN ->
                     t = t') /\
         (timeout options = None \/ timeout options = Some (JsInt 0) \/
          timeout options = Some NaN -> t = JsInt 30000)) /\
    (status r <> SUCCESS -> status r = IGNORE /\ added = []).
Proof.
  assert (Htimeout : truthy_number (timeout options) = true <->
                     exists t, timeout options = Some t /\ t <> JsInt 0 /\ t <> NaN).
  { destruct (timeout options) as [[z | | ] | ]; simpl.
    - destruct (Z.eqb_spec z 0) as [-> | Hz]; simpl.
      + split; [discriminate | ]. intros (t & [= <-] & H & _). now destruct H.
      + split; [intros _ | reflexivity].
        exists (JsInt z). repeat split; congruence.
    - split; [intros _ | reflexivity].
      exists JsNonInteger. repeat split; discriminate.
    - split; [discriminate | ]. intros (t & [= <-] & _ & H). now destruct H.
    - split; [discriminate | ]. intros (t & [=] & _). }
  assert (Hssl : truthy_boolean (disableSslVerification options) = true <->
                 disableSslVerification options = Some true).
  { destruct (disableSslVerification options) as [[ | ] | ]; simpl;
      intuition congruence. }
  unfold ffiFnMapping.pactffiVerifierSetVerificationOptions.
  destruct (truthy_boolean (disableSslVerification options)
            || truthy_number (timeout options)) eqn:E.
  - eexists _, [_]. split; [reflexivity | ]. simpl.
    split; [ | split].
    + split; [intros _ | reflexivity].
      apply orb_true_iff in E. tauto.
    + intros _. eexists _, _. split; [reflexivity | ].
      split; [exact Hssl | split].
      * intros t' Ht' H0 Hnan. rewrite Ht'.
        destruct t' as [z | | ]; simpl; trivial.
        -- destruct (Z.eqb_spec z 0); [subst; now destruct H0 | reflexivity].
        -- now destruct Hnan.
      * intros [-> | [-> | ->]]; reflexivity.
    + intros H. now destruct H.
  - eexists _, []. rewrite app_nil_r. split; [reflexivity | ]. simpl.
    apply orb_false_iff in E. destruct E as [E1 E2].
    split; [ | split].
    + split; [discriminate | ].
      intros [H | H]; [apply Hssl in H | apply Htimeout in H]; congruence.
    + discriminate.
    + intros _. split; reflexivity.
Qed.

Lemma verification_options_timeout_witness :
  (exists r added,
     ffiFnMapping.pactffiVerifierSetVerificationOptions Sample.handle
       (Sample2.with_filters_and_timeout None (Some true) (Some (JsInt 0))) [] =
       (Normal r, added) /\
     exists disableSsl t,
       added = [Ffi.pactffiVerifierSetVerificationOptions Sample.handle
                  disableSsl t] /\
       t = JsInt 30000).
Proof.
  destruct (verification_options_timeout Sample.handle
              (Sample2.with_filters_and_timeout None (Some true) (Some (JsInt 0)))
              [])
    as (r & added & Hrun & Hsuccess & Hcall & _).
  exists r, added. split; [exact Hrun | ].
  assert (Hs : status r = SUCCESS) by (apply Hsuccess; left; reflexivity).
  destruct (Hcall Hs) as (disableSsl & t & Hadded & _ & _ & Hdefault).
  exists disableSsl, t. split; [exact Hadded | ].
  apply Hdefault. right. left. reflexivity.
Defined.

(** ** The broker source *)

(** X11.  The broker-source descriptor issues its one call exactly when a
    broker URL is set (option or PACT_BROKER_BASE_URL) and a provider name
    is set; a broker URL without a provider name gives IGNORE and no call.
    In the call every optional argument that is absent is passed as
    [false], the empty string or the empty list, and the selectors are
    serialised one by one, as many and in the order given. *)
Theorem broker_source_applicability {Selector : Type}
  (JSON_stringify : Selector -> string) (node : Node) (handle : FfiHandle)
  (options : Options Selector) (log : Ffi.Log) :
  exists r added,
    ffiFnMapping.pactffiVerifierBrokerSourceWithSelectors JSON_stringify node
      handle options log = (Normal r, (log ++ added)%list) /\
    (status r = SUCCESS <->
       (is_set (pactBrokerUrl options) \/
        is_set (process_env node "PACT_BROKER_BASE_URL")) /\
       is_set (provider options)) /\
    (status r = SUCCESS ->
       exists url username password token pending wip tags branch selectors
              consumerTags,
         added = [Ffi.pactffiVerifierBrokerSourceWithSelectors handle url
                    username password token pending wip tags branch selectors
                    consumerTags] /\
         pending = match enablePending options with Some b => b | None => false end /\
         wip = match includeWipPactsSince options with Some s => s | None => "" end /\
         tags = match providerVersionTags options with Some l => l | None => [] end /\
         consumerTags =
           match consumerVersionTags options with Some l => l | None => [] end /\
         selectors =
           match consumerVersionSelectors options with
           | Some l => map JSON_stringify l
           | None => []
           end) /\
    (status r <> SUCCESS -> status r = IGNORE /\ added = []).
Proof.
  assert (Hdefault : forall v, or_default v "" =
                               match v with Some s => s | None => "" end).
  { intros [s | ]; simpl; trivial.
    destruct (String.eqb_spec s ""); congruence. }
  assert (Hurl : truthy_string
                   (or_string (pactBrokerUrl options)
                      (process_env node "PACT_BROKER_BASE_URL")) = true <->
                 is_set (pactBrokerUrl options) \/
                 is_set (process_env node "PACT_BROKER_BASE_URL")).
  { rewrite <- !truthy_string_is_set. unfold or_string.
    destruct (truthy_string (pactBrokerUrl options)) eqn:E.
    - rewrite E. tauto.
    - intuition discriminate. }
  pose proof (truthy_string_is_set (provider options)) as Hprov.
  unfold ffiFnMapping.pactffiVerifierBrokerSourceWithSelectors.
  destruct (or_string (pactBrokerUrl options)
              (process_env node "PACT_BROKER_BASE_URL")) as [url | ].
  - destruct (truthy_string (Some url) && truthy_string (provider options)) eqn:E.
    + apply andb_true_iff in E. destruct E as [E1 E2].
      eexists _, [_]. split; [reflexivity | ]. simpl.
      split; [ | split].
      * split; [intros _ | reflexivity]. tauto.
      * intros _. eexists _, _, _, _, _, _, _, _, _, _.
        split; [reflexivity | ]. rewrite Hdefault.
        unfold or_false, truthy_boolean, or_empty, ffiFnMapping.objArrayToStringArray.
        repeat split.
      * intros H. now destruct H.
    + eexists _, []. rewrite app_nil_r. split; [reflexivity | ]. simpl.
      split; [ | split].
      * split; [discriminate | ]. intros [H1 H2].
        apply Hurl in H1. apply Hprov in H2. rewrite H1, H2 in E. discriminate.
      * discriminate.
      * intros _. split; reflexivity.
  - eexists _, []. rewrite app_nil_r. split; [reflexivity | ]. simpl.
    split; [ | split].
    + split; [discriminate | ]. intros [H1 _]. apply Hurl in H1. discriminate.
    + discriminate.
    + intros _. split; reflexivity.
Qed.

Lemma broker_source_applicability_witness :
  (exists r added,
     ffiFnMapping.pactffiVerifierBrokerSourceWithSelectors Sample.JSON_stringify
       (Sample.node []) Sample.handle Sample2.with_broker_and_publish [] =
       (Normal r, added) /\
     exists url username password token pending wip tags branch selectors
            consumerTags,
       added = [Ffi.pactffiVerifierBrokerSourceWithSelectors Sample.handle url
                  username password token pending wip tags branch selectors
                  consumerTags] /\
       pending = false /\ wip = "" /\ tags = ["prod"] /\ consumerTags = [] /\
       selectors = ["{}"; "{}"]).
Proof.
  destruct (broker_source_applicability Sample.JSON_stringify (Sample.node [])
              Sample.handle Sample2.with_broker_and_publish [])
    as (r & added & Hrun & Hsuccess & Hcall & _).
  exists r, added. split; [exact Hrun | ].
  assert (Hs : status r = SUCCESS).
  { apply Hsuccess. split.
    - left. exists "https://broker.example". split; [reflexivity | discriminate].
    - exists "P". split; [reflexivity | discriminate]. }
  destruct (Hcall Hs)
    as (url & username & password & token & pending & wip & tags & branch
        & selectors & consumerTags & Hadded & Hp & Hw & Ht & Hc & Hsel).
  exists url, username, password, token, pending, wip, tags, branch, selectors,
    consumerTags.
  repeat split; assumption.
Defined.

(** X12.  When the publish-options and the broker-source descriptors both
    issue their call for the same options, the two calls carry the same
    provider version tags and the same provider branch. *)
Theorem publish_and_broker_agree {Selector : Type}
  (JSON_stringify : Selector -> string) (node : Node)
  (handle handle' : FfiHandle) (options : Options Selector)
  (log log' : Ffi.Log) (r r' : FnValidationResult)
  (version buildUrl branch url username password token wip branch' : string)
  (tags tags' selectors consumerTags : list string) (pending : bool) :
  ffiFnMapping.pactffiVerifierSetPublishOptions node handle options log =
    (Normal r,
     (log ++ [Ffi.pactffiVerifierSetPublishOptions handle version buildUrl tags
                branch])%list) ->
  ffiFnMapping.pactffiVerifierBrokerSourceWithSelectors JSON_stringify node
    handle' options log' =
    (Normal r',
     (log' ++ [Ffi.pactffiVerifierBrokerSourceWithSelectors handle' url username
                 password token pending wip tags' branch' selectors
                 consumerTags])%list) ->
  tags = tags' /\ branch = branch'.
Proof.
  unfold ffiFnMapping.pactffiVerifierSetPublishOptions,
    ffiFnMapping.pactffiVerifierBrokerSourceWithSelectors.
  intros Hpublish Hbroker.
  destruct (providerVersion options) as [v | ];
    [destruct (_ && _) | ];
    try (injection Hpublish as _ Hlog; apply nothing_appended in Hlog;
         discriminate Hlog).
  destruct (or_string (pactBrokerUrl options) _) as [u | ];
    [destruct (_ && _) | ];
    try (injection Hbroker as _ Hlog; apply nothing_appended in Hlog;
         discriminate Hlog).
  injection Hpublish as _ Hlog. apply app_inv_head in Hlog.
  injection Hbroker as _ Hlog'. apply app_inv_head in Hlog'.
  injection Hlog as _ _ <- <-. injection Hlog' as _ _ _ _ _ _ <- <- _ _.
  split; reflexivity.
Qed.

Lemma publish_and_broker_agree_witness :
  ffiFnMapping.pactffiVerifierSetPublishOptions (Sample.node []) Sample.handle
    Sample2.with_broker_and_publish [] =
    (Normal {| status := SUCCESS; messages := None |},
     [Ffi.pactffiVerifierSetPublishOptions Sample.handle "1.0.0" "" ["prod"]
        "main"]) /\
  ffiFnMapping.pactffiVerifierBrokerSourceWithSelectors Sample.JSON_stringify
    (Sample.node []) Sample.handle Sample2.with_broker_and_publish [] =
    (Normal {| status := SUCCESS; messages := None |},
     [Ffi.pactffiVerifierBrokerSourceWithSelectors Sample.handle
        "https://broker.example" "" "" "" false "" ["prod"] "main"
        ["{}"; "{}"] []]) /\
  ["prod"] = ["prod"] /\ "main" = "main".
Proof.
  split; [reflexivity | split; [reflexivity | ]].
  apply (publish_and_broker_agree Sample.JSON_stringify (Sample.node [])
           Sample.handle Sample.handle Sample2.with_broker_and_publish [] []
           {| status := SUCCESS; messages := None |}
           {| status := SUCCESS; messages := None |}
           "1.0.0" "" "main" "https://broker.example" "" "" "" "" "main"
           ["prod"] ["prod"] ["{}"; "{}"] [] false);
    reflexivity.
Defined.

(** ** The server factory, further *)

(** A server that the factory returns is built from the options after the
    lines on [ssl]. *)
Lemma module_exports_returns (rt : server.Runtime)
  (options : option server.ServerOptions) (fs fs' : server.FileSystem)
  (srv : server.Server) :
  server.module_exports rt options fs = (Normal srv, fs') ->
  srv = construct (force_ssl (defaults rt options)) /\
  check_port rt (defaults rt options) fs = (Normal tt, fs) /\
  check_spec rt (force_ssl (defaults rt options)) fs = (Normal tt, fs).
Proof.
  rewrite module_exports_steps. cbv zeta. intros Hrun.
  destruct (check_port_cases rt (defaults rt options) fs)
    as [[_ Hp] | [_ (e & Hp)]];
    [ | rewrite (bind_throw _ _ _ _ _ Hp) in Hrun; discriminate].
  rewrite (bind_normal _ _ _ _ _ Hp) in Hrun.
  destruct (check_ssl_pair_cases (defaults rt options) fs)
    as [[_ Hpair] | [_ Hpair]];
    [rewrite (bind_throw _ _ _ _ _ Hpair) in Hrun; discriminate | ].
  rewrite (bind_normal _ _ _ _ _ Hpair) in Hrun.
  destruct (check_exists_cases rt (server.sslcert (defaults rt options))
              "Custom ssl certificate not found at path: " fs)
    as [[_ Hc] | (cert & _ & _ & [[_ Hc] | [_ Hc]])];
    try (rewrite (bind_throw _ _ _ _ _ Hc) in Hrun; discriminate);
    rewrite (bind_normal _ _ _ _ _ Hc) in Hrun;
    (destruct (check_exists_cases rt (server.sslkey (defaults rt options))
                 "Custom ssl key not found at path: " fs)
       as [[_ Hk] | (key & _ & _ & [[_ Hk] | [_ Hk]])];
     try (rewrite (bind_throw _ _ _ _ _ Hk) in Hrun; discriminate);
     rewrite (bind_normal _ _ _ _ _ Hk) in Hrun;
     (destruct (check_spec_cases rt (force_ssl (defaults rt options)) fs)
        as [[_ Hs] | [_ (e & Hs)]];
      [ | rewrite (bind_throw _ _ _ _ _ Hs) in Hrun; discriminate];
      split; [exact (construct_after_checks _ _ _ _ _ _ _ _ _ Hrun)
             | split; [exact Hp | exact Hs]])).
Qed.

(** X13.  A server that the factory returns has its options filled in: the
    host is the one given, or [localhost] when none or the empty string was
    given, and so never empty; the directory is the one given, resolved, or
    the current directory; [cors] is a boolean, true only when [true] was
    given; the port, the log file, the specification version, the names and
    the certificate paths are those given; and it is not running. *)
Theorem factory_fills_in_defaults (rt : server.Runtime)
  (options : option server.ServerOptions) (fs fs' : server.FileSystem)
  (srv : server.Server) :
  let o := match options with Some o => o | None => server.empty_options end in
  server.module_exports rt options fs = (Normal srv, fs') ->
  (exists h, server.host (server._options srv) = Some h /\ h <> "" /\
             (forall g, server.host o = Some g -> g <> "" -> h = g) /\
             (~ is_set (server.host o) -> h = "localhost")) /\
  server.dir (server._options srv) = Some (pact_dir rt o) /\
  (exists b, server.cors (server._options srv) = Some b /\
             (b = true <-> server.cors o = Some true)) /\
  server.port (server._options srv) = server.port o /\
  server.log (server._options srv) = server.log o /\
  server.spec (server._options srv) = server.spec o /\
  server.consumer (server._options srv) = server.consumer o /\
  server.provider (server._options srv) = server.provider o /\
  server.sslcert (server._options srv) = server.sslcert o /\
  server.sslkey (server._options srv) = server.sslkey o /\
  server._running srv = false.
Proof.
  intros o Hrun. apply module_exports_returns in Hrun.
  destruct Hrun as (-> & _ & _).
  assert (Hfields :
    forall d, let s := construct (force_ssl d) in
      server.host (server._options s) = server.host d /\
      server.dir (server._options s) = server.dir d /\
      server.cors (server._options s) = server.cors d /\
      server.port (server._options s) = server.port d /\
      server.log (server._options s) = server.log d /\
      server.spec (server._options s) = server.spec d /\
      server.consumer (server._options s) = server.consumer d /\
      server.provider (server._options s) = server.provider d /\
      server.sslcert (server._options s) = server.sslcert d /\
      server.sslkey (server._options s) = server.sslkey d /\
      server._running s = false).
  { intros d. unfold force_ssl. destruct (_ && _); repeat split. }
  destruct (Hfields (defaults rt options))
    as (-> & -> & -> & -> & -> & -> & -> & -> & -> & -> & ->).
  repeat split.
  - exists (or_default (server.host o) "localhost").
    split; [reflexivity | ]. unfold or_default.
    destruct (server.host o) as [g | ].
    + destruct (String.eqb_spec g "") as [-> | Hg].
      * repeat split; try discriminate.
        intros g' [= <-] H. now destruct H.
      * repeat split; trivial.
        -- intros g' [= <-] _. reflexivity.
        -- intros H. exfalso. apply H. exists g. auto.
    + repeat split; try discriminate.
  - exists (or_false (server.cors o)). split; [reflexivity | ].
    destruct (server.cors o) as [[ | ] | ]; simpl; intuition congruence.
Qed.

Lemma factory_fills_in_defaults_witness :
  exists srv,
    server.module_exports Sample.runtime
      (Some (Sample2.server_options_in (Some "") None None))
      Sample.file_system = (Normal srv, Sample.file_system) /\
    server.host (server._options srv) = Some "localhost" /\
    server.dir (server._options srv) = Some "/home/pact".
Proof.
  assert (Hrun : exists srv,
             server.module_exports Sample.runtime
               (Some (Sample2.server_options_in (Some "") None None))
               Sample.file_system = (Normal srv, Sample.file_system))
    by (exists (construct
                  (force_ssl
                     (defaults Sample.runtime
                        (Some (Sample2.server_options_in (Some "") None None)))));
        reflexivity).
  destruct Hrun as (srv & Hrun). exists srv. split; [exact Hrun | ].
  destruct (factory_fills_in_defaults Sample.runtime
              (Some (Sample2.server_options_in (Some "") None None))
              Sample.file_system Sample.file_system srv Hrun)
    as ((h & Hhost & _ & _ & Hlocal) & Hdir & _).
  split; [ | exact Hdir].
  rewrite Hhost. f_equal. apply Hlocal.
  intros (s & [= <-] & Hs). now destruct Hs.
Defined.

(** X14.  The [ssl] flag of a server that the factory returns is true
    exactly when the caller passed [ssl: true] or supplied both a
    certificate and a key; otherwise it is false, never undefined. *)
Theorem factory_ssl_flag (rt : server.Runtime)
  (options : option server.ServerOptions) (fs fs' : server.FileSystem)
  (srv : server.Server) :
  let o := match options with Some o => o | None => server.empty_options end in
  server.module_exports rt options fs = (Normal srv, fs') ->
  exists b,
    server.ssl (server._options srv) = Some b /\
    (b = true <->
       server.ssl o = Some true \/
       (is_set (server.sslcert o) /\ is_set (server.sslkey o))).
Proof.
  intros o Hrun. apply module_exports_returns in Hrun.
  destruct Hrun as (-> & _ & _).
  pose proof (truthy_string_is_set (server.sslcert o)) as Hc.
  pose proof (truthy_string_is_set (server.sslkey o)) as Hk.
  unfold force_ssl.
  change (server.sslcert (defaults rt options)) with (server.sslcert o).
  change (server.sslkey (defaults rt options)) with (server.sslkey o).
  destruct (truthy_string (server.sslcert o)), (truthy_string (server.sslkey o));
    simpl.
  - exists true. split; [reflexivity | ]. tauto.
  - exists (or_false (server.ssl o)). split; [reflexivity | ].
    destruct (server.ssl o) as [[ | ] | ]; simpl; intuition congruence.
  - exists (or_false (server.ssl o)). split; [reflexivity | ].
    destruct (server.ssl o) as [[ | ] | ]; simpl; intuition congruence.
  - exists (or_false (server.ssl o)). split; [reflexivity | ].
    destruct (server.ssl o) as [[ | ] | ]; simpl; intuition congruence.
Qed.

Lemma factory_ssl_flag_witness :
  exists srv b,
    server.module_exports Sample.runtime
      (Some (Sample.server_options None None None))
      Sample.file_system = (Normal srv, Sample.file_system) /\
    server.ssl (server._options srv) = Some b /\ b <> true.
Proof.
  assert (Hrun : exists srv,
             server.module_exports Sample.runtime
               (Some (Sample.server_options None None None))
               Sample.file_system = (Normal srv, Sample.file_system))
    by (exists (construct
                  (force_ssl
                     (defaults Sample.runtime
                        (Some (Sample.server_options None None None)))));
        reflexivity).
  destruct Hrun as (srv & Hrun).
  destruct (factory_ssl_flag Sample.runtime
              (Some (Sample.server_options None None None))
              Sample.file_system Sample.file_system srv Hrun)
    as (b & Hssl & Hiff).
  exists srv, b. split; [exact Hrun | split; [exact Hssl | ]].
  intros Hb. apply Hiff in Hb.
  destruct Hb as [[=] | [(s & [=] & _) _]].
Defined.

Lemma check_port_throws (rt : server.Runtime) (o : server.ServerOptions)
  (fs fs' : server.FileSystem) (e : JsError) :
  check_port rt o fs = (Throw e, fs') ->
  exists p name,
    server.port o = Some p /\ p <> JsInt 0 /\ p <> NaN /\
    e = CheckTypesError name /\
    (server.checkTypes_number rt p = false \/
     server.checkTypes_integer rt p = false \/
     server.checkTypes_positive rt p = false \/
     server.checkTypes_inRange rt p 0 65535 = false).
Proof.
  unfold check_port, server.when.
  destruct (server.port o) as [p | ]; [ | discriminate].
  destruct (truthy_number (Some p)) eqn:Htruthy; [ | discriminate].
  intros Hthrow. exists p.
  assert (H0 : p <> JsInt 0) by (intros ->; discriminate).
  assert (Hnan : p <> NaN) by (intros ->; discriminate).
  unfold bind, server.assert in Hthrow.
  destruct (server.checkTypes_number rt p);
    [ | injection Hthrow as <- _; eexists; repeat split; auto].
  destruct (server.checkTypes_integer rt p);
    [ | injection Hthrow as <- _; eexists; repeat split; auto].
  destruct (server.checkTypes_positive rt p);
    [ | injection Hthrow as <- _; eexists; repeat split; auto].
  destruct (server.checkTypes_inRange rt p 0 65535);
    [discriminate | injection Hthrow as <- _; eexists; repeat split; auto].
Qed.

Lemma check_spec_throws (rt : server.Runtime) (o : server.ServerOptions)
  (fs fs' : server.FileSystem) (e : JsError) :
  check_spec rt o fs = (Throw e, fs') ->
  exists v name,
    server.spec o = Some v /\ v <> JsInt 0 /\ v <> NaN /\
    e = CheckTypesError name /\
    (server.checkTypes_number rt v = false \/
     server.checkTypes_integer rt v = false \/
     server.checkTypes_positive rt v = false).
Proof.
  unfold check_spec, server.when.
  destruct (server.spec o) as [v | ]; [ | discriminate].
  destruct (truthy_number (Some v)) eqn:Htruthy; [ | discriminate].
  intros Hthrow. exists v.
  assert (H0 : v <> JsInt 0) by (intros ->; discriminate).
  assert (Hnan : v <> NaN) by (intros ->; discriminate).
  unfold bind, server.assert in Hthrow.
  destruct (server.checkTypes_number rt v);
    [ | injection Hthrow as <- _; eexists; repeat split; auto].
  destruct (server.checkTypes_integer rt v);
    [ | injection Hthrow as <- _; eexists; repeat split; auto].
  destruct (server.checkTypes_positive rt v);
    [discriminate | injection Hthrow as <- _; eexists; repeat split; auto].
Qed.

Lemma check_port_rejects (rt : server.Runtime) (o : server.ServerOptions)
  (fs : server.FileSystem) (p : JsNumber) :
  server.port o = Some p -> p <> JsInt 0 -> p <> NaN ->
  server.checkTypes_number rt p = false \/
  server.checkTypes_integer rt p = false \/
  server.checkTypes_positive rt p = false \/
  server.checkTypes_inRange rt p 0 65535 = false ->
  exists name, check_port rt o fs = (Throw (CheckTypesError name), fs).
Proof.
  intros Hp H0 Hnan Hfails.
  destruct (check_port_cases rt o fs) as [[Hacc _] | [_ (e & Hthrow)]].
  - exfalso. unfold port_accepted in Hacc. rewrite Hp in Hacc.
    assert (Htruthy : truthy_number (Some p) = true).
    { destruct p as [z | | ]; simpl; trivial.
      - destruct (Z.eqb_spec z 0); [subst; now destruct H0 | reflexivity].
      - now destruct Hnan. }
    rewrite Htruthy in Hacc. simpl in Hacc.
    apply andb_true_iff in Hacc. destruct Hacc as [Hacc H4].
    apply andb_true_iff in Hacc. destruct Hacc as [Hacc H3].
    apply andb_true_iff in Hacc. destruct Hacc as [H1 H2].
    intuition congruence.
  - destruct (check_port_throws rt o fs fs e Hthrow)
      as (_ & name & _ & _ & _ & -> & _).
    exists name. exact Hthrow.
Qed.

(** The steps after the assertions throw errors of another kind. *)
Lemma ensure_directory_error (rt : server.Runtime) (given : bool)
  (path : string) (fs fs' : server.FileSystem) (e : JsError) :
  ensure_directory rt given path fs = (Throw e, fs') ->
  exists message, e = Error message.
Proof.
  unfold ensure_directory, server.when, try_catch, bind, server.fs_statSync,
    server.mkdirp.
  destruct given; [ | discriminate].
  destruct (fs path); [discriminate | ].
  destruct (server.mkdirp_sync rt fs path); [discriminate | ].
  intros [= <- _]. eexists. reflexivity.
Qed.

(** X15.  The factory validates the port first: a port other than 0 and
    NaN that fails one of its four assertions ([number], [integer],
    [positive], [inRange] 0 to 65535) makes it throw that assertion's
    error, whatever the other options are, and with the file system not
    touched.  Conversely it throws an assertion error only for a port or a
    specification version that is a number other than 0 and NaN and fails
    an assertion: no port, port 0 and NaN are not validated.  A server is
    returned only with a port and a version that pass. *)
Theorem factory_validates_port (rt : server.Runtime)
  (options : option server.ServerOptions) (fs : server.FileSystem) :
  let o := match options with Some o => o | None => server.empty_options end in
  (forall p,
     server.port o = Some p -> p <> JsInt 0 -> p <> NaN ->
     server.checkTypes_number rt p = false \/
     server.checkTypes_integer rt p = false \/
     server.checkTypes_positive rt p = false \/
     server.checkTypes_inRange rt p 0 65535 = false ->
     exists name,
       server.module_exports rt options fs = (Throw (CheckTypesError name), fs)) /\
  (forall name fs',
     server.module_exports rt options fs = (Throw (CheckTypesError name), fs') ->
     (exists p, server.port o = Some p /\ p <> JsInt 0 /\ p <> NaN /\
                (server.checkTypes_number rt p = false \/
                 server.checkTypes_integer rt p = false \/
                 server.checkTypes_positive rt p = false \/
                 server.checkTypes_inRange rt p 0 65535 = false)) \/
     (exists v, server.spec o = Some v /\ v <> JsInt 0 /\ v <> NaN /\
                (server.checkTypes_number rt v = false \/
                 server.checkTypes_integer rt v = false \/
                 server.checkTypes_positive rt v = false))) /\
  (forall srv fs',
     server.module_exports rt options fs = (Normal srv, fs') ->
     port_accepted rt o = true /\ spec_accepted rt o = true).
Proof.
  intros o. split; [ | split].
  - intros p Hp H0 Hnan Hfails. rewrite module_exports_steps. cbv zeta.
    destruct (check_port_rejects rt (defaults rt options) fs p Hp H0 Hnan Hfails)
      as (name & Hthrow).
    exists name. now rewrite (bind_throw _ _ _ _ _ Hthrow).
  - intros name fs'. rewrite module_exports_steps. cbv zeta.
    destruct (check_port_cases rt (defaults rt options) fs)
      as [[_ Hp] | [_ (e & Hp)]].
    2: { rewrite (bind_throw _ _ _ _ _ Hp). intros [= -> _].
         destruct (check_port_throws _ _ _ _ _ Hp)
           as (p & name' & Hport & H0 & Hnan & _ & Hfails).
         left. exists p. auto. }
    rewrite (bind_normal _ _ _ _ _ Hp).
    destruct (check_ssl_pair_cases (defaults rt options) fs)
      as [[_ Hpair] | [_ Hpair]];
      [rewrite (bind_throw _ _ _ _ _ Hpair); discriminate | ].
    rewrite (bind_normal _ _ _ _ _ Hpair).
    destruct (check_exists_cases rt (server.sslcert (defaults rt options))
                "Custom ssl certificate not found at path: " fs)
      as [[_ Hc] | (cert & _ & _ & [[_ Hc] | [_ Hc]])];
      try (rewrite (bind_throw _ _ _ _ _ Hc); discriminate);
      rewrite (bind_normal _ _ _ _ _ Hc);
      (destruct (check_exists_cases rt (server.sslkey (defaults rt options))
                   "Custom ssl key not found at path: " fs)
         as [[_ Hk] | (key & _ & _ & [[_ Hk] | [_ Hk]])];
       try (rewrite (bind_throw _ _ _ _ _ Hk); discriminate);
       rewrite (bind_normal _ _ _ _ _ Hk);
       (destruct (check_spec_cases rt (force_ssl (defaults rt options)) fs)
          as [[_ Hs] | [_ (e & Hs)]];
        [rewrite (bind_normal _ _ _ _ _ Hs)
        | rewrite (bind_throw _ _ _ _ _ Hs); intros [= -> _];
          destruct (check_spec_throws _ _ _ _ _ Hs)
            as (v & name' & Hspec & H0 & Hnan & _ & Hfails);
          right; exists v;
          revert Hspec; unfold force_ssl; destruct (_ && _); auto])).
    all: unfold bind;
      destruct (ensure_directory rt _ _ fs) as [[[] | e1] fs1] eqn:H1;
      [ | apply ensure_directory_error in H1; destruct H1 as (m & ->);
          discriminate];
      destruct (ensure_directory rt _ _ fs1) as [[[] | e2] fs2] eqn:H2;
      [discriminate
      | apply ensure_directory_error in H2; destruct H2 as (m & ->);
        discriminate].
  - intros srv fs' Hrun. apply module_exports_returns in Hrun.
    destruct Hrun as (_ & Hp & Hs).
    destruct (check_port_cases rt (defaults rt options) fs)
      as [[Hacc _] | [_ (e & He)]]; [ | congruence].
    destruct (check_spec_cases rt (force_ssl (defaults rt options)) fs)
      as [[Hspec _] | [_ (e & He)]]; [ | congruence].
    split; [exact Hacc | ].
    revert Hspec. unfold force_ssl. destruct (_ && _); trivial.
Qed.

Lemma factory_validates_port_witness :
  exists name,
    server.module_exports Sample.runtime
      (Some (Sample2.server_options_in None None (Some (JsInt 70000))))
      Sample.file_system = (Throw (CheckTypesError name), Sample.file_system).
Proof.
  destruct (factory_validates_port Sample.runtime
              (Some (Sample2.server_options_in None None (Some (JsInt 70000))))
              Sample.file_system) as (Hrejects & _).
  apply (Hrejects (JsInt 70000)); try reflexivity; try discriminate.
  right. right. right. reflexivity.
Defined.

(** ** The server factory and the file system *)

Lemma value_of_truthy (v : option string) :
  truthy_string v = true ->
  exists s, v = Some s /\ s <> "" /\ server.value_of v = s.
Proof.
  destruct v as [s | ]; simpl; [ | discriminate].
  unfold server.value_of. simpl.
  destruct (String.eqb_spec s ""); [discriminate | ]. intros _. eauto.
Qed.

Lemma force_ssl_keeps (d : server.ServerOptions) :
  server.dir (force_ssl d) = server.dir d /\
  server.log (force_ssl d) = server.log d /\
  server.spec (force_ssl d) = server.spec d.
Proof.
  unfold force_ssl. destruct (_ && _); repeat split.
Qed.

Lemma ensure_directory_missing (rt : server.Runtime) (path : string)
  (fs : server.FileSystem) :
  fs path = None ->
  ensure_directory rt true path fs =
    match server.mkdirp_sync rt fs path with
    | server.Made fs1 => (Normal tt, fs1)
    | server.MkdirpError message fs1 => (Throw (Error message), fs1)
    end.
Proof.
  intros Hmissing.
  unfold ensure_directory, server.when, try_catch, bind, server.fs_statSync,
    server.mkdirp.
  now rewrite Hmissing.
Qed.

(** The checks before the directories only read: they end with the file
    system they began with. *)
Lemma validation_cases (rt : server.Runtime)
  (options : option server.ServerOptions) (fs : server.FileSystem) :
  let d := defaults rt options in
  (exists e, server.module_exports rt options fs = (Throw e, fs)) \/
  (port_accepted rt d = true /\ spec_accepted rt (force_ssl d) = true /\
   (is_set (server.sslcert d) <-> is_set (server.sslkey d)) /\
   (forall p, server.sslcert d = Some p -> p <> "" ->
              fs (server.path_normalize rt p) <> None) /\
   (forall p, server.sslkey d = Some p -> p <> "" ->
              fs (server.path_normalize rt p) <> None) /\
   server.module_exports rt options fs =
     (ensure_directory rt (truthy_string (server.dir (force_ssl d)))
        (server.path_normalize rt (server.value_of (server.dir (force_ssl d)))) ;;;
      ensure_directory rt (truthy_string (server.log (force_ssl d)))
        (server.path_parse_dir rt
           (server.path_normalize rt (server.value_of (server.log (force_ssl d))))) ;;;
      ret (construct (force_ssl d))) fs).
Proof.
  intros d. rewrite module_exports_steps. cbv zeta. fold d.
  destruct (check_port_cases rt d fs) as [[Hacc Hp] | [_ (e & Hp)]];
    [ | left; exists e; now rewrite (bind_throw _ _ _ _ _ Hp)].
  rewrite (bind_normal _ _ _ _ _ Hp).
  destruct (check_ssl_pair_cases d fs) as [[_ Hpair] | [Hiff Hpair]];
    [left; eexists; now rewrite (bind_throw _ _ _ _ _ Hpair) | ].
  rewrite (bind_normal _ _ _ _ _ Hpair).
  destruct (check_exists_cases rt (server.sslcert d)
              "Custom ssl certificate not found at path: " fs)
    as [[Hnocert Hc] | (cert & Hcert & Hcne & [[Hcfound Hc] | [_ Hc]])];
    try (left; eexists; now rewrite (bind_throw _ _ _ _ _ Hc));
    rewrite (bind_normal _ _ _ _ _ Hc);
    (destruct (check_exists_cases rt (server.sslkey d)
                 "Custom ssl key not found at path: " fs)
       as [[Hnokey Hk] | (key & Hkey & Hkne & [[Hkfound Hk] | [_ Hk]])];
     try (left; eexists; now rewrite (bind_throw _ _ _ _ _ Hk));
     rewrite (bind_normal _ _ _ _ _ Hk);
     (destruct (check_spec_cases rt (force_ssl d) fs)
        as [[Hspec Hs] | [_ (e & Hs)]];
      [rewrite (bind_normal _ _ _ _ _ Hs)
      | left; exists e; now rewrite (bind_throw _ _ _ _ _ Hs)])).
  all: right; repeat split; trivial; try tauto.
  all: try (intros p Hp' Hpne; exfalso;
            match goal with
            | Hn : ~ is_set ?v |- _ => apply Hn; exists p; now split
            end).
  all: intros p Hp' _; congruence.
Qed.

(** X16.  When the pact directory exists, and the directory of the log
    file when a log file is given, the factory changes nothing in the file
    system, whether it returns a server or throws. *)
Theorem factory_leaves_file_system (rt : server.Runtime)
  (options : option server.ServerOptions) (fs : server.FileSystem) :
  let o := match options with Some o => o | None => server.empty_options end in
  (pact_dir rt o <> "" ->
   fs (server.path_normalize rt (pact_dir rt o)) <> None) ->
  (forall l, server.log o = Some l -> l <> "" ->
     fs (server.path_parse_dir rt (server.path_normalize rt l)) <> None) ->
  snd (server.module_exports rt options fs) = fs.
Proof.
  intros o Hdir Hlog.
  destruct (validation_cases rt options fs)
    as [(e & ->) | (_ & _ & _ & _ & _ & ->)]; [reflexivity | ].
  destruct (force_ssl_keeps (defaults rt options)) as (-> & -> & _).
  change (server.dir (defaults rt options)) with (Some (pact_dir rt o)).
  change (server.log (defaults rt options)) with (server.log o).
  assert (Hd : truthy_string (Some (pact_dir rt o)) = true ->
               fs (server.path_normalize rt
                     (server.value_of (Some (pact_dir rt o)))) <> None).
  { intros Hgiven. apply value_of_truthy in Hgiven.
    destruct Hgiven as (s & [= <-] & Hne & ->). now apply Hdir. }
  assert (Hl : truthy_string (server.log o) = true ->
               fs (server.path_parse_dir rt
                     (server.path_normalize rt
                        (server.value_of (server.log o)))) <> None).
  { intros Hgiven. apply value_of_truthy in Hgiven.
    destruct Hgiven as (l & Hl & Hne & ->). now apply Hlog. }
  rewrite (bind_normal _ _ _ _ _ (ensure_directory_found rt _ _ fs Hd)).
  rewrite (bind_normal _ _ _ _ _ (ensure_directory_found rt _ _ fs Hl)).
  reflexivity.
Qed.

Lemma factory_leaves_file_system_witness :
  snd (server.module_exports Sample.runtime (Some Sample2.logging_options)
         Sample2.file_system_with_log) = Sample2.file_system_with_log /\
  fst (server.module_exports Sample.runtime (Some Sample2.logging_options)
         Sample2.file_system_with_log) =
    Normal (construct
              (force_ssl (defaults Sample.runtime
                            (Some Sample2.logging_options)))).
Proof.
  split; [ | reflexivity].
  apply (factory_leaves_file_system Sample.runtime
           (Some Sample2.logging_options) Sample2.file_system_with_log).
  - intros _. discriminate.
  - intros l [= <-] _. discriminate.
Defined.

(** X17.  When the port and the version validate, no certificate is given
    and the pact directory does not exist, the factory calls [mkdirp] on
    it.  When [mkdirp] throws, the factory throws its error and leaves the
    file system as [mkdirp] left it, parents that were made included; the
    directory of the log file is not looked at.  When [mkdirp] returns, the
    factory goes on in the file system that it left: with no log file it
    returns the server; with a log file it looks up the directory of that
    file there, returns the server when it exists, and calls [mkdirp] on
    it when it does not. *)
Theorem factory_creates_pact_directory (rt : server.Runtime)
  (options : option server.ServerOptions) (fs : server.FileSystem) :
  let o := match options with Some o => o | None => server.empty_options end in
  let path := server.path_normalize rt (pact_dir rt o) in
  pact_dir rt o <> "" ->
  fs path = None ->
  port_accepted rt o = true -> spec_accepted rt o = true ->
  ~ is_set (server.sslcert o) -> ~ is_set (server.sslkey o) ->
  (forall message fs1,
     server.mkdirp_sync rt fs path = server.MkdirpError message fs1 ->
     server.module_exports rt options fs = (Throw (Error message), fs1)) /\
  (forall fs1,
     server.mkdirp_sync rt fs path = server.Made fs1 ->
     (~ is_set (server.log o) ->
      exists srv, server.module_exports rt options fs = (Normal srv, fs1)) /\
     (forall l, server.log o = Some l -> l <> "" ->
        let logdir := server.path_parse_dir rt (server.path_normalize rt l) in
        (fs1 logdir <> None ->
         exists srv, server.module_exports rt options fs = (Normal srv, fs1)) /\
        (fs1 logdir = None ->
         (forall fs2,
            server.mkdirp_sync rt fs1 logdir = server.Made fs2 ->
            exists srv, server.module_exports rt options fs = (Normal srv, fs2)) /\
         (forall message fs2,
            server.mkdirp_sync rt fs1 logdir = server.MkdirpError message fs2 ->
            server.module_exports rt options fs =
              (Throw (Error message), fs2))))).
Proof.
  intros o path Hne Hmissing Hport Hspec Hnocert Hnokey.
  assert (Hrun :
    server.module_exports rt options fs =
      (ensure_directory rt true path ;;;
       ensure_directory rt (truthy_string (server.log o))
         (server.path_parse_dir rt
            (server.path_normalize rt (server.value_of (server.log o)))) ;;;
       ret (construct (force_ssl (defaults rt options)))) fs).
  { rewrite module_exports_steps. cbv zeta.
    destruct (check_port_cases rt (defaults rt options) fs)
      as [[_ Hp] | [Hrej _]];
      [ | change (port_accepted rt (defaults rt options))
            with (port_accepted rt o) in Hrej; congruence].
    rewrite (bind_normal _ _ _ _ _ Hp).
    destruct (check_ssl_pair_cases (defaults rt options) fs)
      as [[[[Hc _] | [_ Hk]] _] | [_ Hpair]];
      [now destruct (Hnocert Hc) | now destruct (Hnokey Hk) | ].
    rewrite (bind_normal _ _ _ _ _ Hpair).
    destruct (check_exists_cases rt (server.sslcert (defaults rt options))
                "Custom ssl certificate not found at path: " fs)
      as [[_ Hc] | (cert & Hcert & Hcne & _)];
      [ | exfalso; apply Hnocert; exists cert; now split].
    rewrite (bind_normal _ _ _ _ _ Hc).
    destruct (check_exists_cases rt (server.sslkey (defaults rt options))
                "Custom ssl key not found at path: " fs)
      as [[_ Hk] | (key & Hkey & Hkne & _)];
      [ | exfalso; apply Hnokey; exists key; now split].
    rewrite (bind_normal _ _ _ _ _ Hk).
    destruct (check_spec_cases rt (force_ssl (defaults rt options)) fs)
      as [[_ Hs] | [Hrej _]].
    2: { exfalso. revert Hrej. unfold force_ssl. destruct (_ && _);
         change (spec_accepted rt (server.set_ssl (defaults rt options) true))
           with (spec_accepted rt o);
         change (spec_accepted rt (defaults rt options))
           with (spec_accepted rt o); congruence. }
    rewrite (bind_normal _ _ _ _ _ Hs).
    destruct (force_ssl_keeps (defaults rt options)) as (-> & -> & _).
    change (server.dir (defaults rt options)) with (Some (pact_dir rt o)).
    change (server.log (defaults rt options)) with (server.log o).
    unfold server.value_of at 1. simpl.
    destruct (String.eqb_spec (pact_dir rt o) ""); [contradiction | ].
    reflexivity. }
  unfold bind at 1 in Hrun.
  rewrite (ensure_directory_missing rt _ fs Hmissing) in Hrun.
  split.
  - intros message fs1 Hmk. rewrite Hmk in Hrun. exact Hrun.
  - intros fs1 Hmk. rewrite Hmk in Hrun. split.
    + intros Hnolog. apply not_truthy_string in Hnolog.
      rewrite Hnolog in Hrun. eexists. exact Hrun.
    + intros l Hl Hlne logdir.
      assert (Hgiven : truthy_string (server.log o) = true).
      { apply truthy_string_is_set. exists l. now split. }
      assert (Hvalue : server.value_of (server.log o) = l).
      { rewrite Hl. unfold server.value_of. simpl.
        destruct (String.eqb_spec l ""); [contradiction | reflexivity]. }
      rewrite Hgiven, Hvalue in Hrun. fold logdir in Hrun.
      unfold bind at 1 in Hrun. split.
      * intros Hfound.
        rewrite (ensure_directory_found rt true logdir fs1 (fun _ => Hfound))
          in Hrun.
        eexists. exact Hrun.
      * intros Hnone.
        rewrite (ensure_directory_missing rt logdir fs1 Hnone) in Hrun.
        split.
        -- intros fs2 Hmk2. rewrite Hmk2 in Hrun. eexists. exact Hrun.
        -- intros message fs2 Hmk2. rewrite Hmk2 in Hrun. exact Hrun.
Qed.

Lemma factory_creates_pact_directory_witness :
  (exists srv fs1,
     server.module_exports Sample.runtime
       (Some (Sample2.server_options_in None (Some "/tmp/new-pacts") None))
       Sample.file_system = (Normal srv, fs1) /\
     fs1 "/tmp/new-pacts" = Some Sample.directory) /\
  (exists fs1,
     server.module_exports Sample2.runtime_failing
       (Some (Sample2.server_options_in None
                (Some "/tmp/pacts/a-name-that-is-too-long") None))
       Sample.file_system =
       (Throw (Error "ENAMETOOLONG: name too long"), fs1) /\
     fs1 "/tmp/pacts" = Some Sample.directory /\
     fs1 "/tmp/pacts/a-name-that-is-too-long" = None).
Proof.
  split.
  - destruct (factory_creates_pact_directory Sample.runtime
                (Some (Sample2.server_options_in None (Some "/tmp/new-pacts") None))
                Sample.file_system) as (_ & Hcreates);
      try reflexivity; try discriminate;
      try (intros (s & [=] & _)).
    destruct (Hcreates _ eq_refl) as (Hnolog & _).
    destruct Hnolog as (srv & Hrun); [intros (s & [=] & _) | ].
    eexists srv, _. split; [exact Hrun | reflexivity].
  - destruct (factory_creates_pact_directory Sample2.runtime_failing
                (Some (Sample2.server_options_in None
                         (Some "/tmp/pacts/a-name-that-is-too-long") None))
                Sample.file_system) as (Hthrows & _);
      try reflexivity; try discriminate;
      try (intros (s & [=] & _)).
    eexists. split; [apply Hthrows; reflexivity | split; reflexivity].
Defined.

(** ** Polling for the service *)

Lemma fire_no_timer (check : polling.Poll -> polling.Poll) (n : nat)
  (st : polling.Poll) :
  polling.timer st = None -> polling.fire check n st = st.
Proof.
  intros H. destruct n; [reflexivity | ]. simpl. now rewrite H.
Qed.

Lemma fire_add (check : polling.Poll -> polling.Poll) (a b : nat)
  (st : polling.Poll) :
  polling.fire check (a + b) st = polling.fire check b (polling.fire check a st).
Proof.
  revert st. induction a as [ | a IH]; intros st; [reflexivity | ].
  simpl. destruct (polling.timer st) eqn:E; [apply IH | ].
  now rewrite fire_no_timer.
Qed.

Lemma up_check_unanswered (world : polling.World) (a : Z) (d : polling.Promise)
  (t : option Z) :
  answers world (a + 1) = false ->
  polling.up_check world
    {| polling.amount := a; polling.deferred := d; polling.timer := t |} =
  polling.up_retry
    {| polling.amount := a + 1; polling.deferred := d; polling.timer := None |}.
Proof.
  unfold answers, polling.up_check. cbn [polling.amount polling.deferred].
  destruct (polling.port_known world (a + 1)); [ | reflexivity].
  simpl. now intros ->.
Qed.

Lemma up_check_answered (world : polling.World) (a : Z) (d : polling.Promise)
  (t : option Z) :
  answers world (a + 1) = true ->
  polling.up_check world
    {| polling.amount := a; polling.deferred := d; polling.timer := t |} =
  {| polling.amount := a + 1; polling.deferred := polling.resolve d;
     polling.timer := None |}.
Proof.
  unfold answers, polling.up_check. cbn [polling.amount polling.deferred].
  destruct (polling.port_known world (a + 1)); [ | discriminate].
  simpl. now intros ->.
Qed.

Lemma up_failed_next (world : polling.World) (j : nat) :
  answers world (Z.of_nat (S j)) = false ->
  polling.up_check world (up_failed j) = up_failed (S j).
Proof.
  intros H. unfold up_failed.
  rewrite up_check_unanswered by (now replace (Z.of_nat j + 1) with (Z.of_nat (S j)) by lia).
  unfold polling.up_retry, server.RETRY_AMOUNT.
  cbn [polling.amount polling.deferred].
  replace (Z.of_nat j + 1) with (Z.of_nat (S j)) by lia.
  f_equal.
  destruct (Z.leb_spec 60 (Z.of_nat (S j))), (Z.leb_spec 60 (Z.of_nat j));
    try reflexivity; lia.
Qed.

Lemma fire_up_failed (world : polling.World) (n j : nat) :
  (forall i, (j < i <= j + n)%nat -> answers world (Z.of_nat i) = false) ->
  polling.fire (polling.up_check world) n (up_failed j) = up_failed (j + n).
Proof.
  revert j. induction n as [ | n IH]; intros j H.
  - now rewrite Nat.add_0_r.
  - cbn [polling.fire up_failed polling.timer]. fold (up_failed j).
    rewrite up_failed_next by (apply H; lia).
    rewrite IH by (intros i Hi; apply H; lia).
    f_equal. lia.
Qed.

Lemma waitForServerUp_unanswered (world : polling.World) (fired : nat) :
  (forall i, (1 <= i <= fired + 1)%nat -> answers world (Z.of_nat i) = false) ->
  polling.waitForServerUp world fired = up_failed (fired + 1).
Proof.
  intros H. unfold polling.waitForServerUp, polling.initial.
  rewrite up_check_unanswered by (apply (H 1%nat); lia).
  change (polling.up_retry _) with (up_failed 1).
  rewrite fire_up_failed by (intros i Hi; apply H; lia).
  f_equal. lia.
Qed.

(** X18.  [waitForServerUp] never stops by itself: as long as no attempt
    finds the service, every attempt schedules the next one after
    [CHECKTIME], also after the promise was rejected at the sixtieth
    attempt; the promise is pending before that attempt. *)
Theorem waitForServerUp_keeps_polling (world : polling.World) (fired : nat) :
  (forall i, (1 <= i <= fired + 1)%nat -> answers world (Z.of_nat i) = false) ->
  let st := polling.waitForServerUp world fired in
  polling.amount st = Z.of_nat fired + 1 /\
  polling.timer st = Some 500 /\
  polling.deferred st =
    if (60 <=? fired + 1)%nat
    then polling.Rejected
           (Error "Pact startup failed; tried calling service 10 times with no result.")
    else polling.Pending.
Proof.
  intros H st. unfold st. rewrite (waitForServerUp_unanswered world fired H).
  unfold up_failed, server.RETRY_AMOUNT. cbn [polling.amount polling.timer polling.deferred].
  split; [lia | split; [reflexivity | ]].
  destruct (Z.leb_spec 60 (Z.of_nat (fired + 1))), (Nat.leb_spec 60 (fired + 1));
    try reflexivity; lia.
Qed.

Lemma waitForServerUp_keeps_polling_witness :
  polling.amount (polling.waitForServerUp Sample2.never_up 75) = 76 /\
  polling.timer (polling.waitForServerUp Sample2.never_up 75) = Some 500 /\
  polling.deferred (polling.waitForServerUp Sample2.never_up 75) =
    polling.Rejected
      (Error "Pact startup failed; tried calling service 10 times with no result.").
Proof.
  apply (waitForServerUp_keeps_polling Sample2.never_up 75).
  intros i _. reflexivity.
Defined.

(** X19.  [waitForServerUp] stops at the first attempt that finds the
    service: when attempt [k] is the first one answered, the poll has made
    exactly [k] attempts once [k - 1] timers have fired, and no timer is
    left; its promise is fulfilled when [k <= 60], and stays rejected when
    the answer comes later. *)
Theorem waitForServerUp_first_answer (world : polling.World) (k fired : nat) :
  (1 <= k)%nat ->
  (forall i, (1 <= i < k)%nat -> answers world (Z.of_nat i) = false) ->
  answers world (Z.of_nat k) = true ->
  (k - 1 <= fired)%nat ->
  let st := polling.waitForServerUp world fired in
  polling.amount st = Z.of_nat k /\
  polling.timer st = None /\
  polling.deferred st =
    if (k <=? 60)%nat then polling.Fulfilled
    else polling.Rejected
           (Error "Pact startup failed; tried calling service 10 times with no result.").
Proof.
  intros Hk Hbefore Hanswer Hfired st. unfold st. clear st.
  destruct k as [ | [ | k]]; [lia | | ].
  - unfold polling.waitForServerUp, polling.initial.
    rewrite up_check_answered by exact Hanswer.
    rewrite fire_no_timer by reflexivity. repeat split.
  - assert (Hst :
      polling.waitForServerUp world fired =
      {| polling.amount := Z.of_nat (k + 1) + 1;
         polling.deferred := polling.resolve (polling.deferred (up_failed (k + 1)));
         polling.timer := None |}).
    { replace fired with (k + (1 + (fired - S k)))%nat by lia.
      unfold polling.waitForServerUp. rewrite fire_add.
      fold (polling.waitForServerUp world k).
      rewrite waitForServerUp_unanswered by (intros i Hi; apply Hbefore; lia).
      rewrite fire_add.
      change (polling.fire (polling.up_check world) 1 (up_failed (k + 1)))
        with (polling.up_check world (up_failed (k + 1))).
      unfold up_failed at 1.
      rewrite up_check_answered
        by (now replace (Z.of_nat (k + 1) + 1) with (Z.of_nat (S (S k))) by lia).
      now rewrite fire_no_timer. }
    rewrite Hst. unfold up_failed, server.RETRY_AMOUNT.
    cbn [polling.amount polling.timer polling.deferred].
    split; [lia | split; [reflexivity | ]].
    destruct (Z.leb_spec 60 (Z.of_nat (k + 1))), (Nat.leb_spec (S (S k)) 60);
      try reflexivity; lia.
Qed.

Lemma waitForServerUp_first_answer_witness :
  polling.amount (polling.waitForServerUp Sample2.up_at_third 10) = 3 /\
  polling.timer (polling.waitForServerUp Sample2.up_at_third 10) = None /\
  polling.deferred (polling.waitForServerUp Sample2.up_at_third 10) =
    polling.Fulfilled.
Proof.
  apply (waitForServerUp_first_answer Sample2.up_at_third 3 10).
  - lia.
  - intros [ | [ | [ | i]]] Hi; try reflexivity; lia.
  - reflexivity.
  - simpl. lia.
Defined.

Lemma down_check_cases (world : polling.World) (a : Z) (d : polling.Promise)
  (t : option Z) :
  polling.down_check world
    {| polling.amount := a; polling.deferred := d; polling.timer := t |} =
  if answers world (a + 1) then
    if 60 <=? a + 1 then
      {| polling.amount := a + 1;
         polling.deferred :=
           polling.reject d
             (Error "Pact stop failed; tried calling service 10 times with no result.");
         polling.timer := None |}
    else
      {| polling.amount := a + 1; polling.deferred := d;
         polling.timer := Some 500 |}
  else
    {| polling.amount := a + 1; polling.deferred := polling.resolve d;
       polling.timer := None |}.
Proof.
  unfold answers, polling.down_check. cbn [polling.amount polling.deferred].
  destruct (polling.port_known world (a + 1)); [ | reflexivity].
  simpl. destruct (polling.call _); reflexivity.
Qed.

Lemma down_check_invariant (world : polling.World) (a : Z) (t : option Z) :
  0 <= a < 60 ->
  down_invariant (a + 1)
    (polling.down_check world
       {| polling.amount := a; polling.deferred := polling.Pending;
          polling.timer := t |}).
Proof.
  intros Ha. rewrite down_check_cases. unfold down_invariant.
  destruct (answers world (a + 1)); [destruct (Z.leb_spec 60 (a + 1)) | ];
    cbn [polling.amount polling.timer polling.deferred polling.reject polling.resolve];
    repeat split; try lia; discriminate.
Qed.

Lemma fire_down_invariant (world : polling.World) (n : nat) (checks : Z)
  (st : polling.Poll) :
  down_invariant checks st ->
  down_invariant (checks + Z.of_nat n)
    (polling.fire (polling.down_check world) n st) \/
  polling.timer (polling.fire (polling.down_check world) n st) = None /\
  down_invariant checks (polling.fire (polling.down_check world) n st).
Proof.
  revert checks st. induction n as [ | n IH]; intros checks st Hinv.
  - left. now rewrite Z.add_0_r.
  - cbn [polling.fire]. destruct st as [a d [delay | ]];
      cbn [polling.timer]; [ | right; split; [reflexivity | exact Hinv]].
    destruct Hinv as (Hrange & _ & Hchecks & Hlt & Hpending).
    cbn [polling.amount polling.deferred polling.timer] in *. subst d a.
    destruct (IH (checks + 1) _ (down_check_invariant world checks (Some delay)
                                    ltac:(lia))) as [H | [Hnone H]].
    + left. now replace (checks + Z.of_nat (S n)) with (checks + 1 + Z.of_nat n) by lia.
    + right. split; [exact Hnone | ].
      destruct H as (Hr & Ht). split; [exact Hr | ].
      now rewrite Hnone in *.
Qed.

(** X20.  [waitForServerDown] makes at least one and at most sixty
    attempts, whatever the service does, and it has settled its promise and
    left no timer once fifty-nine timers have fired; while a timer is
    pending the promise is pending. *)
Theorem waitForServerDown_bounded (world : polling.World) (fired : nat) :
  let st := polling.waitForServerDown world fired in
  1 <= polling.amount st <= 60 /\
  (polling.timer st <> None -> polling.deferred st = polling.Pending) /\
  (polling.timer st = None -> polling.deferred st <> polling.Pending) /\
  ((59 <= fired)%nat -> polling.timer st = None).
Proof.
  intros st. unfold st, polling.waitForServerDown, polling.initial. clear st.
  pose proof (down_check_invariant world 0 None ltac:(lia)) as Hfirst.
  destruct (fire_down_invariant world fired _ _ Hfirst) as [H | [Hnone H]].
  - destruct H as (Hr & Ht). split; [exact Hr | ].
    destruct (polling.timer _) as [delay | ].
    + destruct Ht as (_ & Hchecks & Hlt & Hpending).
      repeat split; trivial; try congruence. intros Hfired. lia.
    + repeat split; trivial; congruence.
  - destruct H as (Hr & Ht). split; [exact Hr | ].
    rewrite Hnone in *. repeat split; trivial; congruence.
Qed.

Lemma fire_down_waiting (world : polling.World) (n j : nat) :
  (1 <= j)%nat -> (j + n < 60)%nat ->
  (forall i, (j < i <= j + n)%nat -> answers world (Z.of_nat i) = true) ->
  polling.fire (polling.down_check world) n (down_waiting j) =
  down_waiting (j + n).
Proof.
  revert j. induction n as [ | n IH]; intros j Hj Hlt H.
  - now rewrite Nat.add_0_r.
  - change (polling.fire (polling.down_check world) (S n) (down_waiting j))
      with (polling.fire (polling.down_check world) n
              (polling.down_check world (down_waiting j))).
    unfold down_waiting at 1. rewrite down_check_cases.
    replace (Z.of_nat j + 1) with (Z.of_nat (S j)) by lia.
    rewrite H by lia.
    destruct (Z.leb_spec 60 (Z.of_nat (S j))); [lia | ].
    change {| polling.amount := Z.of_nat (S j); polling.deferred := polling.Pending;
              polling.timer := Some 500 |} with (down_waiting (S j)).
    rewrite IH by (try lia; intros i Hi; apply H; lia).
    f_equal. lia.
Qed.

Lemma waitForServerDown_waiting (world : polling.World) (fired : nat) :
  (fired + 1 < 60)%nat ->
  (forall i, (1 <= i <= fired + 1)%nat -> answers world (Z.of_nat i) = true) ->
  polling.waitForServerDown world fired = down_waiting (fired + 1).
Proof.
  intros Hlt H. unfold polling.waitForServerDown, polling.initial.
  rewrite down_check_cases.
  change (0 + 1) with (Z.of_nat 1). rewrite (H 1%nat) by lia.
  change (60 <=? Z.of_nat 1) with false. cbv iota.
  change {| polling.amount := Z.of_nat 1; polling.deferred := polling.Pending;
            polling.timer := Some 500 |} with (down_waiting 1).
  rewrite fire_down_waiting by (try lia; intros i Hi; apply H; lia).
  f_equal. lia.
Qed.

Lemma waitForServerDown_at_attempt (world : polling.World) (k fired : nat) :
  (1 <= k <= 60)%nat ->
  (forall i, (1 <= i < k)%nat -> answers world (Z.of_nat i) = true) ->
  (k - 1 <= fired)%nat ->
  exists (t : option Z) (rest : nat),
    polling.waitForServerDown world fired =
    polling.fire (polling.down_check world) rest
      (polling.down_check world
         {| polling.amount := Z.of_nat k - 1; polling.deferred := polling.Pending;
            polling.timer := t |}).
Proof.
  intros Hk Hbefore Hfired. destruct k as [ | [ | k]]; [lia | | ].
  - exists None, fired. reflexivity.
  - exists (Some server.CHECKTIME), (fired - S k)%nat.
    replace fired with (k + (1 + (fired - S k)))%nat at 1 by lia.
    unfold polling.waitForServerDown. rewrite fire_add.
    fold (polling.waitForServerDown world k).
    rewrite waitForServerDown_waiting
      by (try lia; intros i Hi; apply Hbefore; lia).
    rewrite fire_add.
    change (polling.fire (polling.down_check world) 1 (down_waiting (k + 1)))
      with (polling.down_check world (down_waiting (k + 1))).
    unfold down_waiting. do 3 f_equal. lia.
Qed.

(** X21.  What [waitForServerDown] ends with: its promise is fulfilled at
    the first attempt that does not find the service, provided this is one
    of the first sixty, and rejected at the sixtieth attempt when all sixty
    found the service. *)
Theorem waitForServerDown_outcome (world : polling.World) (k fired : nat) :
  (1 <= k <= 60)%nat ->
  (forall i, (1 <= i < k)%nat -> answers world (Z.of_nat i) = true) ->
  (k - 1 <= fired)%nat ->
  let st := polling.waitForServerDown world fired in
  (answers world (Z.of_nat k) = false ->
   polling.amount st = Z.of_nat k /\ polling.timer st = None /\
   polling.deferred st = polling.Fulfilled) /\
  (k = 60%nat -> answers world 60 = true ->
   polling.amount st = 60 /\ polling.timer st = None /\
   polling.deferred st =
     polling.Rejected
       (Error "Pact stop failed; tried calling service 10 times with no result.")).
Proof.
  intros Hk Hbefore Hfired st.
  destruct (waitForServerDown_at_attempt world k fired Hk Hbefore Hfired)
    as (t & rest & Hrun).
  unfold st. clear st. rewrite Hrun. rewrite down_check_cases.
  replace (Z.of_nat k - 1 + 1) with (Z.of_nat k) by lia.
  split.
  - intros ->. rewrite fire_no_timer by reflexivity. repeat split.
  - intros -> Hanswer. change (Z.of_nat 60) with 60. rewrite Hanswer.
    change (60 <=? 60) with true. cbv iota.
    rewrite fire_no_timer by reflexivity. repeat split.
Qed.

Lemma waitForServerDown_outcome_witness :
  polling.amount (polling.waitForServerDown Sample2.always_up 100) = 60 /\
  polling.timer (polling.waitForServerDown Sample2.always_up 100) = None /\
  polling.deferred (polling.waitForServerDown Sample2.always_up 100) =
    polling.Rejected
      (Error "Pact stop failed; tried calling service 10 times with no result.").
Proof.
  apply (waitForServerDown_outcome Sample2.always_up 60 100).
  - lia.
  - intros i _. reflexivity.
  - simpl. lia.
  - reflexivity.
  - reflexivity.
Defined.

(** ** The two tables *)

(** X22.  [ffiFnMapping] has a descriptor for exactly the functions that
    [orderOfExecution] orders: each of its nine keys, and no other name; in
    particular the two merged source functions have none. *)
Theorem descriptor_for_each_ordered_function {Selector : Type}
  (JSON_stringify : Selector -> string) (node : Node) (name : string)
  (handle : FfiHandle) (options : Options Selector) :
  (descriptor JSON_stringify node name handle options <> None <->
   In name (keys orderOfExecution)) /\
  descriptor JSON_stringify node "pactffiVerifierAddFileSource" handle options =
    None /\
  descriptor JSON_stringify node "pactffiVerifierUrlSource" handle options = None.
Proof.
  split; [ | split; reflexivity].
  unfold descriptor. split.
  - intros Hsome.
    repeat match goal with
           | H : context [String.eqb name ?key] |- _ =>
               destruct (String.eqb_spec name key) as [-> | _];
               [simpl; tauto | ]
           end.
    now destruct Hsome.
  - simpl. intros H.
    repeat (destruct H as [<- | H]; [discriminate | ]).
    destruct H.
Qed.

(** ** Bounded polling *)

Lemma waitForServerDown_invariant (world : polling.World) (fired : nat) :
  exists checks,
    down_invariant checks (polling.waitForServerDown world fired).
Proof.
  unfold polling.waitForServerDown, polling.initial.
  pose proof (down_check_invariant world 0 None ltac:(lia)) as Hfirst.
  destruct (fire_down_invariant world fired _ _ Hfirst) as [H | [_ H]];
    eexists; exact H.
Qed.

(** C9.  [start] and [stop] return the promise of their wait under the
    timeout of 30000 ms; [start] spawns the service detached when the
    platform is not Windows, and [stop] then signals the process group
    with [process.kill(-pid, 'SIGINT')].  The wait for the service to go
    down polls every 500 ms, makes at most sixty attempts, and rejects at
    the sixtieth when all have found the service.  The wait for the service
    to come up polls every 500 ms and rejects at the sixtieth attempt that
    does not find the service, but it does not stop there: it makes a next
    attempt after every attempt that does not find the service, so that
    its attempts pass any bound when the service never answers. *)
Theorem server_up_wait_polls_without_bound (pf : lifecycle.Platform)
  (this : lifecycle.Instance) :
  (forall promise this' calls,
     lifecycle.start pf this = (Some promise, this', calls) ->
     lifecycle.wait promise = lifecycle.waitForServerUp /\
     lifecycle.timeout_ms promise = 30000 /\
     exists file args cwd env verbatim,
       calls = [lifecycle.spawn file args cwd (negb (lifecycle.isWindows pf))
                  env verbatim]) /\
  (forall promise this' calls,
     lifecycle.stop pf this = (Normal promise, this', calls) ->
     lifecycle.wait promise = lifecycle.waitForServerDown /\
     lifecycle.timeout_ms promise = 30000 /\
     (forall child,
        lifecycle._instance this = Some child ->
        lifecycle.isWindows pf = false ->
        calls = [lifecycle.removeAllListeners (lifecycle.pid child);
                 lifecycle.kill (- lifecycle.pid child) "SIGINT"])) /\
  (forall world fired,
     let poll := polling.waitForServerDown world fired in
     1 <= polling.amount poll <= 60 /\
     (forall delay, polling.timer poll = Some delay -> delay = 500) /\
     ((forall i, (1 <= i <= 60)%nat -> answers world (Z.of_nat i) = true) ->
      (59 <= fired)%nat ->
      polling.amount poll = 60 /\ polling.timer poll = None /\
      polling.deferred poll =
        polling.Rejected
          (Error "Pact stop failed; tried calling service 10 times with no result."))) /\
  (forall world fired,
     (forall i, (1 <= i <= fired + 1)%nat -> answers world (Z.of_nat i) = false) ->
     let poll := polling.waitForServerUp world fired in
     polling.amount poll = Z.of_nat fired + 1 /\
     polling.timer poll = Some 500 /\
     ((fired < 59)%nat -> polling.deferred poll = polling.Pending) /\
     ((59 <= fired)%nat ->
      polling.deferred poll =
        polling.Rejected
          (Error "Pact startup failed; tried calling service 10 times with no result."))) /\
  (forall world,
     (forall i, answers world (Z.of_nat i) = false) ->
     forall bound, exists fired,
       bound < polling.amount (polling.waitForServerUp world fired) /\
       polling.timer (polling.waitForServerUp world fired) = Some 500).
Proof.
  split; [ | split; [ | split; [ | split]]].
  - intros promise this' calls. unfold lifecycle.start.
    destruct (match lifecycle._instance this with
              | Some child => lifecycle.connected child
              | None => false
              end); [discriminate | ].
    destruct (lifecycle.isWindows pf); intros [= <- _ <-];
      (split; [reflexivity | split; [reflexivity | ]]);
      eexists _, _, _, _, _; reflexivity.
  - intros promise this' calls. unfold lifecycle.stop.
    destruct (lifecycle._instance this) as [child | ].
    + destruct (lifecycle.isWindows pf).
      * destruct (lifecycle.cp_execSync pf _ _); [discriminate | ].
        intros [= <- _ <-]. split; [reflexivity | split; [reflexivity | ]].
        intros child' _ [=].
      * destruct (lifecycle.process_kill pf _ _); [discriminate | ].
        intros [= <- _ <-]. split; [reflexivity | split; [reflexivity | ]].
        intros child' [= <-] _. reflexivity.
    + intros [= <- _ <-]. split; [reflexivity | split; [reflexivity | ]].
      intros child [=].
  - intros world fired poll.
    destruct (waitForServerDown_invariant world fired) as (checks & Hrange & Htimer).
    fold poll in Hrange, Htimer.
    split; [exact Hrange | split].
    + intros delay Hdelay. rewrite Hdelay in Htimer. tauto.
    + intros Hup Hfired.
      destruct (waitForServerDown_at_attempt world 60 fired ltac:(lia)
                  ltac:(intros i Hi; apply Hup; lia) ltac:(simpl; lia))
        as (t & rest & Hrun).
      unfold poll. rewrite Hrun, down_check_cases.
      change (Z.of_nat 60 - 1 + 1) with (Z.of_nat 60).
      rewrite (Hup 60%nat ltac:(lia)).
      change (60 <=? Z.of_nat 60) with true. cbv iota.
      rewrite fire_no_timer by reflexivity. repeat split.
  - intros world fired Hdown poll. unfold poll.
    rewrite (waitForServerUp_unanswered world fired Hdown).
    unfold up_failed, server.RETRY_AMOUNT, server.CHECKTIME.
    cbn [polling.amount polling.timer polling.deferred].
    split; [lia | split; [reflexivity | split]]; intros Hfired;
      destruct (Z.leb_spec 60 (Z.of_nat (fired + 1))); try reflexivity; lia.
  - intros world Hnever bound.
    exists (Z.to_nat bound).
    rewrite (waitForServerUp_unanswered world (Z.to_nat bound)
               (fun i _ => Hnever i)).
    unfold up_failed. cbn [polling.amount polling.timer].
    split; [lia | reflexivity].
Qed.

Lemma server_up_wait_polls_without_bound_witness :
  (exists promise this' calls,
     lifecycle.stop Sample2.platform Sample2.started =
       (Normal promise, this', calls) /\
     lifecycle.timeout_ms promise = 30000 /\
     calls = [lifecycle.removeAllListeners 4321; lifecycle.kill (-4321) "SIGINT"]) /\
  polling.amount (polling.waitForServerUp Sample2.never_up 60) = 61 /\
  polling.timer (polling.waitForServerUp Sample2.never_up 60) = Some 500 /\
  polling.deferred (polling.waitForServerUp Sample2.never_up 60) =
    polling.Rejected
      (Error "Pact startup failed; tried calling service 10 times with no result.").
Proof.
  destruct (server_up_wait_polls_without_bound Sample2.platform Sample2.started)
    as (_ & Hstop & _ & Hup & _).
  split.
  - destruct (lifecycle.stop Sample2.platform Sample2.started)
      as [[[promise | e] this'] calls] eqn:Hrun; [ | discriminate Hrun].
    destruct (Hstop promise this' calls eq_refl) as (_ & Htimeout & Hcalls).
    exists promise, this', calls.
    split; [reflexivity | split; [exact Htimeout | ]].
    apply (Hcalls {| lifecycle.pid := 4321; lifecycle.connected := false |});
      reflexivity.
  - destruct (Hup Sample2.never_up 60%nat) as (Hamount & Htimer & _ & Hrejected).
    + intros i _. reflexivity.
    + split; [exact Hamount | split; [exact Htimer | ]].
      apply Hrejected. lia.
Defined.
